(** * Congressional_Derivatives: the data fetcher, embedded and verified

    A shallow embedding of [src/data_fetcher.py]: the ticker-to-name lookup
    ([CompanyNameLookup]), the two data sources ([CapitolTradesHTMLFetcher],
    [CapitolTradesAPIFetcher]) and the caching coordinator ([DataManager]);
    and of the filters of the dashboard ([apply_filters] of
    [src/streamlit_app.py]).

    Python values are modelled as the code has them: a [str] is a sequence of
    Unicode code points, a decoded JSON document is a tree of dynamic values,
    a pandas frame built from a list of dicts is the list of its rows.
    Effects (HTTP, wall clock, random numbers, exceptions) are threaded
    through a small state-exception-trace monad; objects are passed and
    returned explicitly. *)

From Stdlib Require Import ZArith NArith List String Ascii Bool Lia.
From Stdlib Require Import Floats.PrimFloat.
From stdpp Require Import base option list gmap.
Import ListNotations.

Set Warnings "-register-all,-at-level-200-changed".

Local Open Scope Z_scope.

(** ** Python strings *)

(** A [str] is a sequence of code points. *)
Definition pystr : Type := list N.

(** An ASCII literal of the program text. *)
Definition lit (s : string) : pystr :=
  map N_of_ascii (list_ascii_of_string s).

(** [x in s] for a one-character [x]. *)
Definition contains_char (c : N) (s : pystr) : bool :=
  existsb (N.eqb c) s.

(** Python orders strings lexicographically by code point. *)
Fixpoint str_ltb (a b : pystr) : bool :=
  match a, b with
  | _, [] => false
  | [], _ :: _ => true
  | x :: a', y :: b' =>
      if (x <? y)%N then true
      else if (y <? x)%N then false
      else str_ltb a' b'
  end.

Definition str_leb (a b : pystr) : bool := negb (str_ltb b a).

(** ** Dynamic values: what [response.json()] can hand back *)

(** A [dict] is the list of its items in insertion order; the keys of a dict
    are distinct. *)
Inductive pyval : Type :=
| PNone
| PBool (b : bool)
| PInt (z : Z)
| PFloat (f : float)
| PStr (s : pystr)
| PList (l : list pyval)
| PDict (kv : list (pystr * pyval)).

(** Truth value of an object, as [if x] and [not x] use it. *)
Definition truthy (v : pyval) : bool :=
  match v with
  | PNone => false
  | PBool b => b
  | PInt z => negb (z =? 0)
  | PFloat f => negb (PrimFloat.eqb f PrimFloat.zero)
  | PStr s => match s with [] => false | _ => true end
  | PList l => match l with [] => false | _ => true end
  | PDict kv => match kv with [] => false | _ => true end
  end.

(** ** Exceptions and outcomes *)

(** Everything an [except Exception] clause catches; the tag is the class
    name.  Interpreter-exit signals ([KeyboardInterrupt], [SystemExit]) are
    outside the model. *)
Inductive exn : Type := Exception (cls : string).

Inductive outcome (A : Type) : Type :=
| Returns (a : A)
| Raises (e : exn).
Arguments Returns {A} a.
Arguments Raises {A} e.

(** ** The effect monad *)

(** A computation runs on a state [S], appends events of type [E] to a trace
    in chronological order, and either returns or raises.  State changes made
    before an exception is raised persist, as in Python. *)
Definition M (S E A : Type) : Type := S -> outcome A * S * list E.

Section Monad.
Context {S E : Type}.

Definition ret {A} (a : A) : M S E A := fun s => (Returns a, s, []).

Definition bind {A B} (c : M S E A) (k : A -> M S E B) : M S E B :=
  fun s =>
    match c s with
    | (Returns a, s1, t1) =>
        let '(r, s2, t2) := k a s1 in (r, s2, t1 ++ t2)
    | (Raises e, s1, t1) => (Raises e, s1, t1)
    end.

Definition raise {A} (e : exn) : M S E A := fun s => (Raises e, s, []).

(** [try: c  except Exception as e: h e] *)
Definition try_except {A} (c : M S E A) (h : exn -> M S E A) : M S E A :=
  fun s =>
    match c s with
    | (Returns a, s1, t1) => (Returns a, s1, t1)
    | (Raises e, s1, t1) =>
        let '(r, s2, t2) := h e s1 in (r, s2, t1 ++ t2)
    end.

Definition emit (ev : E) : M S E unit := fun s => (Returns tt, s, [ev]).

(** A call whose outcome is already known and touches nothing. *)
Definition of_outcome {A} (o : outcome A) : M S E A :=
  match o with
  | Returns a => ret a
  | Raises e => raise e
  end.

(** Run a primitive of the environment that cannot raise. *)
Definition prim {A} (f : S -> A * S) : M S E A :=
  fun s => let '(a, s1) := f s in (Returns a, s1, []).

(** [for x in xs: body x], collecting what each iteration yields. *)
Fixpoint for_each {A B} (body : A -> M S E B) (xs : list A) : M S E (list B) :=
  match xs with
  | [] => ret []
  | x :: xs' =>
      bind (body x) (fun y =>
      bind (for_each body xs') (fun ys => ret (y :: ys)))
  end.
End Monad.

Notation "'let*' x ':=' c 'in' k" := (bind c (fun x => k))
  (at level 200, x name, c at level 100, k at level 200, right associativity).
Notation "'let*' ' p ':=' c 'in' k" :=
  (bind c (fun x => match x with p => k end))
  (at level 200, p pattern, c at level 100, k at level 200, right associativity).
Notation "c1 ';;;' c2" := (bind c1 (fun _ => c2))
  (at level 100, c2 at level 200, right associativity).

(** ** Dates and times *)

(** A naive [datetime] is the number of microseconds since
    0001-01-01 00:00:00 (the midnight that starts day ordinal 1); a
    [timedelta] is a number of microseconds.  Subtracting datetimes and
    timedeltas is exact integer arithmetic, as in Python.  The clock is taken
    to read late enough in year 1 that going back 30 days stays in range. *)
Module Datetime.

Definition usec_per_day : Z := 86400000000.
Definition timedelta_days (n : Z) : Z := n * usec_per_day.
Definition timedelta_minutes (n : Z) : Z := n * 60000000.

(** [date.toordinal()] of the date part. *)
Definition toordinal (t : Z) : Z := t / usec_per_day + 1.

(** Proleptic Gregorian (year, month, day) of a day ordinal. *)
Definition civil (ordinal : Z) : Z * Z * Z :=
  let z := ordinal + 305 in
  let era := z / 146097 in
  let doe := z - era * 146097 in
  let yoe := (doe - doe / 1460 + doe / 36524 - doe / 146096) / 365 in
  let doy := doe - (365 * yoe + yoe / 4 - yoe / 100) in
  let mp := (5 * doy + 2) / 153 in
  let d := doy - (153 * mp + 2) / 5 + 1 in
  let m := if mp <? 10 then mp + 3 else mp - 9 in
  let y := yoe + era * 400 + (if m <=? 2 then 1 else 0) in
  (y, m, d).

Definition digit (n : Z) : N := Z.to_N (48 + n mod 10).
Definition pad2 (n : Z) : pystr := [digit (n / 10); digit n].
Definition pad4 (n : Z) : pystr := pad2 (n / 100) ++ pad2 n.
Definition pad6 (n : Z) : pystr := pad2 (n / 10000) ++ pad4 n.

(** [strftime("%Y-%m-%d")]; years are rendered on four digits. *)
Definition strftime_ymd (t : Z) : pystr :=
  let '(y, m, d) := civil (toordinal t) in
  pad4 y ++ lit "-" ++ pad2 m ++ lit "-" ++ pad2 d.

Definition clock_hms (t : Z) : pystr :=
  let sec := (t mod usec_per_day) / 1000000 in
  pad2 (sec / 3600) ++ lit ":" ++ pad2 (sec / 60 mod 60) ++ lit ":"
    ++ pad2 (sec mod 60).

(** [strftime("%Y-%m-%d %H:%M:%S")] *)
Definition strftime_ymd_hms (t : Z) : pystr :=
  strftime_ymd t ++ lit " " ++ clock_hms t.

(** [str(t)]: ISO format with a space, microseconds shown unless zero. *)
Definition to_str (t : Z) : pystr :=
  let us := t mod 1000000 in
  strftime_ymd_hms t ++ (if us =? 0 then [] else lit "." ++ pad6 us).

(** [int(td.total_seconds() / 60)]: whole minutes, truncated toward zero.
    Python goes through binary64 here; the quotient is taken exactly. *)
Definition whole_minutes (td : Z) : Z := Z.quot td 60000000.

End Datetime.

(** [str(x)] for an optional datetime, as an f-string renders it. *)
Definition str_of_time (t : option Z) : pystr :=
  match t with
  | Some t => Datetime.to_str t
  | None => lit "None"
  end.

(** ** Trade records and frames *)

(** One row, with the columns [_generate_pattern_based_trades] fills in.
    [company] holds whatever the name lookup returned. *)
Record TradeRecord : Type := {
  politician_name : pystr;
  party : pystr;
  chamber : pystr;
  state : pystr;
  district : pystr;
  company : pyval;
  ticker : pystr;
  sector : pystr;
  trade_date : pystr;
  disclosure_date : pystr;
  reporting_delay : Z;
  transaction_type : pystr;
  trade_size : pystr;
  price : pystr;
  owner : pystr;
}.

(** A [pd.DataFrame]: [pd.DataFrame()] is [[]], [pd.DataFrame(rows)] is
    [rows]. *)
Definition DataFrame : Type := list TradeRecord.

(** [df.empty] *)
Definition empty (df : DataFrame) : bool :=
  match df with [] => true | _ => false end.

(** ** DataFetcherBase: the interface of a source *)

(** A source has a display name and two methods that act on the process and
    its environment (state [S]) and leave events of type [E]; either may
    raise. *)
Record DataFetcherBase (S E : Type) : Type := {
  name : pystr;
  is_available : M S E bool;
  fetch_data : M S E DataFrame;
}.
Arguments name {S E} _.
Arguments is_available {S E} _.
Arguments fetch_data {S E} _.

(** ** DataManager *)

(** What the manager does, as seen from outside: it enters
    [fetch_fresh_data], it calls a method of the fetcher at position [i] of
    its list (logged with what the call gave back), and whatever the fetcher
    itself did meanwhile. *)
Inductive mgr_event (E : Type) : Type :=
| FetchFresh
| IsAvailable (i : nat) (r : outcome bool)
| FetchData (i : nat) (r : outcome DataFrame)
| Inner (e : E).
Arguments FetchFresh {E}.
Arguments IsAvailable {E} i r.
Arguments FetchData {E} i r.
Arguments Inner {E} e.

Record DataManager (S E : Type) : Type := {
  fetchers : list (DataFetcherBase S E);
  cache_duration : Z;
  last_fetch_time : option Z;
  cached_data : option DataFrame;
}.
Arguments fetchers {S E} _.
Arguments cache_duration {S E} _.
Arguments last_fetch_time {S E} _.
Arguments cached_data {S E} _.

Section Manager.
Context {S E : Type}.

(** [datetime.now()]: reading the wall clock.  The reading may differ from
    one call to the next, so it comes with a new state. *)
Variable clock : S -> Z * S.

Definition datetime_now : M S (mgr_event E) Z := prim clock.

(** Call a method of fetcher [i], log the call with its outcome. *)
Definition logged {A} (ev : outcome A -> mgr_event E) (c : M S E A)
  : M S (mgr_event E) A :=
  fun s => let '(r, s1, t) := c s in (r, s1, map Inner t ++ [ev r]).

(** [DataManager.__init__], for a given list of sources. *)
Definition DataManager_init (fs : list (DataFetcherBase S E)) : DataManager S E :=
  {| fetchers := fs;
     cache_duration := Datetime.timedelta_minutes 30;
     last_fetch_time := None;
     cached_data := None |}.

(** The body of the loop of [fetch_fresh_data] for the fetcher at position
    [i]: [Some] is the [return] inside the loop, [None] is falling through or
    [continue]. *)
Definition try_fetcher (i : nat) (fetcher : DataFetcherBase S E)
  : M S (mgr_event E) (option (DataFrame * pystr)) :=
  try_except
    (let* available := logged (IsAvailable i) (is_available fetcher) in
     if negb available then ret None
     else
       let* data := logged (FetchData i) (fetch_data fetcher) in
       if negb (empty data) then ret (Some (data, name fetcher))
       else ret None)
    (fun _ => ret None).

Fixpoint fetch_loop (i : nat) (fs : list (DataFetcherBase S E))
  : M S (mgr_event E) (option (DataFrame * pystr)) :=
  match fs with
  | [] => ret None
  | fetcher :: rest =>
      let* r := try_fetcher i fetcher in
      match r with
      | Some found => ret (Some found)
      | None => fetch_loop (Datatypes.S i) rest
      end
  end.

Definition fetch_fresh_data (self : DataManager S E)
  : M S (mgr_event E) (DataFrame * pystr) :=
  emit FetchFresh ;;;
  let* r := fetch_loop 0 (fetchers self) in
  match r with
  | Some found => ret found
  | None => ret ([], lit "No source available")
  end.

(** The label of a result served from the cache. *)
Definition cached_label (t : option Z) : pystr :=
  lit "Cached data (last updated: " ++ str_of_time t ++ lit ")".

(** The condition of the [if] in [get_data]; [or] evaluates left to right and
    stops at the first true operand, so the clock is read only when the three
    operands before it are false. *)
Definition needs_refresh (force_refresh : bool) (self : DataManager S E)
  : M S (mgr_event E) bool :=
  if force_refresh then ret true
  else match last_fetch_time self with
       | None => ret true
       | Some t =>
           match cached_data self with
           | None => ret true
           | Some _ =>
               let* now := datetime_now in
               ret (cache_duration self <? now - t)
           end
       end.

(** [get_data] returns the frame, the source label and the manager as the
    call leaves it. *)
Definition get_data (force_refresh : bool) (self : DataManager S E)
  : M S (mgr_event E) (DataFrame * pystr * DataManager S E) :=
  let* refresh := needs_refresh force_refresh self in
  if refresh then
    let* '(data, source) := fetch_fresh_data self in
    if negb (empty data) then
      let* now := datetime_now in
      let self' :=
        {| fetchers := fetchers self;
           cache_duration := cache_duration self;
           last_fetch_time := Some now;
           cached_data := Some data |} in
      ret (data, source, self')
    else
      match cached_data self with
      | Some d => ret (d, cached_label (last_fetch_time self), self)
      | None => ret ([], source, self)
      end
  else
    ret (match cached_data self with Some d => d | None => [] end,
         cached_label (last_fetch_time self), self).

(** [len(x)] as an object. *)
Definition len_val {A} (l : list A) : pyval := PInt (Z.of_nat (length l)).

(** [get_cache_status] returns the dict (keys in insertion order) and the
    manager as the call leaves it. *)
Definition get_cache_status (self : DataManager S E)
  : M S (mgr_event E) (list (pystr * pyval) * DataManager S E) :=
  match last_fetch_time self with
  | None => ret ([(lit "status", PStr (lit "No data fetched yet"))], self)
  | Some t =>
      let* now := datetime_now in
      let cache_age := now - t in
      let cache_remaining := cache_duration self - cache_age in
      ret ([(lit "last_updated", PStr (Datetime.strftime_ymd_hms t));
            (lit "cache_age_minutes", PInt (Datetime.whole_minutes cache_age));
            (lit "cache_valid", PBool (0 <? cache_remaining));
            (lit "cache_remaining_minutes",
              PInt (Z.max 0 (Datetime.whole_minutes cache_remaining)));
            (lit "total_records",
              match cached_data self with
              | Some d => len_val d
              | None => PInt 0
              end)],
           self)
  end.

End Manager.

(** ** The environment of the process *)

(** What [requests] hands back for a GET, reduced to what the code reads:
    [status_code], the outcome of [.json()], [.text], and the outcome of
    parsing: the [.string] of every [<script>] element that
    [BeautifulSoup(.content, 'html.parser')] finds ([None] for a script
    without a single text child). *)
Record Response : Type := {
  status_code : Z;
  json : outcome pyval;
  text : pystr;
  soup_scripts : outcome (list (option pystr));
}.

(** What [json.loads] does with a text. *)
Inductive json_result : Type :=
| JsonValue (v : pyval)
| JSONDecodeError
| JsonRaises (e : exn).

(** The world outside the process and the library routines the code calls
    but does not define.  Nothing is assumed about any of them. *)
Class Runtime (World : Type) : Type := {
  (** [session.get(url, timeout=t)] *)
  http_get : pystr -> Z -> World -> outcome Response * World;
  (** the wall clock behind [datetime.now()] *)
  wall_clock : World -> Z * World;
  (** the generator behind [random]: a fresh natural number *)
  random_source : World -> nat * World;
  (** Unicode tables for code points from 128 on: [str.isalnum],
      [str.isdecimal], and the full case mappings *)
  unicode_isalnum : N -> bool;
  unicode_isdecimal : N -> bool;
  unicode_upper : N -> pystr;
  unicode_lower : N -> pystr;
  (** [re.findall(pattern, text, re.DOTALL)] for a pattern with one group *)
  re_findall_dotall : pystr -> pystr -> list pystr;
  json_loads : pystr -> json_result;
  (** [str(x)] of a decoded JSON value *)
  py_str : pyval -> pystr;
}.

Inductive net_event : Type :=
| HttpGet (url : pystr) (timeout : Z)
| Sleep (milliseconds : Z).

(** ** Character classes and string methods *)

Section Text.
Context {World : Type} {RT : Runtime World}.
Local Open Scope N_scope.

Definition between (lo hi c : N) : bool := (lo <=? c) && (c <=? hi).

(** [\d] *)
Definition is_digit (c : N) : bool :=
  if c <? 128 then between 48 57 c else unicode_isdecimal c.

(** [\w] *)
Definition is_word (c : N) : bool :=
  if c <? 128
  then between 48 57 c || between 65 90 c || between 97 122 c || (c =? 95)
  else unicode_isalnum c.

(** [[A-Z]] *)
Definition is_AZ (c : N) : bool := between 65 90 c.

(** [str.isspace] of one character *)
Definition is_space (c : N) : bool :=
  between 9 13 c || between 28 32 c || (c =? 133) || (c =? 160)
  || (c =? 5760) || between 8192 8202 c || (c =? 8232) || (c =? 8233)
  || (c =? 8239) || (c =? 8287) || (c =? 12288).

Definition upper_char (c : N) : pystr :=
  if c <? 128 then [if between 97 122 c then c - 32 else c]
  else unicode_upper c.

Definition lower_char (c : N) : pystr :=
  if c <? 128 then [if between 65 90 c then c + 32 else c]
  else unicode_lower c.

(** [s.upper()], [s.lower()] *)
Definition str_upper (s : pystr) : pystr := concat (map upper_char s).
Definition str_lower (s : pystr) : pystr := concat (map lower_char s).

Fixpoint lstrip (s : pystr) : pystr :=
  match s with
  | c :: s' => if is_space c then lstrip s' else s
  | [] => []
  end.

(** [s.strip()] *)
Definition str_strip (s : pystr) : pystr := rev (lstrip (rev (lstrip s))).

Fixpoint is_prefix (p s : pystr) : bool :=
  match p, s with
  | [], _ => true
  | _ :: _, [] => false
  | x :: p', y :: s' => (x =? y) && is_prefix p' s'
  end.

(** [p in s] for strings *)
Fixpoint str_in (p s : pystr) : bool :=
  is_prefix p s ||
  match s with
  | [] => false
  | _ :: s' => str_in p s'
  end.

(** *** The two patterns of [_extract_content_patterns] *)

(** Length of the longest prefix whose characters all satisfy [p]: what a
    greedy [+] over a character class consumes first. *)
Fixpoint span (p : N -> bool) (s : pystr) : nat :=
  match s with
  | c :: s' => if p c then Datatypes.S (span p s') else O
  | [] => O
  end.

(** [\$[\d,]+(?:\.\d{2})?] at the start of [s]: length of the match.  The
    class run is taken whole; the optional group then takes a dot and two
    digits when they follow, and nothing otherwise. *)
Definition match_dollar (s : pystr) : option nat :=
  match s with
  | 36 :: s1 =>
      let n := span (fun c => is_digit c || (c =? 44)) s1 in
      match n with
      | O => None
      | _ =>
          match drop n s1 with
          | 46 :: d1 :: d2 :: _ =>
              if is_digit d1 && is_digit d2 then Some (1 + n + 3)%nat
              else Some (1 + n)%nat
          | _ => Some (1 + n)%nat
          end
      end
  | _ => None
  end.

(** [\d+K[–-]\d+K] at the start of [s].  A digit run can only be followed by
    [K] when it is taken whole, so no shorter run is tried. *)
Definition match_range (s : pystr) : option nat :=
  let n1 := span is_digit s in
  match n1 with
  | O => None
  | _ =>
      match drop n1 s with
      | 75 :: dash :: s2 =>
          if (dash =? 8211) || (dash =? 45) then
            let n2 := span is_digit s2 in
            match n2 with
            | O => None
            | _ =>
                match drop n2 s2 with
                | 75 :: _ => Some (n1 + 2 + n2 + 1)%nat
                | _ => None
                end
            end
          else None
      | _ => None
      end
  end.

(** [money_pattern]: the first alternative that matches wins. *)
Definition match_money (prev : option N) (s : pystr) : option nat :=
  match match_dollar s with
  | Some n => Some n
  | None => match_range s
  end.

Definition is_word_at (c : option N) : bool :=
  match c with Some c => is_word c | None => false end.

(** [\b] between two neighbouring positions ([None] past either end). *)
Definition word_boundary (before after : option N) : bool :=
  xorb (is_word_at before) (is_word_at after).

(** [[A-Z]{k}\b] at the start of [s]. *)
Definition match_caps (k : nat) (s : pystr) : bool :=
  let w := take k s in
  (length w =? k)%nat && forallb is_AZ w
  && word_boundary (last w) (head (drop k s)).

(** [stock_pattern] = [\b[A-Z]{3,5}\b]: the counted repetition is greedy,
    five letters are tried first, then four, then three. *)
Definition match_stock (prev : option N) (s : pystr) : option nat :=
  if word_boundary prev (head s) then
    if match_caps 5 s then Some 5%nat
    else if match_caps 4 s then Some 4%nat
    else if match_caps 3 s then Some 3%nat
    else None
  else None.

(** [re.findall] for a pattern without groups, given the pattern as a
    function from the character before a position and the text from that
    position on to the length of the match there.  [skip] counts the
    characters of the last match still to be passed over; the search resumes
    where a match ended. *)
Fixpoint findall_from (m : option N -> pystr -> option nat)
  (prev : option N) (skip : nat) (s : pystr) : list pystr :=
  match s with
  | [] => []
  | c :: rest =>
      match skip with
      | Datatypes.S k => findall_from m (Some c) k rest
      | O =>
          match m prev s with
          | Some (Datatypes.S n) =>
              take (Datatypes.S n) s :: findall_from m (Some c) n rest
          | _ => findall_from m (Some c) O rest
          end
      end
  end.

Definition re_findall (m : option N -> pystr -> option nat) (s : pystr)
  : list pystr :=
  findall_from m None O s.

End Text.

(** ** The process *)

Record CompanyNameLookup : Type := {
  cache : gmap pystr pyval;
}.

(** [CompanyNameLookup.__init__] *)
Definition CompanyNameLookup_init : CompanyNameLookup := {| cache := ∅ |}.

(** The mutable objects that live next to the manager, and the world.  The
    HTML fetcher owns the one name lookup of the process. *)
Record Process (World : Type) : Type := {
  world : World;
  company_lookup : CompanyNameLookup;
}.
Arguments world {World} _.
Arguments company_lookup {World} _.

Section Sources.
Context {World : Type} {RT : Runtime World}.

Abbreviation Proc := (Process World).
Abbreviation IO := (M Proc net_event).

Definition on_world {A} (f : World -> A * World) : Proc -> A * Proc :=
  fun p =>
    let '(a, w) := f (world p) in
    (a, {| world := w; company_lookup := company_lookup p |}).

(** [session.get(url, timeout=timeout)] *)
Definition session_get (url : pystr) (timeout : Z) : IO Response :=
  emit (HttpGet url timeout) ;;;
  fun p =>
    let '(r, w) := http_get url timeout (world p) in
    (r, {| world := w; company_lookup := company_lookup p |}, []).

(** [time.sleep] *)
Definition time_sleep (milliseconds : Z) : IO unit := emit (Sleep milliseconds).

Definition now : IO Z := prim (on_world wall_clock).

(** [random._randbelow(n)]: any number below [n]. *)
Definition randbelow (n : nat) : IO nat :=
  prim (on_world (fun w =>
    let '(r, w') := random_source w in ((r mod n)%nat, w'))).

(** [random.randint(a, b)] *)
Definition randint (a b : Z) : IO Z :=
  let* r := randbelow (Z.to_nat (b - a + 1)) in
  ret (a + Z.of_nat r).

(** [random.choice(seq)] *)
Definition random_choice {A} (seq : list A) : IO A :=
  match seq with
  | [] => raise (Exception "IndexError")
  | x :: _ =>
      let* i := randbelow (length seq) in
      ret (nth i seq x)
  end.

(** *** Operations on dynamic values *)

(** [d.get(key, default)] *)
Fixpoint assoc (key : pystr) (kv : list (pystr * pyval)) : option pyval :=
  match kv with
  | [] => None
  | (k, v) :: kv' => if decide (k = key) then Some v else assoc key kv'
  end.

Definition py_get (x : pyval) (key : pystr) (default : pyval) : IO pyval :=
  match x with
  | PDict kv =>
      ret (match assoc key kv with Some v => v | None => default end)
  | _ => raise (Exception "AttributeError")
  end.

(** [len(x)] *)
Definition py_len (x : pyval) : IO nat :=
  match x with
  | PStr s => ret (length s)
  | PList l => ret (length l)
  | PDict kv => ret (length kv)
  | _ => raise (Exception "TypeError")
  end.

(** The items [for item in x] goes through. *)
Definition py_iter (x : pyval) : IO (list pyval) :=
  match x with
  | PStr s => ret (map (fun c => PStr [c]) s)
  | PList l => ret l
  | PDict kv => ret (map (fun '(k, _) => PStr k) kv)
  | _ => raise (Exception "TypeError")
  end.

(** [x[0]]; the keys of a decoded JSON object are strings, never [0]. *)
Definition py_first (x : pyval) : IO pyval :=
  match x with
  | PStr (c :: _) => ret (PStr [c])
  | PList (v :: _) => ret v
  | PStr [] | PList [] => raise (Exception "IndexError")
  | PDict _ => raise (Exception "KeyError")
  | _ => raise (Exception "TypeError")
  end.

(** [x.upper()] *)
Definition py_upper (x : pyval) : IO pystr :=
  match x with
  | PStr s => ret (str_upper s)
  | _ => raise (Exception "AttributeError")
  end.

(** *** CompanyNameLookup *)

Definition base_url : pystr := lit "https://ticker-2e1ica8b9.now.sh".

Definition fallback_name (ticker : pystr) : pyval :=
  PStr (lit "Company for " ++ ticker).

(** [self.cache[ticker] = v] *)
Definition cache_store (ticker : pystr) (v : pyval) : IO unit :=
  fun p =>
    (Returns tt,
     {| world := world p;
        company_lookup := {| cache := <[ticker := v]> (cache (company_lookup p)) |} |},
     []).

Definition cache_lookup (ticker : pystr) : IO (option pyval) :=
  fun p => (Returns (cache (company_lookup p) !! ticker), p, []).

(** The loop that looks for an exact ticker match; [Some] is the [return]
    inside the loop. *)
Fixpoint find_exact_match (ticker : pystr) (results : list pyval)
  : IO (option pyval) :=
  match results with
  | [] => ret None
  | result :: rest =>
      let* symbol := py_get result (lit "symbol") (PStr []) in
      let* upper := py_upper symbol in
      if decide (upper = ticker) then
        let* company_name := py_get result (lit "name") (fallback_name ticker) in
        cache_store ticker company_name ;;;
        ret (Some company_name)
      else find_exact_match ticker rest
  end.

(** The body of [if response.status_code == 200:]; [Some] is a [return]
    inside it, [None] is falling out of it. *)
Definition read_results (ticker : pystr) (response : Response)
  : IO (option pyval) :=
  let* data := of_outcome (json response) in
  let* results := py_get data (lit "results") (PList []) in
  if truthy results then
    let* n := py_len results in
    if (0 <? n)%nat then
      let* items := py_iter results in
      let* exact := find_exact_match ticker items in
      match exact with
      | Some company_name => ret (Some company_name)
      | None =>
          let* first := py_first results in
          let* company_name := py_get first (lit "name") (fallback_name ticker) in
          cache_store ticker company_name ;;;
          ret (Some company_name)
      end
    else ret None
  else ret None.

(** The [try] block of [get_company_name]; [Some] is a [return] inside it,
    [None] is reaching its end. *)
Definition query_ticker_api (ticker : pystr) : IO (option pyval) :=
  let url := base_url ++ lit "/keyword/" ++ ticker ++ lit "/limit/1" in
  let* response := session_get url 5 in
  let* found :=
    if status_code response =? 200 then read_results ticker response
    else ret None in
  match found with
  | Some company_name => ret (Some company_name)
  | None =>
      cache_store ticker (fallback_name ticker) ;;;
      ret None
  end.

(** [get_company_name(ticker)]; a missing ticker is [None]. *)
Definition get_company_name (ticker : option pystr) : IO pyval :=
  match ticker with
  | None | Some [] => ret (PStr (lit "Unknown Company"))
  | Some (c :: cs) =>
      let ticker := str_strip (str_upper (c :: cs)) in
      let* hit := cache_lookup ticker in
      match hit with
      | Some company_name => ret company_name
      | None =>
          let* returned :=
            try_except (query_ticker_api ticker)
              (fun _ => cache_store ticker (fallback_name ticker) ;;; ret None) in
          match returned with
          | Some company_name => ret company_name
          | None =>
              time_sleep 100 ;;;
              let* entry := cache_lookup ticker in
              ret (match entry with
                   | Some company_name => company_name
                   | None => fallback_name ticker
                   end)
          end
      end
  end.

(** The loop of [get_multiple_company_names]: [results] is keyed by the
    tickers as given, a later duplicate overwriting an earlier one. *)
Fixpoint resolve_each (tickers : list pystr) (results : gmap pystr pyval)
  : IO (gmap pystr pyval) :=
  match tickers with
  | [] => ret results
  | ticker :: rest =>
      let* company_name := get_company_name (Some ticker) in
      time_sleep 200 ;;;
      resolve_each rest (<[ticker := company_name]> results)
  end.

Definition get_multiple_company_names (tickers : list pystr)
  : IO (gmap pystr pyval) :=
  resolve_each tickers ∅.

(** *** CapitolTradesHTMLFetcher *)

Definition HTML_name : pystr := lit "Capitol Trades Enhanced HTML Scraper".
Definition HTML_base_url : pystr := lit "https://www.capitoltrades.com/trades".

Definition HTML_is_available : IO bool :=
  try_except
    (let* response := session_get HTML_base_url 10 in
     ret (status_code response =? 200))
    (fun _ => ret false).

Definition trade_keywords : list pystr :=
  map lit ["trade"; "stock"; "politician"; "congress"; "buy"; "sell"; "ticker"]%string.

(** [_contains_trade_data] *)
Definition contains_trade_data (data : pyval) : bool :=
  let data_str := str_lower (py_str data) in
  existsb (fun keyword => str_in keyword data_str) trade_keywords.

Definition embedded_patterns : list pystr :=
  map lit ["window\.__NEXT_DATA__\s*=\s*({.*?});";
           "__INITIAL_STATE__\s*=\s*({.*?});";
           "window\.__DATA__\s*=\s*({.*?});"]%string.

(** The three nested loops of [_extract_embedded_data]; [Some] is the
    [return data] inside them.  Only [json.JSONDecodeError] is caught. *)
Fixpoint scan_matches (matches : list pystr) : IO (option pyval) :=
  match matches with
  | [] => ret None
  | m :: rest =>
      match json_loads m with
      | JsonValue data =>
          if contains_trade_data data then ret (Some data)
          else scan_matches rest
      | JSONDecodeError => scan_matches rest
      | JsonRaises e => raise e
      end
  end.

Fixpoint scan_patterns (patterns : list pystr) (script_content : pystr)
  : IO (option pyval) :=
  match patterns with
  | [] => ret None
  | pattern :: rest =>
      let* found := scan_matches (re_findall_dotall pattern script_content) in
      match found with
      | Some data => ret (Some data)
      | None => scan_patterns rest script_content
      end
  end.

Fixpoint extract_embedded_data (scripts : list (option pystr))
  : IO (option pyval) :=
  match scripts with
  | [] => ret None
  | script :: rest =>
      match script with
      | Some (c :: cs) =>
          let* found := scan_patterns embedded_patterns (c :: cs) in
          match found with
          | Some data => ret (Some data)
          | None => extract_embedded_data rest
          end
      | _ => extract_embedded_data rest
      end
  end.

(** [_process_embedded_data]: the structure is unknown, the frame is empty. *)
Definition process_embedded_data (data : pyval) : IO DataFrame := ret [].

Record Politician : Type := {
  p_name : pystr;
  p_party : pystr;
  p_chamber : pystr;
  p_state : pystr;
}.

Definition politicians : list Politician :=
  [ {| p_name := lit "Nancy Pelosi"; p_party := lit "Democrat";
       p_chamber := lit "House"; p_state := lit "CA" |};
    {| p_name := lit "Dan Crenshaw"; p_party := lit "Republican";
       p_chamber := lit "House"; p_state := lit "TX" |};
    {| p_name := lit "Josh Gottheimer"; p_party := lit "Democrat";
       p_chamber := lit "House"; p_state := lit "NJ" |} ].

(** [seq[i]] *)
Definition index {A} (seq : list A) (i : nat) : IO A :=
  match seq !! i with
  | Some x => ret x
  | None => raise (Exception "IndexError")
  end.

(** The default trade size, [1K], an en dash, [15K]. *)
Definition default_trade_size : pystr := lit "1K" ++ [8211%N] ++ lit "15K".

(** One iteration of the loop of [_generate_pattern_based_trades]; the
    entries of the dict are evaluated from top to bottom. *)
Definition make_trade (money_amounts stock_symbols : list pystr) (i : nat)
  : IO TradeRecord :=
  let* politician := random_choice politicians in
  let* ticker := index stock_symbols i in
  let* company_name := get_company_name (Some ticker) in
  let* now1 := now in
  let* days1 := randint 1 30 in
  let* now2 := now in
  let* days2 := randint 1 15 in
  let* delay := randint 1 30 in
  let* kind := random_choice [lit "Buy"; lit "Sell"] in
  let* amount := index money_amounts i in
  ret {| politician_name := p_name politician;
         party := p_party politician;
         chamber := p_chamber politician;
         state := p_state politician;
         district := lit "Multiple";
         company := company_name;
         ticker := ticker;
         sector := lit "Technology";
         trade_date :=
           Datetime.strftime_ymd (now1 - Datetime.timedelta_days days1);
         disclosure_date :=
           Datetime.strftime_ymd (now2 - Datetime.timedelta_days days2);
         reporting_delay := delay;
         transaction_type := kind;
         trade_size :=
           if contains_char 75 amount then amount else default_trade_size;
         price := if contains_char 36 amount then amount else lit "$150.00";
         owner := lit "Self" |}.

(** [_generate_pattern_based_trades] *)
Definition generate_pattern_based_trades (money_amounts stock_symbols : list pystr)
  : IO (list TradeRecord) :=
  let n := min 10 (min (length money_amounts) (length stock_symbols)) in
  for_each (make_trade money_amounts stock_symbols) (seq 0 n).

(** [_extract_content_patterns]; the parsed page is not used. *)
Definition extract_content_patterns (page_text : pystr) : IO (list TradeRecord) :=
  let money_matches := re_findall match_money page_text in
  let stock_matches := re_findall match_stock page_text in
  if (5 <? length money_matches)%nat && (5 <? length stock_matches)%nat then
    generate_pattern_based_trades (take 20 money_matches) (take 20 stock_matches)
  else ret [].

Definition HTML_fetch_data : IO DataFrame :=
  try_except
    (let* response := session_get HTML_base_url 15 in
     if negb (status_code response =? 200) then ret []
     else
       let* soup := of_outcome (soup_scripts response) in
       let* embedded := extract_embedded_data soup in
       match embedded with
       | Some data =>
           if truthy data then
             py_len data ;;;
             process_embedded_data data
           else
             let* trades_data := extract_content_patterns (text response) in
             ret trades_data
       | None =>
           let* trades_data := extract_content_patterns (text response) in
           ret trades_data
       end)
    (fun _ => ret []).

Definition CapitolTradesHTMLFetcher : DataFetcherBase Proc net_event :=
  {| name := HTML_name;
     is_available := HTML_is_available;
     fetch_data := HTML_fetch_data |}.

(** *** CapitolTradesAPIFetcher *)

Definition API_name : pystr := lit "Capitol Trades API".
Definition API_url : pystr := lit "https://bff.capitoltrades.com/trades".

Definition API_is_available : IO bool :=
  try_except
    (let* response := session_get API_url 10 in
     ret (status_code response =? 200))
    (fun _ => ret false).

(** The response is decoded, measured for the log, and dropped. *)
Definition API_fetch_data : IO DataFrame :=
  try_except
    (let* response := session_get API_url 10 in
     if status_code response =? 200 then
       let* data := of_outcome (json response) in
       ret []
     else ret [])
    (fun _ => ret []).

Definition CapitolTradesAPIFetcher : DataFetcherBase Proc net_event :=
  {| name := API_name;
     is_available := API_is_available;
     fetch_data := API_fetch_data |}.

(** *** The manager of the process *)

(** [data_manager = DataManager()] *)
Definition data_manager : DataManager Proc net_event :=
  DataManager_init [CapitolTradesHTMLFetcher; CapitolTradesAPIFetcher].

Definition get_congressional_data (force_refresh : bool)
  (self : DataManager Proc net_event) :=
  get_data (on_world wall_clock) force_refresh self.

Definition get_cache_info (self : DataManager Proc net_event) :=
  get_cache_status (on_world wall_clock) self.

End Sources.

(** * streamlit_app.py: the filters of the dashboard *)

(** The dict [create_filters] returns, as [apply_filters] reads it: a dict
    whose keys are among the seven that [create_filters] writes, each of
    which may be absent ([{}] has none).  The four selections are strings,
    the two dates are [date] objects (proleptic Gregorian ordinals), the
    trade sizes are a list of strings. *)
Record Filters : Type := {
  f_politician : option pystr;
  f_party : option pystr;
  f_chamber : option pystr;
  f_transaction : option pystr;
  f_start_date : option Z;
  f_end_date : option Z;
  f_trade_sizes : option (list pystr);
}.

(** [not filters]: the dict is empty. *)
Definition no_filters (filters : Filters) : bool :=
  match f_politician filters, f_party filters, f_chamber filters,
        f_transaction filters, f_start_date filters, f_end_date filters,
        f_trade_sizes filters with
  | None, None, None, None, None, None, None => true
  | _, _, _, _, _, _, _ => false
  end.

(** [df[mask]] for a boolean mask aligned with the rows of [df]. *)
Definition select (mask : list bool) (df : DataFrame) : DataFrame :=
  map snd (List.filter fst (combine mask df)).

(** [if filters.get(key, 'All') != "All": df = df[df[column] == filters[key]]] *)
Definition keep_equal (column : TradeRecord -> pystr) (choice : option pystr)
  (df : DataFrame) : DataFrame :=
  match choice with
  | Some v =>
      if bool_decide (v <> lit "All")
      then List.filter (fun r => bool_decide (column r = v)) df
      else df
  | None => df
  end.

Section Dashboard.

(** The mask
    [(pd.to_datetime(column).dt.date >= start) & (pd.to_datetime(column).dt.date <= end)]
    that pandas computes for a column of strings, or the exception the
    conversion raises.  Nothing is assumed about it. *)
Variable date_mask : list pystr -> Z -> Z -> outcome (list bool).

(** [apply_filters]; the copy of the frame is the frame. *)
Definition apply_filters (df : DataFrame) (filters : Filters) : outcome DataFrame :=
  if empty df || no_filters filters then Returns df
  else
    let filtered_df := df in
    let filtered_df := keep_equal politician_name (f_politician filters) filtered_df in
    let filtered_df := keep_equal party (f_party filters) filtered_df in
    let filtered_df := keep_equal chamber (f_chamber filters) filtered_df in
    let filtered_df :=
      keep_equal transaction_type (f_transaction filters) filtered_df in
    let dated :=
      match f_start_date filters, f_end_date filters with
      | Some start_date, Some end_date =>
          match date_mask (map trade_date filtered_df) start_date end_date with
          | Returns mask => Returns (select mask filtered_df)
          | Raises e => Raises e
          end
      | _, _ => Returns filtered_df
      end in
    match dated with
    | Returns filtered_df =>
        match f_trade_sizes filters with
        | Some (size :: sizes) =>
            Returns (List.filter
                       (fun r => bool_decide (trade_size r ∈ size :: sizes))
                       filtered_df)
        | _ => Returns filtered_df
        end
    | Raises e => Raises e
    end.

End Dashboard.

(** * Statements *)

(** ** Vocabulary: runs *)

(** What a run returned, if it returned, and the trace it left. *)
Definition value_of {S E A} (run : outcome A * S * list E) : option A :=
  match run with
  | (Returns a, _, _) => Some a
  | (Raises _, _, _) => None
  end.

Definition trace_of {S E A} (run : outcome A * S * list E) : list E := snd run.

(** [c] returns, whatever the state, and what it returns satisfies [P]. *)
Definition returns_with {S E A} (c : M S E A) (P : A -> Prop) : Prop :=
  forall s, exists a s' tr, c s = (Returns a, s', tr) /\ P a.

(** If [c] returns, what it returns satisfies [P]. *)
Definition ensures {S E A} (c : M S E A) (P : A -> Prop) : Prop :=
  forall s a s' tr, c s = (Returns a, s', tr) -> P a.

(** ** Vocabulary: the manager *)

(** The positions of the fetchers whose availability was asked, in the order
    of the asking. *)
Definition examined {E} (tr : list (mgr_event E)) : list nat :=
  flat_map (fun ev => match ev with IsAvailable i _ => [i] | _ => [] end) tr.

(** A [fetch_data] call that gave back a frame with rows. *)
Definition successful_fetch {E} (ev : mgr_event E) : bool :=
  match ev with
  | FetchData _ (Returns (_ :: _)) => true
  | _ => false
  end.

Definition no_success {E} (tr : list (mgr_event E)) : Prop :=
  Forall (fun ev => successful_fetch ev = false) tr.

(** A call event names the fetcher at position [lo] or a later one; exactly
    the one at position [i]. *)
Definition from_position {E} (lo : nat) (ev : mgr_event E) : Prop :=
  match ev with
  | IsAvailable i _ | FetchData i _ => (lo <= i)%nat
  | _ => True
  end.

Definition at_position {E} (i : nat) (ev : mgr_event E) : Prop :=
  match ev with
  | IsAvailable j _ | FetchData j _ => j = i
  | _ => True
  end.

(** What one pass through the loop of [fetch_fresh_data] does with the
    fetcher [f] at position [i], case by case: from which state to which,
    leaving which trace, and with which result. *)
Inductive attempt {S E} (i : nat) (f : DataFetcherBase S E)
  : S -> S -> list (mgr_event E) -> option (DataFrame * pystr) -> Prop :=
| attempt_unavailable s r s1 t1 :
    is_available f s = (r, s1, t1) -> r <> Returns true ->
    attempt i f s s1 (map Inner t1 ++ [IsAvailable i r]) None
| attempt_no_rows s s1 t1 r s2 t2 :
    is_available f s = (Returns true, s1, t1) ->
    fetch_data f s1 = (r, s2, t2) ->
    (forall d, r = Returns d -> d = []) ->
    attempt i f s s2
      ((map Inner t1 ++ [IsAvailable i (Returns true)])
         ++ map Inner t2 ++ [FetchData i r]) None
| attempt_rows s s1 t1 d s2 t2 :
    is_available f s = (Returns true, s1, t1) ->
    fetch_data f s1 = (Returns d, s2, t2) ->
    d <> [] ->
    attempt i f s s2
      ((map Inner t1 ++ [IsAvailable i (Returns true)])
         ++ map Inner t2 ++ [FetchData i (Returns d)]) (Some (d, name f)).

(** What the loop over the fetchers [fs], numbered from [i], leaves behind. *)
Definition loop_facts {S E} (i : nat) (fs : list (DataFetcherBase S E))
  (tr : list (mgr_event E)) (r : option (DataFrame * pystr)) : Prop :=
  (exists k, (k <= length fs)%nat /\ examined tr = seq i k)
  /\ Forall (from_position i) tr
  /\ (forall j ra, In (IsAvailable j ra) tr -> ra <> Returns true ->
       forall rd, ~ In (FetchData j rd) tr)
  /\ match r with
     | Some (d, l) =>
         d <> [] /\
         exists j f before,
           fs !! j = Some f /\ l = name f /\
           tr = before ++ [FetchData (i + j) (Returns d)] /\ no_success before
     | None => no_success tr /\ examined tr = seq i (length fs)
     end.

(** The manager after a successful refresh. *)
Definition refreshed {S E} (self : DataManager S E) (now : Z) (data : DataFrame)
  : DataManager S E :=
  {| fetchers := fetchers self;
     cache_duration := cache_duration self;
     last_fetch_time := Some now;
     cached_data := Some data |}.

(** The states a manager built on the sources [fs] can be in: the one
    [__init__] leaves, and whatever a returning call of [get_data] or
    [get_cache_status] leaves, in any state of the environment. *)
Inductive reachable {S E} (clock : S -> Z * S) (fs : list (DataFetcherBase S E))
  : DataManager S E -> Prop :=
| reach_init : reachable clock fs (DataManager_init fs)
| reach_get_data force_refresh self s data source self' s' tr :
    reachable clock fs self ->
    get_data clock force_refresh self s = (Returns (data, source, self'), s', tr) ->
    reachable clock fs self'
| reach_get_cache_status self s status self' s' tr :
    reachable clock fs self ->
    get_cache_status clock self s = (Returns (status, self'), s', tr) ->
    reachable clock fs self'.

(** What holds of every reachable manager. *)
Definition consistent {S E} (fs : list (DataFetcherBase S E))
  (self : DataManager S E) : Prop :=
  fetchers self = fs
  /\ cache_duration self = Datetime.timedelta_minutes 30
  /\ ((last_fetch_time self = None /\ cached_data self = None)
      \/ exists t d, last_fetch_time self = Some t /\ cached_data self = Some d
                     /\ d <> []).

(** The frame of the last [fetch_data] call of a trace that gave back rows;
    [None] when no call of the trace did. *)
Fixpoint last_fetched {E} (tr : list (mgr_event E)) : option DataFrame :=
  match tr with
  | [] => None
  | ev :: rest =>
      match last_fetched rest with
      | Some d => Some d
      | None =>
          match ev with
          | FetchData _ (Returns (row :: rows)) => Some (row :: rows)
          | _ => None
          end
      end
  end.

(** A manager together with its past: [reached_by clock fs past self] when
    [self] is what a sequence of returning calls of [get_data] and
    [get_cache_status], started on the manager [__init__] leaves, has led
    to, and [past] is everything these calls did, in order.  The past is
    read off the calls, not off the fields of the manager. *)
Inductive reached_by {S E} (clock : S -> Z * S) (fs : list (DataFetcherBase S E))
  : list (mgr_event E) -> DataManager S E -> Prop :=
| reached_init : reached_by clock fs [] (DataManager_init fs)
| reached_get_data past force_refresh self s data source self' s' tr :
    reached_by clock fs past self ->
    get_data clock force_refresh self s = (Returns (data, source, self'), s', tr) ->
    reached_by clock fs (past ++ tr) self'
| reached_get_cache_status past self s status self' s' tr :
    reached_by clock fs past self ->
    get_cache_status clock self s = (Returns (status, self'), s', tr) ->
    reached_by clock fs (past ++ tr) self'.

(** The keys of a dict, in insertion order. *)
Definition keys (d : list (pystr * pyval)) : list pystr := map fst d.

(** The keys the specification lists for the cache status. *)
Definition documented_status_keys : list pystr :=
  map lit ["has_data"; "last_updated"; "cache_age_minutes"; "cache_valid";
           "cache_remaining_minutes"; "total_records"]%string.

(** ** Vocabulary: the name lookup *)

(** [ticker.upper().strip()] *)
Definition normalize {World} {RT : Runtime World} (ticker : pystr) : pystr :=
  str_strip (str_upper ticker).

(** The address [get_company_name] asks for a normalized ticker. *)
Definition lookup_url (key : pystr) : pystr :=
  base_url ++ lit "/keyword/" ++ key ++ lit "/limit/1".

(** The process after [self.cache[key] = v], in the world [w]. *)
Definition stored {World} (key : pystr) (v : pyval) (w : World) (p : Process World)
  : Process World :=
  {| world := w;
     company_lookup := {| cache := <[key := v]> (cache (company_lookup p)) |} |}.

(** The process in another world. *)
Definition with_world {World} (w : World) (p : Process World) : Process World :=
  {| world := w; company_lookup := company_lookup p |}.

(** A GET for the name of the normalized ticker [key]. *)
Definition is_lookup_of (key : pystr) (ev : net_event) : bool :=
  match ev with
  | HttpGet url _ => bool_decide (url = lookup_url key)
  | Sleep _ => false
  end.

Definition lookups_of (key : pystr) (tr : list net_event) : nat :=
  length (List.filter (is_lookup_of key) tr).

Definition is_get (ev : net_event) : bool :=
  match ev with
  | HttpGet _ _ => true
  | Sleep _ => false
  end.

(** What a call may answer, given the cache it leaves. *)
Definition answer_ok {World} {RT : Runtime World} (p' : Process World)
  (call : option pystr) (v : pyval) : Prop :=
  match call with
  | None | Some [] => v = PStr (lit "Unknown Company")
  | Some ticker => cache (company_lookup p') !! normalize ticker = Some v
  end.

(** Entries of the cache are never dropped or changed. *)
Definition cache_grows {World} (p p' : Process World) : Prop :=
  forall k v, cache (company_lookup p) !! k = Some v ->
              cache (company_lookup p') !! k = Some v.

(** ** Vocabulary: synthesized rows *)

(** A value the wall clock can read. *)
Definition clock_reading {World} {RT : Runtime World} (t : Z) : Prop :=
  exists w, fst (wall_clock w) = t.

(** The politician fields of a row come together from one roster entry. *)
Definition from_roster (r : TradeRecord) : Prop :=
  exists pol, In pol politicians
    /\ politician_name r = p_name pol /\ party r = p_party pol
    /\ chamber r = p_chamber pol /\ state r = p_state pol.

(** The dates of a synthesized row: each lies a drawn number of days before
    a reading of the clock, 1 to 30 for the trade and 1 to 15 for the
    disclosure. *)
Definition dates_drawn {World} {RT : Runtime World} (r : TradeRecord) : Prop :=
  exists now1 days1 now2 days2,
    clock_reading now1 /\ clock_reading now2
    /\ 1 <= days1 <= 30 /\ 1 <= days2 <= 15
    /\ trade_date r = Datetime.strftime_ymd (now1 - Datetime.timedelta_days days1)
    /\ disclosure_date r
       = Datetime.strftime_ymd (now2 - Datetime.timedelta_days days2).

(** Everything [make_trade] guarantees of the row it builds. *)
Definition synthesized {World} {RT : Runtime World} (r : TradeRecord) : Prop :=
  from_roster r
  /\ district r = lit "Multiple" /\ sector r = lit "Technology"
  /\ owner r = lit "Self"
  /\ 1 <= reporting_delay r <= 30
  /\ (transaction_type r = lit "Buy" \/ transaction_type r = lit "Sell")
  /\ dates_drawn r.

(** The number of rows [_extract_content_patterns] gives for a page. *)
Definition pattern_rows {World} {RT : Runtime World} (page_text : pystr) : nat :=
  let money := length (re_findall match_money page_text) in
  let stock := length (re_findall match_stock page_text) in
  if (5 <? money)%nat && (5 <? stock)%nat
  then Nat.min 10 (Nat.min money stock)
  else O.

(** ** Vocabulary: further properties *)

(** A reply the lookup can take a name from: status 200, a JSON object, and
    a non-empty list under [results]. *)
Definition usable_reply (reply : outcome Response) : bool :=
  match reply with
  | Returns response =>
      (status_code response =? 200)
      && match json response with
         | Returns (PDict kv) =>
             match assoc (lit "results") kv with
             | Some (PList (_ :: _)) => true
             | _ => false
             end
         | _ => false
         end
  | Raises _ => false
  end.

(** [item.get('symbol', '').upper() == key] for a result that is an object
    whose symbol, if any, is a string. *)
Definition item_matches {World} {RT : Runtime World} (key : pystr) (item : pyval) : bool :=
  match item with
  | PDict fields =>
      match assoc (lit "symbol") fields with
      | Some (PStr s) => bool_decide (str_upper s = key)
      | None => bool_decide (str_upper [] = key)
      | _ => false
      end
  | _ => false
  end.

(** A result the loop can test: an object whose [symbol], if it has one, is
    a string. *)
Definition well_formed_item (item : pyval) : Prop :=
  match item with
  | PDict fields =>
      match assoc (lit "symbol") fields with
      | Some (PStr _) | None => True
      | _ => False
      end
  | _ => False
  end.

(** [item.get('name', fallback)] *)
Definition name_in (key : pystr) (item : pyval) : pyval :=
  match item with
  | PDict fields =>
      match assoc (lit "name") fields with
      | Some v => v
      | None => fallback_name key
      end
  | _ => fallback_name key
  end.

(** The name the lookup takes from a list of results: that of the first
    exact match, and that of the first result when none matches. *)
Definition chosen_name {World} {RT : Runtime World} (key : pystr) (items : list pyval) : pyval :=
  match List.find (item_matches key) items with
  | Some item => name_in key item
  | None => name_in key (List.hd PNone items)
  end.

(** The pause between two lookups of [get_multiple_company_names]. *)
Definition is_pause (ev : net_event) : bool :=
  match ev with
  | Sleep 200 => true
  | _ => false
  end.

(** What a probe answers to a reply. *)
Definition status_is_200 (reply : outcome Response) : bool :=
  match reply with
  | Returns response => status_code response =? 200
  | Raises _ => false
  end.

(** A script element with text. *)
Definition has_text (script : option pystr) : bool :=
  match script with
  | Some (_ :: _) => true
  | _ => false
  end.

(** [data] was decoded from a match of one of the patterns in one of the
    scripts, and passed the keyword check. *)
Definition accepted_from {World} {RT : Runtime World}
  (scripts : list (option pystr)) (data : pyval) : Prop :=
  exists script pattern m,
    In (Some script) scripts /\ In pattern embedded_patterns
    /\ In m (re_findall_dotall pattern script)
    /\ json_loads m = JsonValue data
    /\ contains_trade_data data = true.

(** A money token is a dollar amount (it starts with the dollar sign and
    has no [K]) or a range (it has a [K] and no dollar sign). *)
Definition dollar_token (tok : pystr) : Prop :=
  head tok = Some 36%N /\ contains_char 75 tok = false.

Definition range_token (tok : pystr) : Prop :=
  contains_char 75 tok = true /\ contains_char 36 tok = false.

(** The two forms of a money token, as the pattern spells them: the dollar
    sign, one or more digits or commas, and optionally a dot and two digits;
    or digits, [K], a dash (en dash or hyphen), digits, [K]. *)
Definition dollar_amount {World} {RT : Runtime World} (tok : pystr) : Prop :=
  exists body cents,
    tok = 36%N :: body ++ cents
    /\ body <> []
    /\ forallb (fun c => is_digit c || (c =? 44)%N) body = true
    /\ (cents = []
        \/ exists d1 d2, cents = [46%N; d1; d2]
                         /\ is_digit d1 = true /\ is_digit d2 = true).

Definition size_range {World} {RT : Runtime World} (tok : pystr) : Prop :=
  exists low dash high,
    tok = low ++ [75%N; dash] ++ high ++ [75%N]
    /\ low <> [] /\ high <> []
    /\ forallb is_digit low = true /\ forallb is_digit high = true
    /\ (dash = 8211%N \/ dash = 45%N).

(** [tok] stands in [text] as a whole word: between [pre] and [post], with
    no word character next to it on either side. *)
Definition whole_word_of {World} {RT : Runtime World} (text tok : pystr) : Prop :=
  exists pre post,
    text = pre ++ tok ++ post
    /\ is_word_at (last pre) = false /\ is_word_at (head post) = false.

(** [c] returns, whatever the state, without an event, leaves the name
    lookup as it was, and what it returns satisfies [P]. *)
Definition returns_keeping {World A} (c : M (Process World) net_event A)
  (P : A -> Prop) : Prop :=
  forall p, exists a p',
    c p = (Returns a, p', []) /\ company_lookup p' = company_lookup p /\ P a.

(** What a name lookup leaves in the trace: a GET with timeout 5 for the
    name of some key, or a pause of 100 milliseconds. *)
Definition lookup_event (ev : net_event) : Prop :=
  match ev with
  | HttpGet url timeout => timeout = 5 /\ exists key, url = lookup_url key
  | Sleep milliseconds => milliseconds = 100
  end.

(** How row [i] is paired with the tokens at position [i]. *)
Definition paired_with (money_amounts stock_symbols : list pystr) (i : nat)
  (r : TradeRecord) : Prop :=
  stock_symbols !! i = Some (ticker r)
  /\ exists amount,
       money_amounts !! i = Some amount
       /\ trade_size r
          = (if contains_char 75 amount then amount else default_trade_size)
       /\ price r = (if contains_char 36 amount then amount else lit "$150.00").

(** The entry of a status dict under a key. *)
Definition status_entry (key : string) (status : list (pystr * pyval))
  : option pyval :=
  assoc (lit key) status.

(** A selection lets a value through: the key is absent, the selection is
    "All", or it is that value. *)
Definition chosen (choice : option pystr) (value : pystr) : bool :=
  match choice with
  | Some v => bool_decide (v = lit "All") || bool_decide (value = v)
  | None => true
  end.

(** The selected trade sizes let a value through: the key is absent, the
    list is empty, or the value is in the list. *)
Definition size_chosen (sizes : option (list pystr)) (value : pystr) : bool :=
  match sizes with
  | Some (size :: rest) => bool_decide (value ∈ size :: rest)
  | Some [] | None => true
  end.

(** A row passes the four selections. *)
Definition selected (filters : Filters) (r : TradeRecord) : bool :=
  chosen (f_politician filters) (politician_name r)
  && chosen (f_party filters) (party r)
  && chosen (f_chamber filters) (chamber r)
  && chosen (f_transaction filters) (transaction_type r).

(** A row passes the four selections and the trade sizes. *)
Definition passes (filters : Filters) (r : TradeRecord) : bool :=
  selected filters r && size_chosen (f_trade_sizes filters) (trade_size r).

(** The number of HTTP requests in a trace of the manager. *)
Definition is_request (ev : mgr_event net_event) : bool :=
  match ev with
  | Inner (HttpGet _ _) => true
  | _ => false
  end.

Definition requests (tr : list (mgr_event net_event)) : nat :=
  length (List.filter is_request tr).

(** ** Scenarios: a scripted world *)

(** A world that plays back a script: the replies to the GETs in order (a
    connection error once they run out), the clock readings in order (the
    last one is repeated), and the random numbers in order (zero once they
    run out).  The Unicode tables and the HTML and JSON routines are trivial:
    the scripted pages are ASCII and carry no script elements. *)
Record Script : Type := {
  replies : list (outcome Response);
  clock_readings : list Z;
  randoms : list nat;
}.

Definition scripted_get (url : pystr) (timeout : Z) (w : Script)
  : outcome Response * Script :=
  match replies w with
  | [] => (Raises (Exception "ConnectionError"), w)
  | r :: rest =>
      (r, {| replies := rest; clock_readings := clock_readings w;
             randoms := randoms w |})
  end.

Definition scripted_clock (w : Script) : Z * Script :=
  match clock_readings w with
  | [] => (0, w)
  | [t] => (t, w)
  | t :: rest =>
      (t, {| replies := replies w; clock_readings := rest;
             randoms := randoms w |})
  end.

Definition scripted_random (w : Script) : nat * Script :=
  match randoms w with
  | [] => (O, w)
  | r :: rest =>
      (r, {| replies := replies w; clock_readings := clock_readings w;
             randoms := rest |})
  end.

#[local] Instance scripted : Runtime Script :=
  {| http_get := scripted_get;
     wall_clock := scripted_clock;
     random_source := scripted_random;
     unicode_isalnum := fun _ => false;
     unicode_isdecimal := fun _ => false;
     unicode_upper := fun c => [c];
     unicode_lower := fun c => [c];
     re_findall_dotall := fun _ _ => [];
     json_loads := fun _ => JSONDecodeError;
     py_str := fun _ => [] |}.

(** 2025-01-01 12:00:00 *)
Definition noon : Z := (739252 - 1) * Datetime.usec_per_day + 12 * 3600 * 1000000.

Definition page (body : string) : outcome Response :=
  Returns {| status_code := 200; json := Raises (Exception "JSONDecodeError");
             text := lit body; soup_scripts := Returns [] |}.

Definition page_five : string :=
  "$1,000 $2,500.00 $300 15K-50K $75 AAPL MSFT GOOG AMZN TSLA".
Definition page_six : string :=
  "$1,000 $2,500.00 $300 15K-50K $75 $9 AAPL MSFT GOOG AMZN TSLA NVDA".

Definition apple : outcome Response :=
  Returns {| status_code := 200;
             json := Returns (PDict [(lit "results",
                        PList [PDict [(lit "symbol", PStr (lit "AAPL"));
                                      (lit "name", PStr (lit "Apple Inc."))]])]);
             text := []; soup_scripts := Returns [] |}.

Definition process (w : Script) : Process Script :=
  {| world := w; company_lookup := CompanyNameLookup_init |}.

(** No network. *)
Definition offline : Process Script :=
  process {| replies := []; clock_readings := [noon]; randoms := [] |}.

(** The listing page answers the probe and the fetch with six tokens of each
    kind, the ticker service knows the first symbol and then goes away; the
    first row draws 1 day back for the trade, 15 days back for the
    disclosure, and a delay of 5. *)
Definition online : Process Script :=
  process {| replies := [page page_six; page page_six; apple];
             clock_readings := [noon];
             randoms := [0; 0; 14; 4; 1]%nat |}.

Definition five_tokens : Process Script :=
  process {| replies := [page page_five; page page_five];
             clock_readings := [noon]; randoms := [] |}.

(** The first call of the dashboard, and the manager and the process it
    leaves behind. *)
Definition first_call :=
  get_congressional_data false data_manager online.

Definition warm_manager : DataManager (Process Script) net_event :=
  match first_call with
  | (Returns (_, _, self), _, _) => self
  | (Raises _, _, _) => data_manager
  end.

Definition warm_process : Process Script := snd (fst first_call).

(** A process whose ticker service answers once, for AAPL. *)
Definition ticker_service_up : Process Script :=
  process {| replies := [apple]; clock_readings := [noon]; randoms := [] |}.

(** A row like those the HTML fetcher synthesizes. *)
Definition sample_row : TradeRecord :=
  {| politician_name := lit "Nancy Pelosi"; party := lit "Democrat";
     chamber := lit "House"; state := lit "CA"; district := lit "Multiple";
     company := PStr (lit "Apple Inc."); ticker := lit "AAPL";
     sector := lit "Technology"; trade_date := lit "2024-12-31";
     disclosure_date := lit "2024-12-17"; reporting_delay := 5;
     transaction_type := lit "Sell"; trade_size := default_trade_size;
     price := lit "$1,000"; owner := lit "Self" |}.

(** The manager of the process half an hour and a minute after a fetch
    that gave [sample_row]. *)
Definition stale_manager : DataManager (Process Script) net_event :=
  refreshed data_manager (noon - Datetime.timedelta_minutes 31) [sample_row].

(** The manager of the process half an hour to the microsecond after a
    fetch that gave [sample_row]. *)
Definition expiring_manager : DataManager (Process Script) net_event :=
  refreshed data_manager (noon - Datetime.timedelta_minutes 30) [sample_row].

(** The reply [apple], taken apart. *)
Definition apple_results : list pyval :=
  [PDict [(lit "symbol", PStr (lit "AAPL"));
          (lit "name", PStr (lit "Apple Inc."))]].

Definition apple_response : Response :=
  {| status_code := 200;
     json := Returns (PDict [(lit "results", PList apple_results)]);
     text := []; soup_scripts := Returns [] |}.

(** A listing page with six tokens of each kind in its text and, in its
    second script element, an assignment of a JSON object to
    [window.__NEXT_DATA__]; and a world in which the pattern matcher finds
    that object, the decoder decodes it and [str] prints it. *)
Definition embedded_json : pystr :=
  lit "{" ++ [34%N] ++ lit "trades" ++ [34%N] ++ lit ": []}".

Definition embedded_script : pystr :=
  lit "window.__NEXT_DATA__ = " ++ embedded_json ++ lit ";".

Definition embedded_value : pyval := PDict [(lit "trades", PList [])].

Definition embedded_response : Response :=
  {| status_code := 200; json := Raises (Exception "JSONDecodeError");
     text := lit page_six;
     soup_scripts := Returns [None; Some embedded_script] |}.

Definition embedded_page : Process Script :=
  process {| replies := [Returns embedded_response];
             clock_readings := [noon]; randoms := [] |}.

Definition embedded_runtime : Runtime Script :=
  {| http_get := scripted_get;
     wall_clock := scripted_clock;
     random_source := scripted_random;
     unicode_isalnum := fun _ => false;
     unicode_isdecimal := fun _ => false;
     unicode_upper := fun c => [c];
     unicode_lower := fun c => [c];
     re_findall_dotall := fun pattern s =>
       if bool_decide (pattern = lit "window\.__NEXT_DATA__\s*=\s*({.*?});"
                       /\ s = embedded_script)
       then [embedded_json] else [];
     json_loads := fun m =>
       if bool_decide (m = embedded_json) then JsonValue embedded_value
       else JSONDecodeError;
     py_str := fun v =>
       match v with
       | PDict [(k, PList [])] => lit "{'" ++ k ++ lit "': []}"
       | _ => []
       end |}.

(** A frame of two rows, and what the sidebar gives: the selection of one
    politician with every trade size deselected, and the same with a date
    range.  One date conversion accepts every row, the other fails. *)
Definition crenshaw_row : TradeRecord :=
  {| politician_name := lit "Dan Crenshaw"; party := lit "Republican";
     chamber := lit "House"; state := lit "TX"; district := lit "Multiple";
     company := PStr (lit "Company for MSFT"); ticker := lit "MSFT";
     sector := lit "Technology"; trade_date := lit "2024-12-20";
     disclosure_date := lit "2024-12-30"; reporting_delay := 12;
     transaction_type := lit "Buy"; trade_size := lit "15K-50K";
     price := lit "$150.00"; owner := lit "Self" |}.

Definition two_rows : DataFrame := [crenshaw_row; sample_row].

Definition pelosi_only : Filters :=
  {| f_politician := Some (lit "Nancy Pelosi"); f_party := Some (lit "All");
     f_chamber := Some (lit "All"); f_transaction := Some (lit "All");
     f_start_date := None; f_end_date := None; f_trade_sizes := Some [] |}.

Definition pelosi_in_december : Filters :=
  {| f_politician := Some (lit "Nancy Pelosi"); f_party := Some (lit "All");
     f_chamber := Some (lit "All"); f_transaction := Some (lit "All");
     f_start_date := Some 739221; f_end_date := Some 739251;
     f_trade_sizes := Some [default_trade_size] |}.

Definition every_date (column : list pystr) (start_date end_date : Z)
  : outcome (list bool) :=
  Returns (map (fun _ => true) column).

Definition no_date (column : list pystr) (start_date end_date : Z)
  : outcome (list bool) :=
  Raises (Exception "ValueError").

(** * Proofs *)

(** ** The monad *)

Section MonadFacts.
Context {S E : Type}.

Lemma bind_ret_l {A B} (a : A) (k : A -> M S E B) s : bind (ret a) k s = k a s.
Proof. unfold bind, ret. now destruct (k a s) as [[r s'] t]. Qed.

Lemma bind_raise {A B} e (k : A -> M S E B) s :
  bind (raise e) k s = (Raises e, s, []).
Proof. reflexivity. Qed.

Lemma bind_returns {A B} (c : M S E A) (k : A -> M S E B) s a s1 t1 :
  c s = (Returns a, s1, t1) ->
  bind c k s = (let '(r, s2, t2) := k a s1 in (r, s2, t1 ++ t2)).
Proof. unfold bind. now intros ->. Qed.

Lemma bind_raises {A B} (c : M S E A) (k : A -> M S E B) s e s1 t1 :
  c s = (Raises e, s1, t1) -> bind c k s = (Raises e, s1, t1).
Proof. unfold bind. now intros ->. Qed.

Lemma try_except_returns {A} (c : M S E A) h s a s1 t1 :
  c s = (Returns a, s1, t1) -> try_except c h s = (Returns a, s1, t1).
Proof. unfold try_except. now intros ->. Qed.

Lemma try_except_raises {A} (c : M S E A) h s e s1 t1 :
  c s = (Raises e, s1, t1) ->
  try_except c h s = (let '(r, s2, t2) := h e s1 in (r, s2, t1 ++ t2)).
Proof. unfold try_except. now intros ->. Qed.
End MonadFacts.

Section Triples.
Context {S E : Type}.

Lemma returns_ret {A} (a : A) (P : A -> Prop) : P a -> returns_with (ret (S:=S) (E:=E) a) P.
Proof. intros H s. exists a, s, []. now split. Qed.

Lemma returns_bind {A B} (c : M S E A) (k : A -> M S E B) P Q :
  returns_with c P -> (forall a, P a -> returns_with (k a) Q) ->
  returns_with (bind c k) Q.
Proof.
  intros Hc Hk s. destruct (Hc s) as (a & s1 & t1 & Hrun & Ha).
  destruct (Hk a Ha s1) as (b & s2 & t2 & Hrun2 & Hb).
  exists b, s2, (t1 ++ t2). unfold bind. rewrite Hrun, Hrun2. now split.
Qed.

Lemma returns_weaken {A} (c : M S E A) (P Q : A -> Prop) :
  returns_with c P -> (forall a, P a -> Q a) -> returns_with c Q.
Proof.
  intros Hc HPQ s. destruct (Hc s) as (a & s1 & t1 & Hrun & Ha). eauto 6.
Qed.

Lemma returns_prim {A} (f : S -> A * S) (P : A -> Prop) :
  (forall s, P (fst (f s))) -> returns_with (prim (E:=E) f) P.
Proof.
  intros H s. unfold prim. specialize (H s). destruct (f s) as [a s1].
  exists a, s1, []. now split.
Qed.

Lemma returns_for_each {A B} (body : A -> M S E B) (P : B -> Prop) xs :
  (forall x, In x xs -> returns_with (body x) P) ->
  returns_with (for_each body xs) (fun ys => Forall P ys /\ length ys = length xs).
Proof.
  induction xs as [|x xs IH]; intros Hbody.
  - apply returns_ret. split; [constructor | reflexivity].
  - cbn [for_each]. eapply returns_bind; [apply Hbody; now left|].
    intros y Hy. eapply returns_bind.
    + apply IH. intros x' Hx'. apply Hbody. now right.
    + intros ys [Hys Hlen]. apply returns_ret. split; [now constructor|].
      cbn. now rewrite Hlen.
Qed.

Lemma ensures_returns {A} (c : M S E A) P : returns_with c P -> ensures c P.
Proof.
  intros Hc s a s' tr Hrun. destruct (Hc s) as (a' & s1 & t1 & Hrun' & Ha).
  rewrite Hrun in Hrun'. now injection Hrun' as -> _ _.
Qed.

Lemma ensures_bind {A B} (c : M S E A) (k : A -> M S E B) Q :
  (forall a, ensures (k a) Q) -> ensures (bind c k) Q.
Proof.
  intros Hk s b s' tr. unfold bind.
  destruct (c s) as [[[a|e] s1] t1]; [|discriminate].
  destruct (k a s1) as [[r s2] t2] eqn:Hrun. intros [= -> <- <-].
  eapply Hk. exact Hrun.
Qed.

Lemma returns_try_except {A} (c : M S E A) h (Q : A -> Prop) :
  ensures c Q -> (forall e, returns_with (h e) Q) ->
  returns_with (try_except c h) Q.
Proof.
  intros Hc Hh s. unfold try_except.
  destruct (c s) as [[[a|e] s1] t1] eqn:Hrun.
  - exists a, s1, t1. split; [reflexivity|]. eapply Hc. exact Hrun.
  - destruct (Hh e s1) as (a & s2 & t2 & -> & Ha). exists a, s2, (t1 ++ t2). now split.
Qed.
End Triples.

(** ** The coordinator *)

Section ManagerProofs.
Context {S E : Type}.
Variable clock : S -> Z * S.

Implicit Types (s : S) (fs : list (DataFetcherBase S E)) (tr : list (mgr_event E)).

Lemma examined_app tr1 tr2 : examined (tr1 ++ tr2) = examined tr1 ++ examined tr2.
Proof. unfold examined. apply flat_map_app. Qed.

Lemma examined_inner (t : list E) : examined (map Inner t) = [].
Proof. induction t as [|e t IH]; [reflexivity | exact IH]. Qed.

Lemma inner_no_success (t : list E) :
  Forall (fun ev : mgr_event E => successful_fetch ev = false) (map Inner t).
Proof. induction t as [|e t IH]; constructor; [reflexivity | exact IH]. Qed.

Lemma inner_at_position i (t : list E) : Forall (at_position i) (map Inner t).
Proof. induction t as [|e t IH]; constructor; [exact I | exact IH]. Qed.

Lemma try_fetcher_attempt i f s :
  exists r s' tr, try_fetcher i f s = (Returns r, s', tr) /\ attempt i f s s' tr r.
Proof.
  unfold try_fetcher, try_except, bind, logged, ret.
  destruct (is_available f s) as [[ra s1] t1] eqn:Ha.
  destruct ra as [[|]|e]; cbn.
  - destruct (fetch_data f s1) as [[rd s2] t2] eqn:Hd.
    destruct rd as [[|row d]|e]; cbn.
    + eexists _, _, _. split; [reflexivity|].
      rewrite !app_nil_r.
      eapply attempt_no_rows; eauto; congruence.
    + eexists _, _, _. split; [reflexivity|].
      rewrite !app_nil_r.
      eapply attempt_rows; eauto; congruence.
    + eexists _, _, _. split; [reflexivity|].
      rewrite !app_nil_r.
      eapply attempt_no_rows; eauto; congruence.
  - eexists _, _, _. split; [reflexivity|].
    rewrite !app_nil_r. eapply attempt_unavailable; eauto; congruence.
  - eexists _, _, _. split; [reflexivity|].
    rewrite !app_nil_r. eapply attempt_unavailable; eauto; congruence.
Qed.

Lemma attempt_examined i f s s' tr r : attempt i f s s' tr r -> examined tr = [i].
Proof.
  destruct 1; rewrite ?examined_app, ?examined_inner; reflexivity.
Qed.

Lemma attempt_at_position i f s s' tr r :
  attempt i f s s' tr r -> Forall (at_position i) tr.
Proof.
  destruct 1; repeat (apply Forall_app; split);
    auto using inner_at_position; repeat constructor.
Qed.

Lemma in_inner_call (t : list E) ev :
  In ev (map Inner t) -> exists e, ev = Inner e.
Proof. intros Hin. apply in_map_iff in Hin as (e & <- & _). eauto. Qed.

Lemma attempt_skip i f s s' tr r ra :
  attempt i f s s' tr r -> In (IsAvailable i ra) tr -> ra <> Returns true ->
  forall rd, ~ In (FetchData i rd) tr.
Proof.
  destruct 1; intros Hin Hne rd Hfd; rewrite ?in_app_iff in *; cbn in *.
  - destruct Hfd as [Hfd|[Hfd|[]]]; [|discriminate].
    apply in_inner_call in Hfd as [e ?]; discriminate.
  - destruct Hin as [[Hin|[Hin|[]]]|[Hin|[Hin|[]]]]; try discriminate.
    + apply in_inner_call in Hin as [e ?]; discriminate.
    + congruence.
    + apply in_inner_call in Hin as [e ?]; discriminate.
  - destruct Hin as [[Hin|[Hin|[]]]|[Hin|[Hin|[]]]]; try discriminate.
    + apply in_inner_call in Hin as [e ?]; discriminate.
    + congruence.
    + apply in_inner_call in Hin as [e ?]; discriminate.
Qed.

Lemma attempt_result i f s s' tr r :
  attempt i f s s' tr r ->
  match r with
  | Some (d, l) =>
      d <> [] /\ l = name f /\
      exists before, tr = before ++ [FetchData i (Returns d)] /\ no_success before
  | None => no_success tr
  end.
Proof.
  unfold no_success. destruct 1.
  - apply Forall_app; split; [apply inner_no_success|]. repeat constructor.
  - repeat (apply Forall_app; split); try apply inner_no_success;
      repeat constructor.
    destruct r as [d|e]; [|reflexivity]. now rewrite (H1 d eq_refl).
  - split; [assumption|]. split; [reflexivity|].
    exists ((map Inner t1 ++ [IsAvailable i (Returns true)]) ++ map Inner t2).
    split; [now rewrite <- !app_assoc|].
    repeat (apply Forall_app; split); try apply inner_no_success;
      repeat constructor.
Qed.

Lemma at_from_position i tr : Forall (at_position i) tr -> Forall (from_position i) tr.
Proof.
  intros H. eapply Forall_impl; [exact H|]. intros [| j r | j r | e]; cbn; lia.
Qed.

Lemma from_position_weaken i tr :
  Forall (from_position (Datatypes.S i)) tr -> Forall (from_position i) tr.
Proof.
  intros H. eapply Forall_impl; [exact H|]. intros [| j r | j r | e]; cbn; lia.
Qed.

Lemma fetch_loop_facts fs : forall i s,
  exists r s' tr, fetch_loop i fs s = (Returns r, s', tr) /\ loop_facts i fs tr r.
Proof.
  induction fs as [|f rest IH]; intros i s.
  - exists None, s, []. split; [reflexivity|].
    repeat split; try constructor.
    + exists O. split; [cbn; lia | reflexivity].
    + intros j ra [].
  - cbn [fetch_loop]. unfold bind.
    destruct (try_fetcher_attempt i f s) as (r0 & s1 & t1 & -> & Hat).
    pose proof (attempt_examined _ _ _ _ _ _ Hat) as Hex.
    pose proof (attempt_at_position _ _ _ _ _ _ Hat) as Hpos.
    pose proof (attempt_result _ _ _ _ _ _ Hat) as Hres.
    destruct r0 as [[d l]|].
    + exists (Some (d, l)), s1, (t1 ++ []). split; [reflexivity|].
      rewrite app_nil_r. destruct Hres as (Hd & -> & before & -> & Hbefore).
      repeat split.
      * exists 1%nat. split; [cbn; lia | exact Hex].
      * now apply at_from_position.
      * intros j ra Hin Hne rd Hfd.
        assert (j = i) as ->.
        { rewrite Forall_forall in Hpos. apply list_elem_of_In in Hin.
          exact (Hpos _ Hin). }
        exact (attempt_skip _ _ _ _ _ _ _ Hat Hin Hne rd Hfd).
      * assumption.
      * exists O, f, before. rewrite Nat.add_0_r. auto.
    + destruct (IH (Datatypes.S i) s1) as (r & s2 & t2 & -> & Hk & Hfrom & Hskip & Hr).
      exists r, s2, (t1 ++ t2). split; [reflexivity|].
      repeat split.
      * destruct Hk as (k & Hk & Hex2). exists (Datatypes.S k).
        split; [cbn; lia|]. rewrite examined_app, Hex, Hex2. reflexivity.
      * apply Forall_app; split;
          [now apply at_from_position | now apply from_position_weaken].
      * intros j ra Hin Hne rd Hfd.
        rewrite Forall_forall in Hpos, Hfrom.
        apply in_app_iff in Hin as [Hin|Hin]; apply in_app_iff in Hfd as [Hfd|Hfd].
        -- pose proof (Hpos _ (proj2 (list_elem_of_In _ _) Hin)) as Hj. cbn in Hj. subst j.
           exact (attempt_skip _ _ _ _ _ _ _ Hat Hin Hne rd Hfd).
        -- pose proof (Hpos _ (proj2 (list_elem_of_In _ _) Hin)) as Hj.
           pose proof (Hfrom _ (proj2 (list_elem_of_In _ _) Hfd)) as Hj'.
           cbn in Hj, Hj'. lia.
        -- pose proof (Hfrom _ (proj2 (list_elem_of_In _ _) Hin)) as Hj.
           pose proof (Hpos _ (proj2 (list_elem_of_In _ _) Hfd)) as Hj'.
           cbn in Hj, Hj'. lia.
        -- exact (Hskip j ra Hin Hne rd Hfd).
      * destruct r as [[d l]|].
        -- destruct Hr as (Hd & j & g & before & Hg & -> & -> & Hbefore).
           split; [assumption|].
           exists (Datatypes.S j), g, (t1 ++ before).
           repeat split; try assumption.
           ++ rewrite <- app_assoc. replace (i + Datatypes.S j)%nat with (Datatypes.S i + j)%nat by lia. reflexivity.
           ++ apply Forall_app; split; assumption.
        -- destruct Hr as (Hno & Hex2). split.
           ++ apply Forall_app; split; assumption.
           ++ rewrite examined_app, Hex, Hex2. reflexivity.
Qed.

Lemma fetch_fresh_data_facts (self : DataManager S E) s :
  exists r s' tr,
    loop_facts 0 (fetchers self) tr r /\
    fetch_fresh_data self s =
      (Returns (match r with
                | Some found => found
                | None => ([], lit "No source available")
                end), s', FetchFresh :: tr).
Proof.
  destruct (fetch_loop_facts (fetchers self) O s) as (r & s' & tr & Hrun & Hfacts).
  exists r, s', tr. split; [assumption|].
  unfold fetch_fresh_data, bind, emit. rewrite Hrun.
  destruct r as [found|]; cbn; now rewrite app_nil_r.
Qed.

Lemma no_success_last (before : list (mgr_event E)) i (d : DataFrame) ev :
  successful_fetch ev = true ->
  no_success before ->
  In ev (FetchFresh :: before ++ [FetchData i (Returns d)]) ->
  ev = FetchData i (Returns d).
Proof.
  intros Hev Hbefore [<-|Hin]; [discriminate|].
  apply in_app_iff in Hin as [Hin|[<-|[]]]; [|reflexivity].
  unfold no_success in Hbefore. rewrite Forall_forall in Hbefore.
  apply list_elem_of_In in Hin. rewrite (Hbefore _ Hin) in Hev. discriminate.
Qed.

(** The events of one pass through the loop are calls of the fetcher: what
    [is_available] gave back, and, when that was true, what [fetch_data]
    gave back in the state [is_available] left. *)
Lemma attempt_calls i f s s' tr r :
  attempt i f s s' tr r ->
  (forall j ra, In (IsAvailable j ra) tr ->
     j = i /\
     exists s0 s1 t,
       is_available f s0 = (ra, s1, t)
       /\ (ra = Returns true ->
           exists rd s2 t2,
             fetch_data f s1 = (rd, s2, t2) /\ In (FetchData i rd) tr))
  /\ (forall j rd, In (FetchData j rd) tr ->
        j = i /\ In (IsAvailable i (Returns true)) tr /\
        exists s0 s1 t1 s2 t2,
          is_available f s0 = (Returns true, s1, t1)
          /\ fetch_data f s1 = (rd, s2, t2))
  /\ (forall d l, r = Some (d, l) -> d <> [] /\ In (FetchData i (Returns d)) tr).
Proof.
  destruct 1 as [s r s1 t1 Ha Hne | s s1 t1 r s2 t2 Ha Hd Hr | s s1 t1 d s2 t2 Ha Hd Hr].
  - split; [|split].
    + intros j ra Hin. apply in_app_iff in Hin as [Hin|[Hin|[]]].
      { apply in_inner_call in Hin as [e ?]; discriminate. }
      injection Hin as <- <-. split; [reflexivity|].
      exists s, s1, t1. split; [exact Ha|]. intros ->. congruence.
    + intros j rd Hin. apply in_app_iff in Hin as [Hin|[Hin|[]]]; [|discriminate].
      apply in_inner_call in Hin as [e ?]; discriminate.
    + discriminate.
  - assert (Hfd : In (FetchData i r)
                    ((map Inner t1 ++ [IsAvailable i (Returns true)])
                       ++ map Inner t2 ++ [FetchData i r])).
    { rewrite !in_app_iff. right. right. now left. }
    assert (Hav : In (IsAvailable i (Returns true))
                    ((map Inner t1 ++ [IsAvailable i (Returns true)])
                       ++ map Inner t2 ++ [FetchData (E:=E) i r])).
    { rewrite !in_app_iff. left. right. now left. }
    split; [|split].
    + intros j ra Hin. rewrite !in_app_iff in Hin.
      destruct Hin as [[Hin|[Hin|[]]]|[Hin|[Hin|[]]]]; try discriminate;
        try (apply in_inner_call in Hin as [e ?]; discriminate).
      injection Hin as <- <-. split; [reflexivity|].
      exists s, s1, t1. split; [exact Ha|]. intros _. exists r, s2, t2. auto.
    + intros j rd Hin. rewrite !in_app_iff in Hin.
      destruct Hin as [[Hin|[Hin|[]]]|[Hin|[Hin|[]]]]; try discriminate;
        try (apply in_inner_call in Hin as [e ?]; discriminate).
      injection Hin as <- <-. split; [reflexivity|]. split; [exact Hav|].
      exists s, s1, t1, s2, t2. auto.
    + discriminate.
  - assert (Hfd : In (FetchData i (Returns d))
                    ((map Inner t1 ++ [IsAvailable i (Returns true)])
                       ++ map Inner t2 ++ [FetchData i (Returns d)])).
    { rewrite !in_app_iff. right. right. now left. }
    assert (Hav : In (IsAvailable i (Returns true))
                    ((map Inner t1 ++ [IsAvailable i (Returns true)])
                       ++ map Inner t2 ++ [FetchData (E:=E) i (Returns d)])).
    { rewrite !in_app_iff. left. right. now left. }
    split; [|split].
    + intros j ra Hin. rewrite !in_app_iff in Hin.
      destruct Hin as [[Hin|[Hin|[]]]|[Hin|[Hin|[]]]]; try discriminate;
        try (apply in_inner_call in Hin as [e ?]; discriminate).
      injection Hin as <- <-. split; [reflexivity|].
      exists s, s1, t1. split; [exact Ha|]. intros _.
      exists (Returns d), s2, t2. auto.
    + intros j rd Hin. rewrite !in_app_iff in Hin.
      destruct Hin as [[Hin|[Hin|[]]]|[Hin|[Hin|[]]]]; try discriminate;
        try (apply in_inner_call in Hin as [e ?]; discriminate).
      injection Hin as <- <-. split; [reflexivity|]. split; [exact Hav|].
      exists s, s1, t1, s2, t2. auto.
    + intros d' l [= <- <-]. auto.
Qed.

(** The loop leaves no fetcher out: each one is asked, unless an earlier one
    gave rows; and every event of its trace is a call of a listed fetcher. *)
Lemma fetch_loop_calls fs : forall i s r s' tr,
  fetch_loop i fs s = (Returns r, s', tr) ->
  (forall j, (j < length fs)%nat ->
     In (i + j)%nat (examined tr)
     \/ exists j' d, (j' < j)%nat /\ In (FetchData (i + j') (Returns d)) tr /\ d <> [])
  /\ (forall k ra, In (IsAvailable k ra) tr ->
        exists j f s0 s1 t,
          k = (i + j)%nat /\ fs !! j = Some f
          /\ is_available f s0 = (ra, s1, t)
          /\ (ra = Returns true ->
              exists rd s2 t2,
                fetch_data f s1 = (rd, s2, t2) /\ In (FetchData k rd) tr))
  /\ (forall k rd, In (FetchData k rd) tr ->
        exists j f s0 s1 t1 s2 t2,
          k = (i + j)%nat /\ fs !! j = Some f
          /\ is_available f s0 = (Returns true, s1, t1)
          /\ fetch_data f s1 = (rd, s2, t2)
          /\ In (IsAvailable k (Returns true)) tr).
Proof.
  induction fs as [|f rest IH]; intros i s r s' tr.
  - intros [= <- <- <-]. split; [|split].
    + cbn. intros j Hj. lia.
    + intros k ra [].
    + intros k rd [].
  - cbn [fetch_loop]. unfold bind.
    destruct (try_fetcher_attempt i f s) as (r0 & s1 & t1 & -> & Hat).
    pose proof (attempt_examined _ _ _ _ _ _ Hat) as Hex.
    destruct (attempt_calls _ _ _ _ _ _ Hat) as (Hav & Hfd & Hsome).
    destruct r0 as [[d l]|].
    + cbn. intros [= <- <- <-]. rewrite app_nil_r.
      destruct (Hsome d l eq_refl) as (Hd & Hin).
      split; [|split].
      * intros [|j] Hj.
        -- left. rewrite Hex, Nat.add_0_r. now left.
        -- right. exists O, d. rewrite Nat.add_0_r. split; [lia | auto].
      * intros k ra Hk. destruct (Hav k ra Hk) as (-> & s0 & s2 & t & Ha & Hnext).
        exists O, f, s0, s2, t. rewrite Nat.add_0_r. auto.
      * intros k rd Hk.
        destruct (Hfd k rd Hk) as (-> & Hprobe & s0 & s2 & t & s3 & t3 & Ha & Hd').
        exists O, f, s0, s2, t, s3, t3. rewrite Nat.add_0_r. auto.
    + destruct (fetch_loop (Datatypes.S i) rest s1) as [[r2 s2] t2] eqn:Hrest.
      destruct r2 as [r2|e]; [|discriminate]. intros [= <- <- <-].
      destruct (IH _ _ _ _ _ Hrest) as (IHex & IHav & IHfd).
      split; [|split].
      * intros [|j] Hj.
        -- left. rewrite examined_app, Hex, Nat.add_0_r. now left.
        -- cbn in Hj. destruct (IHex j ltac:(lia)) as [Hin|(j' & d & Hj' & Hin & Hd)].
           ++ left. rewrite examined_app, in_app_iff. right.
              now replace (i + Datatypes.S j)%nat with (Datatypes.S i + j)%nat by lia.
           ++ right. exists (Datatypes.S j'), d. split; [lia|]. split; [|exact Hd].
              rewrite in_app_iff. right.
              now replace (i + Datatypes.S j')%nat with (Datatypes.S i + j')%nat by lia.
      * intros k ra Hk. apply in_app_iff in Hk as [Hk|Hk].
        -- destruct (Hav k ra Hk) as (-> & s0 & s3 & t & Ha & Hnext).
           exists O, f, s0, s3, t. rewrite Nat.add_0_r.
           repeat split; auto. intros Hra.
           destruct (Hnext Hra) as (rd & s4 & t4 & Hd & Hin).
           exists rd, s4, t4. split; [exact Hd|]. rewrite in_app_iff. now left.
        -- destruct (IHav k ra Hk) as (j & g & s0 & s3 & t & -> & Hg & Ha & Hnext).
           exists (Datatypes.S j), g, s0, s3, t.
           split; [lia|]. split; [exact Hg|]. split; [exact Ha|]. intros Hra.
           destruct (Hnext Hra) as (rd & s4 & t4 & Hd & Hin).
           exists rd, s4, t4. split; [exact Hd|]. rewrite in_app_iff. now right.
      * intros k rd Hk. apply in_app_iff in Hk as [Hk|Hk].
        -- destruct (Hfd k rd Hk) as (-> & Hprobe & s0 & s3 & t & s4 & t4 & Ha & Hd).
           exists O, f, s0, s3, t, s4, t4. rewrite Nat.add_0_r.
           repeat split; auto. rewrite in_app_iff. now left.
        -- destruct (IHfd k rd Hk)
             as (j & g & s0 & s3 & t & s4 & t4 & -> & Hg & Ha & Hd & Hprobe).
           exists (Datatypes.S j), g, s0, s3, t, s4, t4.
           split; [lia|]. repeat split; auto. rewrite in_app_iff. now right.
Qed.

(** [fetch_fresh_data] is the loop over the fetchers of the manager, behind
    the event that marks its entry. *)
Lemma fetch_fresh_data_loop (self : DataManager S E) s :
  exists r s' tr,
    fetch_loop 0 (fetchers self) s = (Returns r, s', tr)
    /\ loop_facts 0 (fetchers self) tr r
    /\ fetch_fresh_data self s =
         (Returns (match r with
                   | Some found => found
                   | None => ([], lit "No source available")
                   end), s', FetchFresh :: tr).
Proof.
  destruct (fetch_loop_facts (fetchers self) O s) as (r & s' & tr & Hrun & Hfacts).
  exists r, s', tr. split; [exact Hrun|]. split; [exact Hfacts|].
  unfold fetch_fresh_data, bind, emit. rewrite Hrun.
  destruct r as [found|]; cbn; now rewrite app_nil_r.
Qed.

(** C1. [fetch_fresh_data] works through the fetchers of the manager in list
    order, and every event of its trace is a call it made.
    - Order: the fetchers asked are those at positions 0, 1, ..., without a
      gap.
    - No fetcher is left out: the one at each position is asked, unless one
      before it had its [fetch_data] return rows.
    - What is logged as asked is what [is_available] of the fetcher at that
      position gave back; when it gave back true, [fetch_data] of that
      fetcher is called next, in the state [is_available] left, and its
      outcome is logged.
    - Skipping: a fetcher whose [is_available] raised or returned false never
      has its [fetch_data] called; and [fetch_data] is called only on a
      fetcher whose [is_available] returned true.
    - Once a [fetch_data] call returns a frame with rows, that frame is the
      result, labelled with the name of that fetcher, and the trace ends
      there: nothing is called afterwards, and no earlier call had returned
      rows.
    - The call returns: either rows that a [fetch_data] call returned, or,
      after every fetcher was asked, the empty frame labelled "No source
      available". *)
Theorem fetch_fresh_data_priority_short_circuit (self : DataManager S E) s :
  let '(res, _, tr) := fetch_fresh_data self s in
  (exists k, (k <= length (fetchers self))%nat /\ examined tr = seq 0 k)
  /\ (forall i, (i < length (fetchers self))%nat ->
        In i (examined tr)
        \/ exists j d, (j < i)%nat /\ In (FetchData j (Returns d)) tr /\ d <> [])
  /\ (forall i r, In (IsAvailable i r) tr ->
        exists fetcher s0 s1 t,
          fetchers self !! i = Some fetcher
          /\ is_available fetcher s0 = (r, s1, t)
          /\ (r = Returns true ->
              exists rd s2 t2,
                fetch_data fetcher s1 = (rd, s2, t2) /\ In (FetchData i rd) tr))
  /\ (forall i r, In (IsAvailable i r) tr -> r <> Returns true ->
       forall d, ~ In (FetchData i d) tr)
  /\ (forall i rd, In (FetchData i rd) tr ->
        exists fetcher s0 s1 t1 s2 t2,
          fetchers self !! i = Some fetcher
          /\ is_available fetcher s0 = (Returns true, s1, t1)
          /\ fetch_data fetcher s1 = (rd, s2, t2)
          /\ In (IsAvailable i (Returns true)) tr)
  /\ (forall i d, In (FetchData i (Returns d)) tr -> d <> [] ->
       exists fetcher before,
         fetchers self !! i = Some fetcher
         /\ res = Returns (d, name fetcher)
         /\ tr = before ++ [FetchData i (Returns d)]
         /\ Forall (fun ev => successful_fetch ev = false) before)
  /\ (exists data source, res = Returns (data, source)
       /\ (data <> [] -> exists i, In (FetchData i (Returns data)) tr)
       /\ (data = [] -> source = lit "No source available"
                        /\ examined tr = seq 0 (length (fetchers self)))).
Proof.
  destruct (fetch_fresh_data_loop self s) as (r & s' & tr & Hrun & Hfacts & ->).
  destruct (fetch_loop_calls _ _ _ _ _ _ Hrun) as (Hall & Hav & Hfd).
  destruct Hfacts as (Hk & _ & Hskip & Hr).
  split; [exact Hk|]. split.
  { intros i Hi. destruct (Hall i Hi) as [Hin|(j & d & Hj & Hin & Hd)].
    - now left.
    - right. exists j, d. split; [exact Hj|]. split; [now right | exact Hd]. }
  split.
  { intros i ra [Hin|Hin]; [discriminate|].
    destruct (Hav i ra Hin) as (j & f & s0 & s1 & t & -> & Hf & Ha & Hnext).
    exists f, s0, s1, t. split; [exact Hf|]. split; [exact Ha|]. intros Hra.
    destruct (Hnext Hra) as (rd & s2 & t2 & Hd & Hin').
    exists rd, s2, t2. split; [exact Hd | now right]. }
  split.
  { intros i ra [Hin|Hin] Hne rd [Hfd'|Hfd']; try discriminate.
    exact (Hskip i ra Hin Hne rd Hfd'). }
  split.
  { intros i rd [Hin|Hin]; [discriminate|].
    destruct (Hfd i rd Hin) as (j & f & s0 & s1 & t1 & s2 & t2 & -> & Hf & Ha & Hd & Hp).
    exists f, s0, s1, t1, s2, t2. repeat split; auto. now right. }
  split.
  - intros i d Hin Hd.
    assert (Hev : successful_fetch (FetchData (E:=E) i (Returns d)) = true)
      by (destruct d; [congruence | reflexivity]).
    destruct r as [[d' l]|].
    + destruct Hr as (Hd' & j & f & before & Hf & -> & -> & Hbefore).
      pose proof (no_success_last _ _ _ _ Hev Hbefore Hin) as Heq.
      injection Heq as -> ->. cbn in Hf.
      exists f, (FetchFresh :: before). repeat split; try assumption.
      constructor; [reflexivity | exact Hbefore].
    + destruct Hr as (Hno & _). destruct Hin as [Hin|Hin]; [discriminate|].
      unfold no_success in Hno. rewrite Forall_forall in Hno.
      apply list_elem_of_In in Hin. rewrite (Hno _ Hin) in Hev. discriminate.
  - destruct r as [[d' l]|].
    + destruct Hr as (Hd' & j & f & before & Hf & -> & -> & Hbefore).
      exists d', (name f). split; [reflexivity|]. split; [|congruence].
      intros _. exists (0 + j)%nat.
      right. apply in_app_iff. right. now left.
    + destruct Hr as (_ & Hex).
      exists [], (lit "No source available"). split; [reflexivity|].
      split; [congruence|]. intros _. split; [reflexivity | exact Hex].
Qed.

(** C4. When no [fetch_data] call of a run returns rows (each source was
    unavailable, raised, or returned an empty frame), [fetch_fresh_data]
    returns, it does not raise, and what it returns is the empty frame
    labelled "No source available"; every configured source was examined. *)
Theorem fetch_fresh_data_no_source_available (self : DataManager S E) s res s' tr :
  fetch_fresh_data self s = (res, s', tr) ->
  Forall (fun ev => successful_fetch ev = false) tr ->
  res = Returns ([], lit "No source available")
  /\ examined tr = seq 0 (length (fetchers self)).
Proof.
  destruct (fetch_fresh_data_facts self s) as (r & s1 & tr1 & Hfacts & ->).
  intros [= <- <- <-] Hno.
  destruct Hfacts as (_ & _ & _ & Hr).
  destruct r as [[d l]|].
  - destruct Hr as (Hd & j & f & before & Hf & -> & -> & Hbefore).
    apply Forall_cons in Hno as [_ Hno]. apply Forall_app in Hno as [_ Hno].
    apply Forall_cons in Hno as [Hno _]. destruct d; [congruence | discriminate].
  - destruct Hr as (_ & Hex). split; [reflexivity | exact Hex].
Qed.

(** *** The cache *)

Lemma needs_refresh_run force (self : DataManager S E) s :
  exists b s0,
    needs_refresh clock force self s = (Returns b, s0, [])
    /\ (b = true <->
          force = true \/ last_fetch_time self = None \/ cached_data self = None
          \/ exists t, last_fetch_time self = Some t
                       /\ cache_duration self < fst (clock s) - t).
Proof.
  unfold needs_refresh. destruct force.
  { exists true, s. split; [reflexivity|]. tauto. }
  destruct (last_fetch_time self) as [t|].
  2:{ exists true, s. split; [reflexivity|]. tauto. }
  destruct (cached_data self) as [d|].
  2:{ exists true, s. split; [reflexivity|]. tauto. }
  unfold bind, datetime_now, prim, ret. destruct (clock s) as [now s0]. cbn.
  exists (cache_duration self <? now - t), s0. split; [reflexivity|].
  rewrite Z.ltb_lt. split.
  - intros H. right. right. right. exists t. split; [reflexivity | exact H].
  - intros [H|[H|[H|(t' & [= <-] & H)]]]; try discriminate. exact H.
Qed.

Lemma get_data_run force (self : DataManager S E) s :
  exists b s0,
    needs_refresh clock force self s = (Returns b, s0, [])
    /\ if b then
         exists r s1 tr1,
           loop_facts 0 (fetchers self) tr1 r
           /\ get_data clock force self s =
               match r with
               | Some (data, source) =>
                   (Returns (data, source, refreshed self (fst (clock s1)) data),
                    snd (clock s1), FetchFresh :: tr1)
               | None =>
                   (Returns
                      match cached_data self with
                      | Some d => (d, cached_label (last_fetch_time self), self)
                      | None => ([], lit "No source available", self)
                      end, s1, FetchFresh :: tr1)
               end
       else
         get_data clock force self s =
           (Returns (match cached_data self with Some d => d | None => [] end,
                     cached_label (last_fetch_time self), self), s0, []).
Proof.
  destruct (needs_refresh_run force self s) as (b & s0 & Hb & _).
  exists b, s0. split; [exact Hb|].
  unfold get_data, bind. rewrite Hb. destruct b; [|reflexivity].
  destruct (fetch_fresh_data_facts self s0) as (r & s1 & tr1 & Hfacts & ->).
  exists r, s1, tr1. split; [exact Hfacts|].
  destruct r as [[data source]|].
  - destruct Hfacts as (_ & _ & _ & Hd & _).
    destruct data as [|row data]; [congruence|]. cbn.
    unfold datetime_now, prim. destruct (clock s1) as [now s2]. cbn.
    now rewrite app_nil_r.
  - cbn. destruct (cached_data self); cbn; now rewrite app_nil_r.
Qed.

Lemma get_cache_status_run (self : DataManager S E) s :
  exists status s',
    get_cache_status clock self s = (Returns (status, self), s', [])
    /\ keys status =
       match last_fetch_time self with
       | None => [lit "status"]
       | Some _ =>
           [lit "last_updated"; lit "cache_age_minutes"; lit "cache_valid";
            lit "cache_remaining_minutes"; lit "total_records"]
       end.
Proof.
  unfold get_cache_status. destruct (last_fetch_time self) as [t|].
  - unfold bind, datetime_now, prim, ret. destruct (clock s) as [now s0]. cbn.
    eexists _, _. split; reflexivity.
  - eexists _, _. split; reflexivity.
Qed.

(** [get_data], case by case, with the run of the loop it made. *)
Lemma get_data_cases force (self : DataManager S E) s :
  exists b s0,
    needs_refresh clock force self s = (Returns b, s0, [])
    /\ (b = true <->
          force = true \/ last_fetch_time self = None \/ cached_data self = None
          \/ exists t, last_fetch_time self = Some t
                       /\ cache_duration self < fst (clock s) - t)
    /\ (b = false -> s0 = snd (clock s))
    /\ if b then
         exists r s1 tr1,
           fetch_loop 0 (fetchers self) s0 = (Returns r, s1, tr1)
           /\ loop_facts 0 (fetchers self) tr1 r
           /\ get_data clock force self s =
               match r with
               | Some (data, source) =>
                   (Returns (data, source, refreshed self (fst (clock s1)) data),
                    snd (clock s1), FetchFresh :: tr1)
               | None =>
                   (Returns
                      match cached_data self with
                      | Some d => (d, cached_label (last_fetch_time self), self)
                      | None => ([], lit "No source available", self)
                      end, s1, FetchFresh :: tr1)
               end
       else
         get_data clock force self s =
           (Returns (match cached_data self with Some d => d | None => [] end,
                     cached_label (last_fetch_time self), self), s0, []).
Proof.
  destruct (needs_refresh_run force self s) as (b & s0 & Hb & Hiff).
  exists b, s0. split; [exact Hb|]. split; [exact Hiff|]. split.
  { intros ->. revert Hb. unfold needs_refresh.
    destruct force; [discriminate|].
    destruct (last_fetch_time self); [|discriminate].
    destruct (cached_data self); [|discriminate].
    unfold bind, datetime_now, prim, ret. destruct (clock s) as [now s1]. cbn.
    now intros [= _ <-]. }
  unfold get_data, bind. rewrite Hb. destruct b; [|reflexivity].
  destruct (fetch_loop_facts (fetchers self) O s0) as (r & s1 & tr1 & Hrun & Hfacts).
  exists r, s1, tr1. split; [exact Hrun|]. split; [exact Hfacts|].
  unfold fetch_fresh_data, bind, emit. rewrite Hrun.
  destruct r as [[data source]|].
  - destruct Hfacts as (_ & _ & _ & Hd & _).
    destruct data as [|row data]; [congruence|]. cbn.
    unfold datetime_now, prim. destruct (clock s1) as [now s2]. cbn.
    now rewrite !app_nil_r.
  - cbn. destruct (cached_data self); cbn; now rewrite !app_nil_r.
Qed.

(** The condition of [get_data] reads the clock at most once. *)
Lemma needs_refresh_state force (self : DataManager S E) s b s0 t :
  needs_refresh clock force self s = (Returns b, s0, t) ->
  s0 = s \/ s0 = snd (clock s).
Proof.
  unfold needs_refresh. destruct force; [intros [= _ <- _]; now left|].
  destruct (last_fetch_time self); [|intros [= _ <- _]; now left].
  destruct (cached_data self); [|intros [= _ <- _]; now left].
  unfold bind, datetime_now, prim, ret. destruct (clock s) as [now s1]. cbn.
  intros [= _ <- _]. now right.
Qed.

Lemma fetch_fresh_data_of_loop (self : DataManager S E) s r s' tr :
  fetch_loop 0 (fetchers self) s = (Returns r, s', tr) ->
  fetch_fresh_data self s =
    (Returns (match r with
              | Some found => found
              | None => ([], lit "No source available")
              end), s', FetchFresh :: tr).
Proof.
  intros Hrun. unfold fetch_fresh_data, bind, emit. rewrite Hrun.
  destruct r as [found|]; cbn; now rewrite app_nil_r.
Qed.

Lemma last_fetched_app tr1 tr2 :
  last_fetched (tr1 ++ tr2) =
  match last_fetched tr2 with
  | Some d => Some d
  | None => last_fetched tr1
  end.
Proof.
  induction tr1 as [|ev tr1 IH]; cbn.
  - now destruct (last_fetched tr2).
  - rewrite IH. now destruct (last_fetched tr2).
Qed.

Lemma last_fetched_no_success tr : no_success tr -> last_fetched tr = None.
Proof.
  induction 1 as [|ev tr Hev _ IH]; [reflexivity|]. cbn. rewrite IH.
  destruct ev as [| j r | j [[|row rows]|e] | e]; try reflexivity. discriminate.
Qed.

Lemma last_fetched_rows (before : list (mgr_event E)) i d :
  d <> [] -> last_fetched (before ++ [FetchData i (Returns d)]) = Some d.
Proof.
  intros Hd. rewrite last_fetched_app. cbn. destruct d; [congruence | reflexivity].
Qed.

(** The two fields of the cache follow the past: there is a fetch time
    exactly when some [fetch_data] call of the past gave rows, and the frame
    held is the one the last such call returned. *)
Lemma reached_by_cache fs past self :
  reached_by clock fs past self ->
  consistent fs self
  /\ (last_fetch_time self = None <-> last_fetched past = None)
  /\ (forall d, cached_data self = Some d -> last_fetched past = Some d).
Proof.
  induction 1 as [| past force self s data source self' s' tr _ IH Hrun
                  | past self s status self' s' tr _ IH Hrun].
  - split; [|split].
    + repeat split. now left.
    + cbn. tauto.
    + discriminate.
  - destruct IH as (Hcons & Htime & Hframe).
    destruct (get_data_cases force self s) as (b & s0 & _ & _ & _ & Hcase).
    destruct b.
    + destruct Hcase as (r & s1 & tr1 & _ & Hfacts & Heq). rewrite Heq in Hrun.
      destruct r as [[d l]|].
      * injection Hrun as <- <- <- <- <-.
        destruct Hfacts as (_ & _ & _ & Hd & j & f & before & _ & _ & -> & _).
        assert (Hlast : last_fetched
                          (past ++ FetchFresh :: before ++ [FetchData (0 + j) (Returns d)])
                        = Some d).
        { rewrite last_fetched_app.
          change (FetchFresh :: before ++ [FetchData (0 + j) (Returns d)])
            with ((FetchFresh :: before) ++ [FetchData (E:=E) (0 + j) (Returns d)]).
          now rewrite last_fetched_rows. }
        split; [|split].
        -- destruct Hcons as (Hfs & Hdur & _). repeat split; try assumption.
           right. eauto.
        -- rewrite Hlast. cbn. split; discriminate.
        -- cbn. intros d' [= <-]. exact Hlast.
      * destruct Hfacts as (_ & _ & _ & Hno & _).
        assert (Hlast : last_fetched (past ++ FetchFresh :: tr1) = last_fetched past).
        { rewrite last_fetched_app.
          rewrite (last_fetched_no_success (FetchFresh :: tr1)); [reflexivity|].
          constructor; [reflexivity | exact Hno]. }
        assert (Hsame : self' = self /\ tr = FetchFresh :: tr1)
          by (destruct (cached_data self); now injection Hrun as <- <- <- <- <-).
        destruct Hsame as [-> ->]. rewrite Hlast. auto.
    + rewrite Hcase in Hrun. injection Hrun as <- <- <- <- <-.
      rewrite app_nil_r. auto.
  - destruct (get_cache_status_run self s) as (st & s0 & Heq & _).
    rewrite Heq in Hrun. injection Hrun as <- <- <- <-.
    rewrite app_nil_r. exact IH.
Qed.

Lemma reachable_consistent fs self : reachable clock fs self -> consistent fs self.
Proof.
  induction 1 as [| force self s data source self' s' tr _ IH Hrun
                  | self s status self' s' tr _ IH Hrun].
  - repeat split. now left.
  - destruct (get_data_run force self s) as (b & s0 & _ & Hcase).
    destruct b.
    + destruct Hcase as (r & s1 & tr1 & Hfacts & Heq). rewrite Heq in Hrun.
      destruct r as [[d l]|].
      * injection Hrun as <- <- <- <- <-.
        destruct IH as (Hfs & Hdur & _). destruct Hfacts as (_ & _ & _ & Hd & _).
        repeat split; try assumption. right. eauto.
      * destruct (cached_data self); injection Hrun as <- <- <- <- <-; exact IH.
    + rewrite Hcase in Hrun. injection Hrun as <- <- <- <- <-. exact IH.
  - destruct (get_cache_status_run self s) as (st & s0 & Heq & _).
    rewrite Heq in Hrun. injection Hrun as <- <- <- <-. exact IH.
Qed.

(** C2. Take a manager with its past: the events of the calls of [get_data]
    and [get_cache_status] that led to it from [__init__].
    - The cache follows the past: the manager holds a fetch time exactly
      when a [fetch_data] call of the past returned rows, and the frame it
      holds is the one the last such call returned.
    - [get_data] enters [fetch_fresh_data] exactly when [force_refresh] is
      set, or no [fetch_data] call of the past returned rows, or the clock
      reads more than 30 minutes past the fetch time held.
    - Otherwise nothing is called at all, and the call returns the frame
      the last successful fetch returned, labelled as cached data with its
      fetch time, and leaves the manager as it was.
    - When it enters [fetch_fresh_data], what the call does is that one
      call of [fetch_fresh_data]; if rows come back, they are the result,
      and the manager the call leaves holds them with the clock reading
      taken after [fetch_fresh_data] returned; if none come back, the
      manager is left as it was. *)
Theorem get_data_fetches_iff_stale fs past force (self : DataManager S E) s :
  reached_by clock fs past self ->
  let '(res, s', tr) := get_data clock force self s in
  ((last_fetch_time self = None <-> last_fetched past = None)
   /\ (forall d, cached_data self = Some d -> last_fetched past = Some d))
  /\ (In FetchFresh tr <->
        force = true \/ last_fetched past = None
        \/ exists t, last_fetch_time self = Some t
                     /\ Datetime.timedelta_minutes 30 < fst (clock s) - t)
  /\ (~ In FetchFresh tr ->
      tr = [] /\
      exists d t, last_fetched past = Some d
                  /\ cached_data self = Some d /\ last_fetch_time self = Some t
                  /\ res = Returns (d, cached_label (Some t), self))
  /\ (In FetchFresh tr ->
      exists s0 data source s1,
        (s0 = s \/ s0 = snd (clock s))
        /\ fetch_fresh_data self s0 = (Returns (data, source), s1, tr)
        /\ (data <> [] ->
            last_fetched tr = Some data
            /\ res = Returns (data, source, refreshed self (fst (clock s1)) data)
            /\ s' = snd (clock s1))
        /\ (data = [] ->
            last_fetched tr = None
            /\ exists d label, res = Returns (d, label, self))).
Proof.
  intros Hreach. apply reached_by_cache in Hreach as (Hcons & Htime & Hframe).
  destruct Hcons as (_ & Hdur & Hinv).
  destruct (get_data_cases force self s) as (b & s0 & Hb & Hiff & _ & Hcase).
  rewrite Hdur in Hiff.
  assert (Hiff' : b = true <->
     force = true \/ last_fetched past = None
     \/ exists t, last_fetch_time self = Some t
                  /\ Datetime.timedelta_minutes 30 < fst (clock s) - t).
  { rewrite Hiff, <- Htime. destruct Hinv as [[Hl Hc]|(t & d & Hl & Hc & _)].
    - tauto.
    - rewrite Hc. intuition discriminate. }
  destruct b.
  - destruct Hcase as (r & s1 & tr1 & Hloop & Hfacts & ->).
    pose proof (fetch_fresh_data_of_loop _ _ _ _ _ Hloop) as Hfresh.
    apply needs_refresh_state in Hb.
    destruct r as [[d l]|].
    + split; [split; assumption|].
      split; [split; [intros _; now apply Hiff' | intros _; now left]|].
      split; [intros Hn; exfalso; apply Hn; now left|].
      intros _. exists s0, d, l, s1. split; [exact Hb|]. split; [exact Hfresh|].
      destruct Hfacts as (_ & _ & _ & Hd & j & f & before & _ & _ & -> & _).
      split; [|congruence]. intros _. split; [|auto].
      change (FetchFresh :: before ++ [FetchData (0 + j) (Returns d)])
        with ((FetchFresh :: before) ++ [FetchData (E:=E) (0 + j) (Returns d)]).
      now apply last_fetched_rows.
    + split; [split; assumption|].
      split; [split; [intros _; now apply Hiff' | intros _; now left]|].
      split; [intros Hn; exfalso; apply Hn; now left|].
      intros _. exists s0, [], (lit "No source available"), s1.
      split; [exact Hb|]. split; [exact Hfresh|].
      split; [congruence|]. intros _. split.
      * apply last_fetched_no_success. destruct Hfacts as (_ & _ & _ & Hno & _).
        constructor; [reflexivity | exact Hno].
      * destruct (cached_data self); eauto.
  - rewrite Hcase. split; [split; assumption|]. split.
    + split; [intros [] | intros H; apply Hiff' in H; discriminate].
    + split; [|intros []].
      intros _. split; [reflexivity|].
      destruct Hinv as [[Hl Hc]|(t & d & Hl & Hc & _)].
      * assert (false = true) by (apply Hiff'; right; left; now apply Htime).
        discriminate.
      * exists d, t. rewrite Hc, Hl. auto.
Qed.

(** C3. When a call of [get_data] enters [fetch_fresh_data], no source gives
    rows, and the manager holds a frame from an earlier fetch, the call
    returns that frame, labelled as cached data with the time of that
    earlier fetch, and leaves the manager, with its cached frame and its
    fetch time, as it was. *)
Theorem get_data_failed_refresh_serves_cache force (self : DataManager S E)
    s res s' tr d t :
  get_data clock force self s = (res, s', tr) ->
  cached_data self = Some d ->
  last_fetch_time self = Some t ->
  In FetchFresh tr ->
  Forall (fun ev => successful_fetch ev = false) tr ->
  res = Returns (d, cached_label (Some t), self).
Proof.
  intros Hrun Hc Hl Hin Hno.
  destruct (get_data_run force self s) as (b & s0 & _ & Hcase).
  destruct b.
  - destruct Hcase as (r & s1 & tr1 & Hfacts & Heq). rewrite Heq in Hrun.
    destruct r as [[data source]|].
    + injection Hrun as <- <- <-.
      destruct Hfacts as (_ & _ & _ & Hd & j & f & before & _ & _ & -> & _).
      apply Forall_cons in Hno as [_ Hno]. apply Forall_app in Hno as [_ Hno].
      apply Forall_cons in Hno as [Hno _].
      destruct data; [congruence | discriminate].
    + rewrite Hc, Hl in Hrun. now injection Hrun as <- <- <-.
  - rewrite Hcase in Hrun. injection Hrun as <- <- <-. destruct Hin.
Qed.

(** C7, as the code has it.  [get_cache_status] never raises, calls nothing
    and leaves the manager as it was.  Before any successful fetch the dict
    it returns has the single key [status]; afterwards it has exactly the
    keys [last_updated], [cache_age_minutes], [cache_valid],
    [cache_remaining_minutes] and [total_records].  There is no [has_data]
    key in either case. *)
Theorem get_cache_status_keys (self : DataManager S E) s :
  exists status s',
    get_cache_status clock self s = (Returns (status, self), s', [])
    /\ keys status =
       match last_fetch_time self with
       | None => [lit "status"]
       | Some _ =>
           [lit "last_updated"; lit "cache_age_minutes"; lit "cache_valid";
            lit "cache_remaining_minutes"; lit "total_records"]
       end
    /\ ~ In (lit "has_data") (keys status).
Proof.
  destruct (get_cache_status_run self s) as (status & s0 & Hrun & Hkeys).
  exists status, s0. split; [exact Hrun|]. split; [exact Hkeys|].
  rewrite Hkeys. destruct (last_fetch_time self); cbn; intuition discriminate.
Qed.
End ManagerProofs.

(** ** The name lookup *)

Section LookupProofs.
Context {World : Type} {RT : Runtime World}.
Implicit Types (p : Process World) (key ticker : pystr) (v : pyval).

Ltac io_step :=
  first [ rewrite bind_ret_l | rewrite bind_raise ].

(** The exact-match loop returns a name it has just stored, or finds nothing,
    or raises; it stores nothing in the last two cases. *)
Lemma find_exact_match_cases key items p :
  (exists v, find_exact_match key items p
             = (Returns (Some v), stored key v (world p) p, []))
  \/ find_exact_match key items p = (Returns None, p, [])
  \/ exists e, find_exact_match key items p = (Raises e, p, []).
Proof.
  induction items as [|result rest IH]; [right; left; reflexivity|].
  cbn [find_exact_match].
  destruct result as [| b | z | f | s | l | kv];
    try (right; right; eexists; reflexivity).
  cbn [py_get]. io_step.
  destruct (match assoc (lit "symbol") kv with Some v => v | None => PStr [] end)
    as [| b | z | f | s | l | kv'];
    try (right; right; eexists; reflexivity).
  cbn [py_upper]. io_step.
  destruct (decide (str_upper s = key)) as [Heq|Hne]; [|exact IH].
  left. io_step. eexists. reflexivity.
Qed.

Lemma session_get_run url timeout p :
  session_get url timeout p =
    (fst (http_get url timeout (world p)),
     with_world (snd (http_get url timeout (world p))) p,
     [HttpGet url timeout]).
Proof.
  unfold session_get, bind, emit.
  now destruct (http_get url timeout (world p)) as [r w].
Qed.

Lemma stored_with_world key v w w' p :
  stored key v (world (with_world w p)) (with_world w' p) = stored key v w p.
Proof. reflexivity. Qed.

(** The [try] block issues one GET and then either returns a name it has
    stored, or stores the fallback name and falls through, or raises without
    having stored anything. *)
(** Reading the results returns a name it has just stored, or falls out, or
    raises; nothing is stored in the last two cases. *)
Lemma read_results_cases key response p :
  (exists v, read_results key response p
             = (Returns (Some v), stored key v (world p) p, []))
  \/ read_results key response p = (Returns None, p, [])
  \/ exists e, read_results key response p = (Raises e, p, []).
Proof.
  unfold read_results.
  destruct (json response) as [data|e]; cbn [of_outcome];
    [|right; right; eexists; reflexivity].
  io_step.
  destruct data as [| b | z | f | s | l | kv];
    try (right; right; eexists; reflexivity).
  cbn [py_get]. io_step.
  destruct (match assoc (lit "results") kv with
            | Some v => v | None => PList [] end)
    as [| b | z | f | s | l | kv'] eqn:Hresults; cbn [truthy];
    try (right; left; reflexivity).
  - destruct b; [|right; left; reflexivity]. right; right; eexists; reflexivity.
  - destruct (negb (z =? 0)); [|right; left; reflexivity].
    right; right; eexists; reflexivity.
  - destruct (negb (PrimFloat.eqb f PrimFloat.zero)); [|right; left; reflexivity].
    right; right; eexists; reflexivity.
  - (* a string: its characters have no [get] *)
    destruct s as [|c s]; [right; left; reflexivity|].
    right; right; eexists; reflexivity.
  - (* a list *)
    destruct l as [|first l]; [right; left; reflexivity|]. cbn [py_len]. io_step.
    cbn [length Nat.ltb Nat.leb py_iter]. io_step.
    destruct (find_exact_match_cases key (first :: l) p)
      as [(v & Hrun)|[Hrun|(e & Hrun)]].
    + left. exists v. rewrite (bind_returns _ _ _ _ _ _ Hrun). reflexivity.
    + rewrite (bind_returns _ _ _ _ _ _ Hrun). cbn [py_first app]. io_step.
      destruct first as [| b | z | f | s | l' | kv'];
        try (right; right; eexists; reflexivity).
      left. eexists. reflexivity.
    + right; right; exists e. rewrite (bind_raises _ _ _ _ _ _ Hrun). reflexivity.
  - (* an object: its keys have no [get] *)
    destruct kv' as [|[k0 v0] kv']; [right; left; reflexivity|].
    right; right; eexists; reflexivity.
Qed.

(** The [try] block issues one GET and then either returns a name it has
    stored, or stores the fallback name and falls through, or raises without
    having stored anything. *)
Lemma query_ticker_api_cases key p :
  exists w,
    (exists v, query_ticker_api key p
               = (Returns (Some v), stored key v w p, [HttpGet (lookup_url key) 5]))
    \/ query_ticker_api key p
       = (Returns None, stored key (fallback_name key) w p,
          [HttpGet (lookup_url key) 5])
    \/ exists e, query_ticker_api key p
                 = (Raises e, with_world w p, [HttpGet (lookup_url key) 5]).
Proof.
  unfold query_ticker_api. fold (lookup_url key).
  pose proof (session_get_run (lookup_url key) 5 p) as Hget.
  set (w := snd (http_get (lookup_url key) 5 (world p))) in *.
  exists w.
  destruct (fst (http_get (lookup_url key) 5 (world p))) as [response|e].
  2:{ right; right; exists e. now rewrite (bind_raises _ _ _ _ _ _ Hget). }
  rewrite (bind_returns _ _ _ _ _ _ Hget).
  destruct (status_code response =? 200); [|right; left; reflexivity].
  destruct (read_results_cases key response (with_world w p))
    as [(v & Hrun)|[Hrun|(e & Hrun)]].
  - left. exists v. rewrite (bind_returns _ _ _ _ _ _ Hrun). reflexivity.
  - right; left. rewrite (bind_returns _ _ _ _ _ _ Hrun). reflexivity.
  - right; right. exists e. rewrite (bind_raises _ _ _ _ _ _ Hrun). reflexivity.
Qed.

Lemma get_company_name_empty p :
  get_company_name None p = (Returns (PStr (lit "Unknown Company")), p, [])
  /\ get_company_name (Some []) p = (Returns (PStr (lit "Unknown Company")), p, []).
Proof. split; reflexivity. Qed.

(** A cached ticker is answered from the cache. *)
Lemma get_company_name_hit ticker p v :
  ticker <> [] ->
  cache (company_lookup p) !! normalize ticker = Some v ->
  get_company_name (Some ticker) p = (Returns v, p, []).
Proof.
  intros Hne Hhit. destruct ticker as [|c cs]; [congruence|].
  unfold get_company_name. fold (normalize (c :: cs)).
  unfold bind, cache_lookup. rewrite Hhit. reflexivity.
Qed.

Lemma lookup_stored key v w p :
  cache (company_lookup (stored key v w p)) !! key = Some v.
Proof. apply lookup_insert_eq. Qed.

(** A ticker not in the cache costs one GET, and what is returned is what
    the cache holds for it afterwards. *)
Lemma get_company_name_miss ticker p :
  ticker <> [] ->
  cache (company_lookup p) !! normalize ticker = None ->
  exists v w sleeps,
    get_company_name (Some ticker) p =
      (Returns v, stored (normalize ticker) v w p,
       HttpGet (lookup_url (normalize ticker)) 5 :: sleeps)
    /\ (sleeps = [] \/ sleeps = [Sleep 100]).
Proof.
  intros Hne Hmiss. destruct ticker as [|c cs]; [congruence|].
  unfold get_company_name. fold (normalize (c :: cs)).
  set (key := normalize (c :: cs)) in *.
  assert (Hafter : forall w,
    (time_sleep 100 ;;;
     let* entry := cache_lookup key in
     ret match entry with
         | Some company_name => company_name
         | None => fallback_name key
         end) (stored key (fallback_name key) w p)
    = (Returns (fallback_name key), stored key (fallback_name key) w p,
       [Sleep 100])).
  { intros w. unfold bind, time_sleep, emit, cache_lookup, ret.
    rewrite lookup_stored. reflexivity. }
  rewrite (bind_returns _ _ _ _ _ _
             (eq_refl : cache_lookup key p = (Returns _, p, []))).
  rewrite Hmiss.
  destruct (query_ticker_api_cases key p) as (w & [(v & Hrun)|[Hrun|(e & Hrun)]]).
  - exists v, w, []. split; [|now left].
    rewrite (bind_returns _ _ _ _ _ _ (try_except_returns _ _ _ _ _ _ Hrun)).
    reflexivity.
  - exists (fallback_name key), w, [Sleep 100]. split; [|now right].
    rewrite (bind_returns _ _ _ _ _ _ (try_except_returns _ _ _ _ _ _ Hrun)).
    rewrite Hafter. reflexivity.
  - exists (fallback_name key), w, [Sleep 100]. split; [|now right].
    assert (Hcaught :
      try_except (query_ticker_api key)
        (fun _ => cache_store key (fallback_name key) ;;; ret None) p
      = (Returns None, stored key (fallback_name key) w p,
         [HttpGet (lookup_url key) 5])).
    { rewrite (try_except_raises _ _ _ _ _ _ Hrun). reflexivity. }
    rewrite (bind_returns _ _ _ _ _ _ Hcaught).
    rewrite Hafter. reflexivity.
Qed.

Lemma lookup_url_inj key key' : lookup_url key = lookup_url key' -> key = key'.
Proof.
  unfold lookup_url. intros H.
  apply app_inv_head in H. apply app_inv_head in H. now apply app_inv_tail in H.
Qed.

Lemma lookups_of_app key tr1 tr2 :
  lookups_of key (tr1 ++ tr2) = (lookups_of key tr1 + lookups_of key tr2)%nat.
Proof. unfold lookups_of. now rewrite List.filter_app, length_app. Qed.

Lemma answer_ok_grows p p' call v :
  cache_grows p p' -> answer_ok p call v -> answer_ok p' call v.
Proof.
  intros Hgrow. destruct call as [[|c cs]|]; cbn; auto.
Qed.

(** One call: it returns; what it returns agrees with the cache; the cache
    only grows; and it issues a GET, a single one, only for a ticker the
    cache did not hold. *)
Lemma get_company_name_step call p :
  exists v p' tr,
    get_company_name call p = (Returns v, p', tr)
    /\ answer_ok p' call v
    /\ cache_grows p p'
    /\ (tr = []
        \/ exists ticker sleeps,
             call = Some ticker
             /\ cache (company_lookup p) !! normalize ticker = None
             /\ tr = HttpGet (lookup_url (normalize ticker)) 5 :: sleeps
             /\ (sleeps = [] \/ sleeps = [Sleep 100])).
Proof.
  destruct call as [[|c cs]|].
  - exists (PStr (lit "Unknown Company")), p, []. repeat split; auto. now intros k v.
  - assert (Hne : c :: cs <> []) by discriminate.
    destruct (cache (company_lookup p) !! normalize (c :: cs)) as [v|] eqn:Hc.
    + exists v, p, []. rewrite (get_company_name_hit _ _ _ Hne Hc).
      repeat split; auto. now intros k v'.
    + destruct (get_company_name_miss (c :: cs) p Hne Hc)
        as (v & w & sleeps & -> & Hsleeps).
      exists v, (stored (normalize (c :: cs)) v w p), (HttpGet (lookup_url (normalize (c :: cs))) 5 :: sleeps).
      split; [reflexivity|]. split; [apply lookup_stored|]. split.
      * intros k v' Hk. unfold stored. cbn [company_lookup cache].
        rewrite lookup_insert_ne; [exact Hk|].
        intros Heq. rewrite Heq in Hc. congruence.
      * right. exists (c :: cs), sleeps. auto.
  - exists (PStr (lit "Unknown Company")), p, []. repeat split; auto. now intros k v.
Qed.

Lemma lookups_of_sleeps key sleeps :
  sleeps = [] \/ sleeps = [Sleep 100] -> lookups_of key sleeps = O.
Proof. now intros [->| ->]. Qed.

(** Any sequence of calls. *)
Lemma get_company_name_sequence key calls : forall p,
  exists names p' tr,
    for_each get_company_name calls p = (Returns names, p', tr)
    /\ Forall2 (answer_ok p') calls names
    /\ cache_grows p p'
    /\ (lookups_of key tr <= 1)%nat
    /\ (cache (company_lookup p) !! key <> None -> lookups_of key tr = O)
    /\ (forall url timeout, In (HttpGet url timeout) tr ->
         exists ticker, In (Some ticker) calls
                        /\ url = lookup_url (normalize ticker)).
Proof.
  induction calls as [|call rest IH]; intros p.
  - exists [], p, []. repeat split; auto; try constructor.
    + now intros k v.
    + intros url timeout [].
  - destruct (get_company_name_step call p) as (v & p1 & t1 & Hrun & Hok & Hgrow & Htr).
    destruct (IH p1) as (names & p2 & t2 & Hrest & Hoks & Hgrow2 & Hle & Hzero & Hurls).
    exists (v :: names), p2, (t1 ++ t2).
    split.
    { cbn [for_each]. rewrite (bind_returns _ _ _ _ _ _ Hrun).
      rewrite (bind_returns _ _ _ _ _ _ Hrest). cbn. now rewrite app_nil_r. }
    split; [constructor; [eapply answer_ok_grows; eauto | exact Hoks]|].
    split; [intros k v' Hk; auto|].
    rewrite lookups_of_app.
    destruct Htr as [->|(ticker & sleeps & -> & Hmiss & -> & Hsleeps)].
    + cbn. split; [exact Hle|]. split.
      * intros Hkey. apply Hzero. destruct (cache (company_lookup p) !! key) as [v'|] eqn:Hv; [|congruence].
        rewrite (Hgrow _ _ Hv). discriminate.
      * intros url timeout Hin. destruct (Hurls url timeout Hin) as (t & Ht & ->).
        exists t. split; [now right | reflexivity].
    + assert (Hcount : lookups_of key (HttpGet (lookup_url (normalize ticker)) 5 :: sleeps)
                       = if bool_decide (lookup_url (normalize ticker) = lookup_url key)
                         then 1%nat else O).
      { change (HttpGet (lookup_url (normalize ticker)) 5 :: sleeps)
          with ([HttpGet (lookup_url (normalize ticker)) 5] ++ sleeps).
        rewrite lookups_of_app, (lookups_of_sleeps _ _ Hsleeps).
        unfold lookups_of. cbn [List.filter is_lookup_of].
        now destruct (bool_decide (lookup_url (normalize ticker) = lookup_url key)). }
      rewrite Hcount.
      destruct (bool_decide (lookup_url (normalize ticker) = lookup_url key)) eqn:Hd.
      * apply bool_decide_eq_true in Hd. apply lookup_url_inj in Hd.
        assert (Hheld : cache (company_lookup p1) !! key <> None).
        { destruct ticker as [|c cs].
          - (* the empty ticker makes no request *)
            pose proof (eq_trans (eq_sym (proj2 (get_company_name_empty p))) Hrun) as Hbad. discriminate.
          - unfold answer_ok in Hok. rewrite <- Hd, Hok. discriminate. }
        rewrite (Hzero Hheld). split; [lia|]. split.
        -- intros Hkey. rewrite <- Hd, Hmiss in Hkey. congruence.
        -- intros url timeout [Heq|Hin].
           ++ injection Heq as <- <-. exists ticker. split; [now left | reflexivity].
           ++ apply in_app_iff in Hin as [Hin|Hin].
              ** destruct Hsleeps as [-> | ->]; [destruct Hin | destruct Hin as [|[]]; discriminate].
              ** destruct (Hurls url timeout Hin) as (t & Ht & ->).
                 exists t. split; [now right | reflexivity].
      * split; [exact Hle|]. split.
        -- intros Hkey. cbn. apply Hzero.
           destruct (cache (company_lookup p) !! key) as [v'|] eqn:Hv; [|congruence].
           rewrite (Hgrow _ _ Hv). discriminate.
        -- intros url timeout [Heq|Hin].
           ++ injection Heq as <- <-. exists ticker. split; [now left | reflexivity].
           ++ apply in_app_iff in Hin as [Hin|Hin].
              ** destruct Hsleeps as [-> | ->]; [destruct Hin | destruct Hin as [|[]]; discriminate].
              ** destruct (Hurls url timeout Hin) as (t & Ht & ->).
                 exists t. split; [now right | reflexivity].
Qed.
(** C8. Take any sequence of calls of [get_company_name], from any state of
    the process, and any ticker.  The sequence returns.  At most one GET
    goes out for that ticker, and when every call of the sequence is for
    that ticker, at most one GET goes out at all.  All the calls for that
    ticker return the same name, and for a non-empty ticker it is the name
    the cache holds for it at the end, whether it came from an exact match,
    from the first candidate, or is the placeholder.  Every GET of the
    sequence is the lookup of one of the tickers asked for. *)
Theorem get_company_name_memoized ticker calls p :
  exists names p' tr,
    for_each get_company_name calls p = (Returns names, p', tr)
    /\ length names = length calls
    /\ (lookups_of (normalize ticker) tr <= 1)%nat
    /\ ((forall call, In call calls -> call = Some ticker) ->
        (length (List.filter is_get tr) <= 1)%nat)
    /\ (forall i j vi vj,
          calls !! i = Some (Some ticker) -> calls !! j = Some (Some ticker) ->
          names !! i = Some vi -> names !! j = Some vj ->
          vi = vj
          /\ (ticker <> [] ->
              cache (company_lookup p') !! normalize ticker = Some vi))
    /\ (forall url timeout, In (HttpGet url timeout) tr ->
          exists t, In (Some t) calls /\ url = lookup_url (normalize t)).
Proof.
  destruct (get_company_name_sequence (normalize ticker) calls p)
    as (names & p' & tr & Hrun & Hoks & _ & Hle & _ & Hurls).
  exists names, p', tr. split; [exact Hrun|].
  split; [symmetry; exact (Forall2_length _ _ _ Hoks)|].
  split; [exact Hle|]. split; [|split; [|exact Hurls]].
  - intros Hall.
    assert (Hsame : List.filter is_get tr
                    = List.filter (is_lookup_of (normalize ticker)) tr).
    { apply List.filter_ext_in. intros [url timeout|ms] Hin; [|reflexivity].
      destruct (Hurls url timeout Hin) as (t & Ht & ->).
      apply Hall in Ht. injection Ht as ->.
      cbn. symmetry. now apply bool_decide_eq_true. }
    rewrite Hsame. exact Hle.
  - intros i j vi vj Hi Hj Hvi Hvj.
    pose proof (Forall2_lookup_lr _ _ _ _ _ _ Hoks Hi Hvi) as Hoki.
    pose proof (Forall2_lookup_lr _ _ _ _ _ _ Hoks Hj Hvj) as Hokj.
    destruct ticker as [|c cs]; cbn in Hoki, Hokj.
    + split; [congruence | congruence].
    + split; [congruence | intros _; exact Hoki].
Qed.

(** C9. For a missing ticker and for the empty ticker, [get_company_name]
    returns "Unknown Company"; the trace is empty, so no GET went out, and
    the process, with its name cache, is as it was. *)
Theorem get_company_name_unknown p :
  get_company_name None p = (Returns (PStr (lit "Unknown Company")), p, [])
  /\ get_company_name (Some []) p
     = (Returns (PStr (lit "Unknown Company")), p, []).
Proof. split; reflexivity. Qed.
End LookupProofs.

(** ** The sources *)

Section SourceProofs.
Context {World : Type} {RT : Runtime World}.
Abbreviation IO := (M (Process World) net_event).

Lemma returns_randbelow n : (0 < n)%nat -> returns_with (randbelow n) (fun r => (r < n)%nat).
Proof.
  intros Hn. apply returns_prim. intros p. unfold on_world.
  destruct (random_source (world p)) as [r w]. cbn.
  apply Nat.mod_upper_bound. lia.
Qed.

Lemma returns_randint a b : a <= b -> returns_with (randint a b) (fun z => a <= z <= b).
Proof.
  intros Hab. unfold randint. eapply returns_bind.
  - apply returns_randbelow. lia.
  - intros r Hr. cbn beta in Hr. apply returns_ret. lia.
Qed.

Lemma returns_random_choice {A} (seq : list A) :
  seq <> [] -> returns_with (random_choice seq) (fun x => In x seq).
Proof.
  destruct seq as [|x seq]; [congruence|]. intros _. unfold random_choice.
  eapply returns_bind; [apply returns_randbelow; cbn; lia|].
  intros i Hi. apply returns_ret. now apply nth_In.
Qed.

Lemma returns_now : returns_with now clock_reading.
Proof.
  apply returns_prim. intros p. unfold on_world, clock_reading.
  exists (world p). now destruct (wall_clock (world p)).
Qed.

Lemma returns_index {A} (seq : list A) i x :
  seq !! i = Some x -> returns_with (index (World:=World) seq i) (eq x).
Proof. intros H. unfold index. rewrite H. now apply returns_ret. Qed.

Lemma returns_get_company_name call :
  returns_with (get_company_name call) (fun _ => True).
Proof.
  intros p. destruct (get_company_name_step call p) as (v & p' & tr & Hrun & _).
  eauto 6.
Qed.

Lemma make_trade_synthesized money_amounts stock_symbols i :
  (i < length money_amounts)%nat -> (i < length stock_symbols)%nat ->
  returns_with (make_trade money_amounts stock_symbols i) synthesized.
Proof.
  intros Hm Hs.
  destruct (lookup_lt_is_Some_2 _ _ Hm) as [amount Hamount].
  destruct (lookup_lt_is_Some_2 _ _ Hs) as [symbol Hsymbol].
  unfold make_trade.
  eapply returns_bind; [apply returns_random_choice; discriminate|].
  intros politician Hpol.
  eapply returns_bind; [apply (returns_index _ _ _ Hsymbol)|]. intros ? <-.
  eapply returns_bind; [apply returns_get_company_name|]. intros company_name _.
  eapply returns_bind; [apply returns_now|]. intros now1 Hnow1.
  eapply returns_bind; [apply returns_randint; lia|]. intros days1 Hdays1.
  eapply returns_bind; [apply returns_now|]. intros now2 Hnow2.
  eapply returns_bind; [apply returns_randint; lia|]. intros days2 Hdays2.
  eapply returns_bind; [apply returns_randint; lia|]. intros delay Hdelay.
  eapply returns_bind; [apply (returns_random_choice [lit "Buy"; lit "Sell"]); discriminate|].
  intros kind Hkind.
  eapply returns_bind; [apply (returns_index _ _ _ Hamount)|]. intros ? <-.
  apply returns_ret. unfold synthesized, from_roster, dates_drawn. cbn.
  split; [exists politician; auto|].
  repeat (split; [reflexivity || assumption|]).
  split; [destruct Hkind as [<-|[<-|[]]]; auto|].
  exists now1, days1, now2, days2. auto 10.
Qed.

Lemma generate_pattern_based_trades_synthesized money_amounts stock_symbols :
  returns_with (generate_pattern_based_trades money_amounts stock_symbols)
    (fun trades =>
       Forall synthesized trades
       /\ length trades
          = Nat.min 10 (Nat.min (length money_amounts) (length stock_symbols))).
Proof.
  unfold generate_pattern_based_trades.
  eapply returns_weaken.
  - apply (returns_for_each _ synthesized). intros i Hi.
    apply in_seq in Hi. apply make_trade_synthesized; lia.
  - intros trades [Hall Hlen]. split; [exact Hall|]. now rewrite Hlen, length_seq.
Qed.

Lemma extract_content_patterns_synthesized page_text :
  returns_with (extract_content_patterns page_text)
    (fun trades => Forall synthesized trades
                   /\ length trades = pattern_rows page_text).
Proof.
  unfold extract_content_patterns, pattern_rows.
  destruct ((5 <? length (re_findall match_money page_text))%nat
            && (5 <? length (re_findall match_stock page_text))%nat) eqn:Hif.
  - eapply returns_weaken; [apply generate_pattern_based_trades_synthesized|].
    intros trades [Hall Hlen]. split; [exact Hall|]. rewrite Hlen.
    rewrite !length_take. lia.
  - apply returns_ret. split; [constructor | reflexivity].
Qed.

Lemma ensures_trivial {A} (c : IO A) : ensures c (fun _ => True).
Proof. now intros p a p' tr _. Qed.

Lemma HTML_fetch_data_synthesized :
  returns_with HTML_fetch_data (Forall synthesized).
Proof.
  unfold HTML_fetch_data. apply returns_try_except.
  2:{ intros e. apply returns_ret. constructor. }
  apply ensures_bind. intros response.
  destruct (negb (status_code response =? 200)).
  { apply ensures_returns, returns_ret. constructor. }
  apply ensures_bind. intros soup.
  apply ensures_bind. intros embedded.
  assert (Hpatterns : ensures
    (let* trades_data := extract_content_patterns (text response) in ret trades_data)
    (Forall synthesized)).
  { apply ensures_returns. eapply returns_bind;
      [apply extract_content_patterns_synthesized|].
    intros trades [Hall _]. now apply returns_ret. }
  destruct embedded as [data|]; [|exact Hpatterns].
  destruct (truthy data); [|exact Hpatterns].
  apply ensures_bind. intros _. apply ensures_returns, returns_ret. constructor.
Qed.

Lemma API_fetch_data_empty : returns_with API_fetch_data (eq []).
Proof.
  unfold API_fetch_data. apply returns_try_except.
  2:{ intros e. now apply returns_ret. }
  apply ensures_bind. intros response.
  destruct (status_code response =? 200).
  - apply ensures_bind. intros data. now apply ensures_returns, returns_ret.
  - now apply ensures_returns, returns_ret.
Qed.
(** C5, as the code has it.  The pattern stage always returns.  For a page
    with more than 5 money tokens and more than 5 all-caps tokens it gives
    between 6 and 10 rows (so between 1 and 10), each with a reporting delay
    from 1 to 30 and a transaction type that is Buy or Sell.  For a page
    with 5 or fewer tokens of either kind it gives no row. *)
Theorem extract_content_patterns_threshold page_text p :
  let money := length (re_findall match_money page_text) in
  let stock := length (re_findall match_stock page_text) in
  exists trades p' tr,
    extract_content_patterns page_text p = (Returns trades, p', tr)
    /\ ((5 < money)%nat /\ (5 < stock)%nat ->
        (1 <= length trades <= 10)%nat /\ (6 <= length trades)%nat
        /\ Forall (fun r =>
             1 <= reporting_delay r <= 30
             /\ (transaction_type r = lit "Buy"
                 \/ transaction_type r = lit "Sell")) trades)
    /\ ((money <= 5)%nat \/ (stock <= 5)%nat -> trades = []).
Proof.
  intros money stock.
  destruct (extract_content_patterns_synthesized page_text p)
    as (trades & p' & tr & Hrun & Hall & Hlen).
  exists trades, p', tr. split; [exact Hrun|].
  unfold pattern_rows in Hlen. fold money stock in Hlen. split.
  - intros [Hm Hs].
    destruct (Nat.ltb_spec 5 money); [|lia].
    destruct (Nat.ltb_spec 5 stock); [|lia]. cbn [andb] in Hlen.
    split; [lia|]. split; [lia|].
    eapply Forall_impl; [exact Hall|].
    intros r (_ & _ & _ & _ & Hdelay & Hkind & _). now split.
  - intros Hfew. apply length_zero_iff_nil. rewrite Hlen.
    destruct (Nat.ltb_spec 5 money); destruct (Nat.ltb_spec 5 stock);
      cbn [andb]; lia.
Qed.

(** C6, as the code has it.  Each configured source returns, whatever the
    state, and every row of the frame it returns has a reporting delay from
    1 to 30, a trade date that lies 1 to 30 days before a reading of the
    clock and a disclosure date that lies 1 to 15 days before a reading of
    the clock.  The three are drawn separately: the order of the two dates
    and the agreement of the delay with their difference are left open. *)
Theorem fetch_data_rows_are_drawn :
  Forall (fun fetcher : DataFetcherBase (Process World) net_event =>
            forall p, exists df p' tr,
              fetch_data fetcher p = (Returns df, p', tr)
              /\ Forall (fun r => 1 <= reporting_delay r <= 30 /\ dates_drawn r)
                   df)
    (fetchers data_manager).
Proof.
  repeat constructor; intros p.
  - destruct (HTML_fetch_data_synthesized p) as (df & p' & tr & Hrun & Hall).
    exists df, p', tr. split; [exact Hrun|].
    eapply Forall_impl; [exact Hall|].
    intros r (_ & _ & _ & _ & Hdelay & _ & Hdates). now split.
  - destruct (API_fetch_data_empty p) as (df & p' & tr & Hrun & <-).
    exists [], p', tr. split; [exact Hrun | constructor].
Qed.

(** C10. [_generate_pattern_based_trades] always returns, and every row it
    returns has owner "Self", district "Multiple" and sector "Technology",
    and takes its politician name, party, chamber and state together from
    one entry of the roster, which has the three entries Pelosi, Crenshaw
    and Gottheimer. *)
Theorem generate_pattern_based_trades_roster money_amounts stock_symbols p :
  exists trades p' tr,
    generate_pattern_based_trades money_amounts stock_symbols p
      = (Returns trades, p', tr)
    /\ Forall (fun r =>
         owner r = lit "Self" /\ district r = lit "Multiple"
         /\ sector r = lit "Technology" /\ from_roster r) trades
    /\ map p_name politicians
       = [lit "Nancy Pelosi"; lit "Dan Crenshaw"; lit "Josh Gottheimer"].
Proof.
  destruct (generate_pattern_based_trades_synthesized money_amounts stock_symbols p)
    as (trades & p' & tr & Hrun & Hall & _).
  exists trades, p', tr. split; [exact Hrun|]. split; [|reflexivity].
  eapply Forall_impl; [exact Hall|].
  intros r (Hroster & Hdistrict & Hsector & Howner & _). auto.
Qed.
End SourceProofs.

(** ** Further properties *)

Set Warnings "-clear-no-such-hyp".

(** *** The name lookup, call by call *)

Section LookupExtras.
Context {World : Type} {RT : Runtime World}.
Implicit Types (p : Process World) (key ticker : pystr) (v : pyval).

Ltac io_step := first [ rewrite bind_ret_l | rewrite bind_raise ].

(** X1. [get_company_name] never raises: whatever the ticker and
    whatever the ticker service does, the call returns.  For a ticker that
    is not empty the name returned is the one the cache holds for the
    normalized ticker afterwards; no entry of the cache is dropped or
    changed; and the call makes at most one GET. *)
Theorem get_company_name_answers_from_cache call p :
  exists v p' tr,
    get_company_name call p = (Returns v, p', tr)
    /\ answer_ok p' call v
    /\ cache_grows p p'
    /\ (length (List.filter is_get tr) <= 1)%nat.
Proof.
  destruct (get_company_name_step call p) as (v & p' & tr & Hrun & Hok & Hgrow & Htr).
  exists v, p', tr. repeat split; try assumption.
  destruct Htr as [->|(t & sleeps & _ & _ & -> & [->| ->])]; cbn; lia.
Qed.

(** X2. Two non-empty tickers with the same normalized form share one
    cache entry: after a call for the first has returned, a call for the
    second returns the same name, makes no request, does not pause, and
    leaves the process as it was. *)
Theorem get_company_name_shares_normalized_key ticker1 ticker2 p v p1 tr1 :
  ticker1 <> [] -> ticker2 <> [] ->
  normalize ticker1 = normalize ticker2 ->
  get_company_name (Some ticker1) p = (Returns v, p1, tr1) ->
  get_company_name (Some ticker2) p1 = (Returns v, p1, []).
Proof.
  intros Hne1 Hne2 Hkey Hrun.
  destruct (get_company_name_step (Some ticker1) p)
    as (v' & p' & tr & Hrun' & Hok & _).
  rewrite Hrun in Hrun'. injection Hrun' as <- <- <-.
  apply get_company_name_hit; [assumption|]. rewrite <- Hkey.
  destruct ticker1; [congruence | exact Hok].
Qed.

Lemma read_results_unusable key response p :
  usable_reply (Returns response) = false ->
  (status_code response =? 200) = true ->
  read_results key response p = (Returns None, p, [])
  \/ exists e, read_results key response p = (Raises e, p, []).
Proof.
  unfold usable_reply. intros Hun H200. rewrite H200 in Hun. cbn [andb] in Hun.
  unfold read_results.
  destruct (json response) as [data|e]; cbn [of_outcome];
    [|right; eexists; reflexivity].
  io_step.
  destruct data as [| b | z | f | s | l | kv];
    try (right; eexists; reflexivity).
  cbn [py_get]. io_step.
  destruct (assoc (lit "results") kv) as [results|]; [|left; reflexivity].
  destruct results as [| b | z | f | s | l | kv']; cbn [truthy];
    try (left; reflexivity).
  - destruct b; [right; eexists; reflexivity | left; reflexivity].
  - destruct (negb (z =? 0)); [right; eexists; reflexivity | left; reflexivity].
  - destruct (negb (PrimFloat.eqb f PrimFloat.zero));
      [right; eexists; reflexivity | left; reflexivity].
  - destruct s as [|c s]; [left; reflexivity | right; eexists; reflexivity].
  - destruct l; [left; reflexivity | discriminate].
  - destruct kv' as [|[k0 v0] kv']; [left; reflexivity | right; eexists; reflexivity].
Qed.

Lemma query_ticker_api_unusable key p :
  usable_reply (fst (http_get (lookup_url key) 5 (world p))) = false ->
  let w := snd (http_get (lookup_url key) 5 (world p)) in
  query_ticker_api key p
    = (Returns None, stored key (fallback_name key) w p,
       [HttpGet (lookup_url key) 5])
  \/ exists e, query_ticker_api key p
               = (Raises e, with_world w p, [HttpGet (lookup_url key) 5]).
Proof.
  intros Hun w. unfold query_ticker_api. fold (lookup_url key).
  pose proof (session_get_run (lookup_url key) 5 p) as Hget. fold w in Hget.
  destruct (fst (http_get (lookup_url key) 5 (world p))) as [response|e].
  2:{ right. exists e. now rewrite (bind_raises _ _ _ _ _ _ Hget). }
  rewrite (bind_returns _ _ _ _ _ _ Hget).
  destruct (status_code response =? 200) eqn:H200; [|left; reflexivity].
  destruct (read_results_unusable key response (with_world w p) Hun H200)
    as [Hrun|(e & Hrun)].
  - left. rewrite (bind_returns _ _ _ _ _ _ Hrun). reflexivity.
  - right. exists e. rewrite (bind_raises _ _ _ _ _ _ Hrun). reflexivity.
Qed.

(** What [get_company_name] makes of the outcome of its [try] block. *)
Lemma get_company_name_via_query ticker p :
  ticker <> [] ->
  cache (company_lookup p) !! normalize ticker = None ->
  get_company_name (Some ticker) p =
    match query_ticker_api (normalize ticker) p with
    | (Returns (Some v), p', tr) => (Returns v, p', tr)
    | (Returns None, p', tr) =>
        (Returns match cache (company_lookup p') !! normalize ticker with
                 | Some v => v
                 | None => fallback_name (normalize ticker)
                 end, p', tr ++ [Sleep 100])
    | (Raises _, p', tr) =>
        (Returns (fallback_name (normalize ticker)),
         stored (normalize ticker) (fallback_name (normalize ticker)) (world p') p',
         tr ++ [Sleep 100])
    end.
Proof.
  intros Hne Hmiss. destruct ticker as [|c cs]; [congruence|].
  unfold get_company_name. fold (normalize (c :: cs)).
  set (key := normalize (c :: cs)) in *.
  rewrite (bind_returns _ _ _ _ _ _
             (eq_refl : cache_lookup key p = (Returns _, p, []))).
  rewrite Hmiss.
  destruct (query_ticker_api key p) as [[[[v|]|e] p'] tr] eqn:Hrun.
  - rewrite (bind_returns _ _ _ _ _ _ (try_except_returns _ _ _ _ _ _ Hrun)).
    cbn. rewrite ?app_nil_r. reflexivity.
  - rewrite (bind_returns _ _ _ _ _ _ (try_except_returns _ _ _ _ _ _ Hrun)).
    cbn. unfold bind, time_sleep, emit, cache_lookup, ret. cbn.
    rewrite ?app_nil_r. reflexivity.
  - assert (Hcaught :
      try_except (query_ticker_api key)
        (fun _ => cache_store key (fallback_name key) ;;; ret None) p
      = (Returns None, stored key (fallback_name key) (world p') p', tr)).
    { rewrite (try_except_raises _ _ _ _ _ _ Hrun). cbn. rewrite ?app_nil_r. reflexivity. }
    rewrite (bind_returns _ _ _ _ _ _ Hcaught).
    cbn. unfold bind, time_sleep, emit, cache_lookup, ret. cbn.
    rewrite lookup_insert_eq. rewrite ?app_nil_r. reflexivity.
Qed.

(** X3. On a cache miss, when the ticker service gives no usable reply
    (the request fails, the status is not 200, the body is not a JSON
    object, or it has no non-empty list under [results]), the call returns
    the placeholder "Company for KEY", stores it under the normalized
    ticker, and has made one GET with timeout 5 followed by a pause of 100
    milliseconds. *)
Theorem get_company_name_falls_back ticker p :
  ticker <> [] ->
  cache (company_lookup p) !! normalize ticker = None ->
  usable_reply (fst (http_get (lookup_url (normalize ticker)) 5 (world p))) = false ->
  get_company_name (Some ticker) p =
    (Returns (fallback_name (normalize ticker)),
     stored (normalize ticker) (fallback_name (normalize ticker))
       (snd (http_get (lookup_url (normalize ticker)) 5 (world p))) p,
     [HttpGet (lookup_url (normalize ticker)) 5; Sleep 100]).
Proof.
  intros Hne Hmiss Hun.
  rewrite (get_company_name_via_query _ _ Hne Hmiss).
  destruct (query_ticker_api_unusable _ _ Hun) as [-> | (e & ->)].
  - unfold stored at 1. cbn [company_lookup cache].
    rewrite lookup_insert_eq. reflexivity.
  - reflexivity.
Qed.

Lemma find_exact_match_well_formed key items p :
  Forall well_formed_item items ->
  find_exact_match key items p =
    match List.find (item_matches key) items with
    | Some item =>
        (Returns (Some (name_in key item)),
         stored key (name_in key item) (world p) p, [])
    | None => (Returns None, p, [])
    end.
Proof.
  induction 1 as [|item items Hitem _ IH]; [reflexivity|].
  cbn [find_exact_match List.find].
  destruct item as [| b | z | f | s | l | fields]; try contradiction.
  cbn [py_get well_formed_item item_matches] in *. io_step.
  destruct (assoc (lit "symbol") fields) as [[| b | z | f | s | l | kv]|];
    try contradiction; cbn [py_upper]; io_step.
  - destruct (decide (str_upper s = key)) as [Heq|Hne].
    + rewrite (bool_decide_eq_true_2 _ Heq). io_step. cbn [name_in].
      reflexivity.
    + rewrite (bool_decide_eq_false_2 _ Hne). exact IH.
  - destruct (decide (str_upper [] = key)) as [Heq|Hne].
    + rewrite (bool_decide_eq_true_2 _ Heq). io_step. cbn [name_in].
      reflexivity.
    + rewrite (bool_decide_eq_false_2 _ Hne). exact IH.
Qed.

(** X4. On a cache miss, when the ticker service answers with status
    200 and a non-empty list of results, each an object whose [symbol], if
    it has one, is a string, the call returns the name of the first result
    whose upper-cased symbol equals the normalized ticker, and the name of
    the first result when there is none (the placeholder when that result
    has no [name]); it stores that name under the normalized ticker, makes
    one GET and does not pause. *)
Theorem get_company_name_prefers_exact_match ticker p response kv items :
  ticker <> [] ->
  cache (company_lookup p) !! normalize ticker = None ->
  fst (http_get (lookup_url (normalize ticker)) 5 (world p)) = Returns response ->
  status_code response = 200 ->
  json response = Returns (PDict kv) ->
  assoc (lit "results") kv = Some (PList items) ->
  items <> [] ->
  Forall well_formed_item items ->
  let name := chosen_name (normalize ticker) items in
  get_company_name (Some ticker) p =
    (Returns name,
     stored (normalize ticker) name
       (snd (http_get (lookup_url (normalize ticker)) 5 (world p))) p,
     [HttpGet (lookup_url (normalize ticker)) 5]).
Proof.
  intros Hne Hmiss Hreply H200 Hjson Hresults Hitems Hwf name.
  rewrite (get_company_name_via_query _ _ Hne Hmiss).
  set (key := normalize ticker) in *.
  set (w := snd (http_get (lookup_url key) 5 (world p))).
  assert (Hquery : query_ticker_api key p
                   = (Returns (Some name), stored key name w p,
                      [HttpGet (lookup_url key) 5])).
  { unfold query_ticker_api. fold (lookup_url key).
    pose proof (session_get_run (lookup_url key) 5 p) as Hget.
    rewrite Hreply in Hget. fold w in Hget.
    rewrite (bind_returns _ _ _ _ _ _ Hget). rewrite H200. cbn [Z.eqb Pos.eqb].
    assert (Hread : read_results key response (with_world w p)
                    = (Returns (Some name), stored key name w p, [])).
    { unfold read_results. rewrite Hjson. cbn [of_outcome]. io_step.
      cbn [py_get]. io_step. rewrite Hresults.
      destruct items as [|first rest]; [congruence|].
      cbn [truthy py_len]. io_step. cbn [length Nat.ltb Nat.leb py_iter]. io_step.
      pose proof (find_exact_match_well_formed key (first :: rest)
                    (with_world w p) Hwf) as Hfind.
      unfold name, chosen_name.
      destruct (List.find (item_matches key) (first :: rest)) as [item|].
      - rewrite (bind_returns _ _ _ _ _ _ Hfind). reflexivity.
      - rewrite (bind_returns _ _ _ _ _ _ Hfind). cbn [py_first app hd].
        io_step. apply Forall_cons in Hwf as [Hfirst _].
        destruct first as [| b | z | f | s | l | fields]; try contradiction.
        cbn [py_get name_in]. io_step. reflexivity. }
    rewrite (bind_returns _ _ _ _ _ _ Hread). reflexivity. }
  rewrite Hquery. reflexivity.
Qed.

Lemma get_company_name_no_pause call p :
  List.filter is_pause (snd (get_company_name call p)) = [].
Proof.
  destruct (get_company_name_step call p) as (v & p' & tr & -> & _ & _ & Htr).
  destruct Htr as [->|(t & sleeps & _ & _ & -> & [->| ->])]; reflexivity.
Qed.

Lemma resolve_each_run tickers : forall (results : gmap pystr pyval) p,
  exists out p' tr,
    resolve_each tickers results p = (Returns out, p', tr)
    /\ dom out = list_to_set tickers ∪ dom results
    /\ length (List.filter is_pause tr) = length tickers
    /\ cache_grows p p'
    /\ (forall t v, out !! t = Some v ->
          (results !! t = Some v /\ t ∉ tickers)
          \/ (t ∈ tickers /\ answer_ok p' (Some t) v)).
Proof.
  induction tickers as [|t rest IH]; intros results p.
  - exists results, p, []. split; [reflexivity|]. split; [set_solver|].
    split; [reflexivity|]. split; [now intros k v|].
    intros t v Hv. left. split; [exact Hv | set_solver].
  - destruct (get_company_name_step (Some t) p)
      as (v & p1 & t1 & Hrun & Hok & Hgrow & _).
    pose proof (get_company_name_no_pause (Some t) p) as Hquiet.
    rewrite Hrun in Hquiet. cbn [snd] in Hquiet.
    destruct (IH (<[t := v]> results) p1)
      as (out & p2 & t2 & Hrest & Hdom & Hpauses & Hgrow2 & Hvals).
    exists out, p2, (t1 ++ [Sleep 200] ++ t2). split.
    { cbn [resolve_each]. rewrite (bind_returns _ _ _ _ _ _ Hrun).
      unfold time_sleep.
      rewrite (bind_returns _ _ _ _ _ _
                 (eq_refl : emit (Sleep 200) p1 = (Returns tt, p1, [Sleep 200]))).
      rewrite Hrest. reflexivity. }
    split; [rewrite Hdom, dom_insert_L; set_solver|].
    split.
    { rewrite !List.filter_app, !length_app, Hquiet, Hpauses. reflexivity. }
    split; [intros k v' Hk; auto|].
    intros t' v' Hv'. destruct (Hvals t' v' Hv') as [[Hin Hnot]|[Hin Hok']].
    + destruct (decide (t = t')) as [<-|Hne].
      * rewrite lookup_insert_eq in Hin. injection Hin as <-.
        right. split; [set_solver|]. eapply answer_ok_grows; eauto.
      * rewrite lookup_insert_ne in Hin by assumption.
        left. split; [exact Hin | set_solver].
    + right. split; [set_solver | exact Hok'].
Qed.

(** X5. [get_multiple_company_names] never raises.  The dict it
    returns has exactly the given tickers as keys (a ticker given twice has
    one entry), each with the name the cache holds for the normalized ticker
    afterwards ("Unknown Company" for the empty ticker), and the call pauses
    for 200 milliseconds once per ticker of the list. *)
Theorem get_multiple_company_names_keys tickers p :
  exists out p' tr,
    get_multiple_company_names tickers p = (Returns out, p', tr)
    /\ dom out = list_to_set tickers
    /\ length (List.filter is_pause tr) = length tickers
    /\ (forall t, t ∈ tickers ->
          exists v, out !! t = Some v /\ answer_ok p' (Some t) v).
Proof.
  destruct (resolve_each_run tickers ∅ p)
    as (out & p' & tr & Hrun & Hdom & Hpauses & _ & Hvals).
  exists out, p', tr. split; [exact Hrun|].
  split; [rewrite Hdom; set_solver|]. split; [exact Hpauses|].
  intros t Ht.
  assert (Hin : t ∈ dom out) by (rewrite Hdom; set_solver).
  apply elem_of_dom in Hin as [v Hv]. exists v. split; [exact Hv|].
  destruct (Hvals t v Hv) as [[Hempty _]|[_ Hok]]; [|exact Hok].
  rewrite lookup_empty in Hempty. discriminate.
Qed.
End LookupExtras.

(** *** The two sources *)

Section FetcherExtras.
Context {World : Type} {RT : Runtime World}.
Implicit Types (p : Process World).

Lemma is_available_run p :
  HTML_is_available p
  = (Returns (status_is_200 (fst (http_get HTML_base_url 10 (world p)))),
     with_world (snd (http_get HTML_base_url 10 (world p))) p,
     [HttpGet HTML_base_url 10])
  /\ API_is_available p
     = (Returns (status_is_200 (fst (http_get API_url 10 (world p)))),
        with_world (snd (http_get API_url 10 (world p))) p,
        [HttpGet API_url 10]).
Proof.
  split.
  - unfold HTML_is_available.
    pose proof (session_get_run HTML_base_url 10 p) as Hget.
    destruct (fst (http_get HTML_base_url 10 (world p))) as [response|e].
    + rewrite (try_except_returns _ _
                 p (status_code response =? 200)
                 (with_world (snd (http_get HTML_base_url 10 (world p))) p)
                 [HttpGet HTML_base_url 10]); [reflexivity|].
      rewrite (bind_returns _ _ _ _ _ _ Hget). reflexivity.
    + rewrite (try_except_raises _ _ _ _ _ _ (bind_raises _ _ _ _ _ _ Hget)).
      reflexivity.
  - unfold API_is_available.
    pose proof (session_get_run API_url 10 p) as Hget.
    destruct (fst (http_get API_url 10 (world p))) as [response|e].
    + rewrite (try_except_returns _ _
                 p (status_code response =? 200)
                 (with_world (snd (http_get API_url 10 (world p))) p)
                 [HttpGet API_url 10]); [reflexivity|].
      rewrite (bind_returns _ _ _ _ _ _ Hget). reflexivity.
    + rewrite (try_except_raises _ _ _ _ _ _ (bind_raises _ _ _ _ _ _ Hget)).
      reflexivity.
Qed.

(** X6. [is_available], of either source, never raises: it makes one
    GET with timeout 10 to the address of the source and returns true
    exactly when a reply came back with status 200; a failed request is
    reported as false. *)
Theorem is_available_probes_status p :
  HTML_is_available p
  = (Returns (status_is_200 (fst (http_get HTML_base_url 10 (world p)))),
     with_world (snd (http_get HTML_base_url 10 (world p))) p,
     [HttpGet HTML_base_url 10])
  /\ API_is_available p
     = (Returns (status_is_200 (fst (http_get API_url 10 (world p)))),
        with_world (snd (http_get API_url 10 (world p))) p,
        [HttpGet API_url 10]).
Proof. exact (is_available_run p). Qed.

Lemma API_fetch_data_run p :
  API_fetch_data p
  = (Returns [], with_world (snd (http_get API_url 10 (world p))) p,
     [HttpGet API_url 10]).
Proof.
  unfold API_fetch_data.
  pose proof (session_get_run API_url 10 p) as Hget.
  destruct (fst (http_get API_url 10 (world p))) as [response|e].
  - destruct (status_code response =? 200) eqn:H200.
    + destruct (json response) as [data|e] eqn:Hjson.
      * rewrite (try_except_returns _ _
                   p [] (with_world (snd (http_get API_url 10 (world p))) p)
                   [HttpGet API_url 10]); [reflexivity|].
        rewrite (bind_returns _ _ _ _ _ _ Hget), H200, Hjson. reflexivity.
      * rewrite (try_except_raises _ _
                   p e (with_world (snd (http_get API_url 10 (world p))) p)
                   [HttpGet API_url 10]); [reflexivity|].
        rewrite (bind_returns _ _ _ _ _ _ Hget), H200, Hjson. reflexivity.
    + rewrite (try_except_returns _ _
                 p [] (with_world (snd (http_get API_url 10 (world p))) p)
                 [HttpGet API_url 10]); [reflexivity|].
      rewrite (bind_returns _ _ _ _ _ _ Hget), H200. reflexivity.
  - rewrite (try_except_raises _ _ _ _ _ _ (bind_raises _ _ _ _ _ _ Hget)).
    reflexivity.
Qed.

(** X7. [fetch_data] of the API source gives no rows, whatever the
    service answers: after one GET with timeout 10 it returns the empty
    frame, for a reply with status 200 (its JSON decoded or not), for any
    other status, and for a failed request. *)
Theorem API_fetch_data_is_inert p :
  API_fetch_data p
  = (Returns [], with_world (snd (http_get API_url 10 (world p))) p,
     [HttpGet API_url 10]).
Proof. exact (API_fetch_data_run p). Qed.

Lemma HTML_fetch_data_bad_reply p :
  status_is_200 (fst (http_get HTML_base_url 15 (world p))) = false ->
  HTML_fetch_data p
  = (Returns [], with_world (snd (http_get HTML_base_url 15 (world p))) p,
     [HttpGet HTML_base_url 15]).
Proof.
  intros Hbad. unfold HTML_fetch_data.
  pose proof (session_get_run HTML_base_url 15 p) as Hget.
  destruct (fst (http_get HTML_base_url 15 (world p))) as [response|e].
  - cbn in Hbad.
    rewrite (try_except_returns _ _
               p [] (with_world (snd (http_get HTML_base_url 15 (world p))) p)
               [HttpGet HTML_base_url 15]); [reflexivity|].
    rewrite (bind_returns _ _ _ _ _ _ Hget), Hbad. reflexivity.
  - rewrite (try_except_raises _ _ _ _ _ _ (bind_raises _ _ _ _ _ _ Hget)).
    reflexivity.
Qed.

(** X8. When the request for the listing page fails or its status is
    not 200, [fetch_data] of the HTML source returns the empty frame after
    that one GET with timeout 15; no name is looked up, and the name cache
    is left as it was. *)
Theorem HTML_fetch_data_failed_page p :
  status_is_200 (fst (http_get HTML_base_url 15 (world p))) = false ->
  HTML_fetch_data p
  = (Returns [], with_world (snd (http_get HTML_base_url 15 (world p))) p,
     [HttpGet HTML_base_url 15]).
Proof. exact (HTML_fetch_data_bad_reply p). Qed.

Lemma scan_matches_run matches p :
  exists r, scan_matches matches p = (r, p, [])
    /\ forall data, r = Returns (Some data) ->
         exists m, In m matches /\ json_loads m = JsonValue data
                   /\ contains_trade_data data = true.
Proof.
  induction matches as [|m rest IH].
  - exists (Returns None). split; [reflexivity | discriminate].
  - cbn [scan_matches]. destruct (json_loads m) as [data| |e] eqn:Hloads.
    + destruct (contains_trade_data data) eqn:Hkeys.
      * exists (Returns (Some data)). split; [reflexivity|].
        intros data' [= <-]. exists m. repeat split; auto. now left.
      * destruct IH as (r & -> & Hr). exists r. split; [reflexivity|].
        intros data' Hd. destruct (Hr data' Hd) as (m' & Hin & H').
        exists m'. split; [now right | exact H'].
    + destruct IH as (r & -> & Hr). exists r. split; [reflexivity|].
      intros data' Hd. destruct (Hr data' Hd) as (m' & Hin & H').
      exists m'. split; [now right | exact H'].
    + exists (Raises e). split; [reflexivity | discriminate].
Qed.

Lemma scan_patterns_run patterns script p :
  exists r, scan_patterns patterns script p = (r, p, [])
    /\ forall data, r = Returns (Some data) ->
         exists pattern m,
           In pattern patterns /\ In m (re_findall_dotall pattern script)
           /\ json_loads m = JsonValue data
           /\ contains_trade_data data = true.
Proof.
  induction patterns as [|pattern rest IH].
  - exists (Returns None). split; [reflexivity | discriminate].
  - cbn [scan_patterns].
    destruct (scan_matches_run (re_findall_dotall pattern script) p)
      as ([[data|]|e] & Hrun & Hr).
    + exists (Returns (Some data)).
      rewrite (bind_returns _ _ _ _ _ _ Hrun). split; [reflexivity|].
      intros data' [= <-]. destruct (Hr data eq_refl) as (m & Hin & H').
      exists pattern, m. split; [now left|]. split; assumption.
    + destruct IH as (r & Hrest & Hr'). exists r.
      rewrite (bind_returns _ _ _ _ _ _ Hrun), Hrest. split; [reflexivity|].
      intros data' Hd. destruct (Hr' data' Hd) as (pattern' & m & Hin & H').
      exists pattern', m. split; [now right | exact H'].
    + exists (Raises e). rewrite (bind_raises _ _ _ _ _ _ Hrun).
      split; [reflexivity | discriminate].
Qed.

Lemma extract_embedded_data_run scripts p :
  exists r, extract_embedded_data scripts p = (r, p, [])
    /\ (forall data, r = Returns (Some data) -> accepted_from scripts data)
    /\ (forallb (fun script => negb (has_text script)) scripts = true ->
        r = Returns None).
Proof.
  induction scripts as [|script rest IH].
  - exists (Returns None). split; [reflexivity|]. split; [discriminate | auto].
  - cbn [extract_embedded_data forallb].
    assert (Hskip : has_text script = false ->
      exists r, extract_embedded_data rest p = (r, p, [])
        /\ (forall data, r = Returns (Some data) ->
              accepted_from (script :: rest) data)
        /\ (negb (has_text script)
            && forallb (fun script => negb (has_text script)) rest = true ->
            r = Returns None)).
    { intros Hno. destruct IH as (r & Hrun & Hacc & Hnone). exists r.
      split; [exact Hrun|]. split.
      - intros data Hd.
        destruct (Hacc data Hd) as (sc & pattern & m & Hin & H').
        exists sc, pattern, m. split; [now right | exact H'].
      - rewrite Hno. exact Hnone. }
    destruct script as [[|c cs]|]; [now apply Hskip| |now apply Hskip].
    destruct (scan_patterns_run embedded_patterns (c :: cs) p)
      as ([[data|]|e] & Hrun & Hr).
    + exists (Returns (Some data)).
      rewrite (bind_returns _ _ _ _ _ _ Hrun). split; [reflexivity|]. split.
      * intros data' [= <-].
        destruct (Hr data eq_refl) as (pattern & m & Hin & H').
        exists (c :: cs), pattern, m. split; [now left|]. split; assumption.
      * discriminate.
    + destruct IH as (r & Hrest & Hacc & _). exists r.
      rewrite (bind_returns _ _ _ _ _ _ Hrun), Hrest. split; [reflexivity|].
      split; [|discriminate].
      intros data Hd.
      destruct (Hacc data Hd) as (sc & pattern & m & Hin & H').
      exists sc, pattern, m. split; [now right | exact H'].
    + exists (Raises e). rewrite (bind_raises _ _ _ _ _ _ Hrun).
      split; [reflexivity|]. split; discriminate.
Qed.

(** X9. [_extract_embedded_data] leaves the process as it was and does
    no network call.  When it returns a value, that value was decoded from a
    match of one of the three patterns in the text of one of the script
    elements, and passed the keyword check; when no script element has text
    it returns [None]. *)
Theorem extract_embedded_data_accepts_only_trade_data scripts p :
  let '(r, p', tr) := extract_embedded_data scripts p in
  p' = p /\ tr = []
  /\ (forall data, r = Returns (Some data) -> accepted_from scripts data)
  /\ (forallb (fun script => negb (has_text script)) scripts = true ->
      r = Returns None).
Proof.
  destruct (extract_embedded_data_run scripts p) as (r & -> & Hacc & Hnone).
  auto.
Qed.

Lemma HTML_fetch_data_embedded p response scripts data :
  fst (http_get HTML_base_url 15 (world p)) = Returns response ->
  status_code response = 200 ->
  soup_scripts response = Returns scripts ->
  fst (fst (extract_embedded_data scripts
              (with_world (snd (http_get HTML_base_url 15 (world p))) p)))
    = Returns (Some data) ->
  truthy data = true ->
  HTML_fetch_data p
  = (Returns [], with_world (snd (http_get HTML_base_url 15 (world p))) p,
     [HttpGet HTML_base_url 15]).
Proof.
  intros Hreply H200 Hsoup Hfound Htruthy. unfold HTML_fetch_data.
  pose proof (session_get_run HTML_base_url 15 p) as Hget.
  rewrite Hreply in Hget.
  set (p1 := with_world (snd (http_get HTML_base_url 15 (world p))) p) in *.
  destruct (extract_embedded_data_run scripts p1) as (r & Hrun & _).
  rewrite Hrun in Hfound. cbn in Hfound. subst r.
  assert (Hlen : (exists n, py_len data p1 = (Returns n, p1, []))
                 \/ exists e, py_len data p1 = (Raises e, p1, [])).
  { destruct data; cbn; eauto. }
  destruct Hlen as [(n & Hlen)|(e & Hlen)].
  - rewrite (try_except_returns _ _ p [] p1 [HttpGet HTML_base_url 15]);
      [reflexivity|].
    rewrite (bind_returns _ _ _ _ _ _ Hget), H200. cbn [Z.eqb Pos.eqb negb].
    rewrite Hsoup. cbn [of_outcome]. rewrite bind_ret_l.
    rewrite (bind_returns _ _ _ _ _ _ Hrun), Htruthy.
    rewrite (bind_returns _ _ _ _ _ _ Hlen). reflexivity.
  - rewrite (try_except_raises _ _ p e p1 [HttpGet HTML_base_url 15]);
      [reflexivity|].
    rewrite (bind_returns _ _ _ _ _ _ Hget), H200. cbn [Z.eqb Pos.eqb negb].
    rewrite Hsoup. cbn [of_outcome]. rewrite bind_ret_l.
    rewrite (bind_returns _ _ _ _ _ _ Hrun), Htruthy.
    rewrite (bind_raises _ _ _ _ _ _ Hlen). reflexivity.
Qed.

(** X10. A listing page that carries embedded trade data gives no
    rows: when [_extract_embedded_data] finds a truthy value in the scripts
    of a page that came back with status 200, [fetch_data] of the HTML
    source returns the empty frame after that one GET, whatever money and
    ticker tokens the text of the page has, and no name is looked up. *)
Theorem HTML_fetch_data_drops_embedded_data p response scripts data :
  fst (http_get HTML_base_url 15 (world p)) = Returns response ->
  status_code response = 200 ->
  soup_scripts response = Returns scripts ->
  fst (fst (extract_embedded_data scripts
              (with_world (snd (http_get HTML_base_url 15 (world p))) p)))
    = Returns (Some data) ->
  truthy data = true ->
  HTML_fetch_data p
  = (Returns [], with_world (snd (http_get HTML_base_url 15 (world p))) p,
     [HttpGet HTML_base_url 15]).
Proof. exact (HTML_fetch_data_embedded p response scripts data). Qed.
End FetcherExtras.

(** *** The two patterns *)

Section ScannerExtras.
Context {World : Type} {RT : Runtime World}.

Lemma take_add {A} (n m : nat) (l : list A) :
  take (n + m) l = take n l ++ take m (drop n l).
Proof.
  revert l. induction n as [|n IH]; intros [|x l]; cbn;
    rewrite ?take_nil; try reflexivity. now rewrite IH.
Qed.

Lemma span_take (P : N -> bool) s : forallb P (take (span P s) s) = true.
Proof.
  induction s as [|c s IH]; [reflexivity|]. cbn [span].
  destruct (P c) eqn:Hc; [|reflexivity]. cbn. now rewrite Hc.
Qed.

Lemma absent_char (P : N -> bool) (x : N) (l : pystr) :
  P x = false -> forallb P l = true -> contains_char x l = false.
Proof.
  intros Hx. unfold contains_char. induction l as [|c l IH]; [reflexivity|].
  cbn. intros [Hc Hl]%andb_true_iff. rewrite (IH Hl), orb_false_r.
  apply N.eqb_neq. intros <-. congruence.
Qed.

(** Every match the search reports is a match of the pattern at some
    position of the text, with the character before that position as the
    pattern saw it. *)
Lemma findall_from_matches (m : option N -> pystr -> option nat) s :
  forall prev skip tok,
    In tok (findall_from m prev skip s) ->
    exists pre rest n,
      s = pre ++ rest
      /\ m (match last pre with Some c => Some c | None => prev end) rest = Some n
      /\ tok = take n rest /\ n <> O.
Proof.
  induction s as [|c s IH]; intros prev skip tok Hin; [destruct Hin|].
  assert (Hlater : forall k, In tok (findall_from m (Some c) k s) ->
    exists pre rest n,
      c :: s = pre ++ rest
      /\ m (match last pre with Some c => Some c | None => prev end) rest = Some n
      /\ tok = take n rest /\ n <> O).
  { intros k Hk. destruct (IH _ _ _ Hk) as (pre & rest & n & -> & Hm & Htok & Hn).
    exists (c :: pre), rest, n. split; [reflexivity|]. split; [|auto].
    destruct pre as [|c' pre]; [exact Hm|].
    rewrite last_cons. cbn [last] in Hm.
    change (last (c' :: pre)) with (last (c' :: pre)) in *.
    destruct (last (c' :: pre)) eqn:Hl; [exact Hm|].
    apply last_None in Hl. discriminate. }
  cbn [findall_from] in Hin. destruct skip as [|k]; [|now apply (Hlater k)].
  destruct (m prev (c :: s)) as [[|n]|] eqn:Hm; try now apply (Hlater O).
  destruct Hin as [<-|Hin]; [|now apply (Hlater n)].
  exists [], (c :: s), (Datatypes.S n). auto.
Qed.

Lemma match_caps_token k s :
  k <> O ->
  match_caps k s = true ->
  length (take k s) = k /\ forallb is_AZ (take k s) = true
  /\ is_word_at (head (drop k s)) = false.
Proof.
  unfold match_caps.
  intros Hk [[Hlen Hcaps]%andb_true_iff Hb]%andb_true_iff.
  apply Nat.eqb_eq in Hlen. repeat split; try assumption.
  destruct k as [|k]; [congruence|].
  - unfold word_boundary in Hb.
    destruct (last (take (Datatypes.S k) s)) as [c|] eqn:Hlast.
    + assert (Hc : is_AZ c = true).
      { rewrite forallb_forall in Hcaps. apply Hcaps.
        apply list_elem_of_In. apply last_Some_elem_of in Hlast. exact Hlast. }
      assert (Hw : is_word c = true).
      { unfold is_AZ, between in Hc. unfold is_word, between.
        apply andb_true_iff in Hc as [H1 H2].
        apply N.leb_le in H1, H2.
        destruct (N.ltb_spec c 128) as [_|Hbig]; [|lia].
        rewrite (proj2 (N.leb_le 65 c) H1), (proj2 (N.leb_le c 90) H2).
        cbn. now rewrite !orb_true_r. }
      cbn [is_word_at] in Hb. rewrite Hw in Hb.
      now destruct (is_word_at (head (drop (Datatypes.S k) s))).
    + apply last_None in Hlast. rewrite Hlast in Hlen. discriminate.
Qed.

Lemma is_AZ_bounds c : is_AZ c = true -> (65 <= c <= 90)%N.
Proof.
  unfold is_AZ, between. intros [H1 H2]%andb_true_iff.
  apply N.leb_le in H1, H2. lia.
Qed.

Lemma stock_tokens_spec text :
  Forall (fun tok =>
            (3 <= length tok <= 5)%nat
            /\ Forall (fun c => (65 <= c <= 90)%N) tok
            /\ whole_word_of text tok)
    (re_findall match_stock text).
Proof.
  apply Forall_forall. intros tok Hin. apply list_elem_of_In in Hin.
  destruct (findall_from_matches match_stock text None O tok Hin)
    as (pre & rest & n & -> & Hm & -> & _).
  unfold match_stock in Hm.
  destruct (word_boundary _ (head rest)) eqn:Hb; [|discriminate].
  assert (Hcaps : match_caps n rest = true /\ (3 <= n <= 5)%nat).
  { destruct (match_caps 5 rest) eqn:H5; [injection Hm as <-; split; [assumption|lia]|].
    destruct (match_caps 4 rest) eqn:H4; [injection Hm as <-; split; [assumption|lia]|].
    destruct (match_caps 3 rest) eqn:H3; [injection Hm as <-; split; [assumption|lia]|].
    discriminate. }
  destruct Hcaps as [Hcaps Hn].
  destruct (match_caps_token n rest ltac:(lia) Hcaps) as (Hlen & Hall & Hafter).
  split; [lia|]. split.
  - apply Forall_forall. intros c Hc. apply is_AZ_bounds.
    rewrite forallb_forall in Hall. apply Hall. now apply list_elem_of_In.
  - exists pre, (drop n rest). split; [now rewrite take_drop|].
    split; [|exact Hafter].
    (* the first letter is a word character, so what precedes is not *)
    assert (Hfirst : is_word_at (head rest) = true).
    { destruct rest as [|c rest]; [destruct n; cbn in Hlen; lia|].
      destruct n as [|n]; [lia|]. cbn in Hall.
      apply andb_true_iff in Hall as [Hc _]. cbn.
      apply is_AZ_bounds in Hc. unfold is_word, between.
      destruct (N.ltb_spec c 128) as [_|Hbig]; [|lia].
      rewrite (proj2 (N.leb_le 65 c) (proj1 Hc)), (proj2 (N.leb_le c 90) (proj2 Hc)).
      cbn. now rewrite !orb_true_r. }
    unfold word_boundary in Hb. rewrite Hfirst in Hb.
    destruct (last pre) as [c|]; cbn in *.
    + now destruct (is_word c).
    + reflexivity.
Qed.

Lemma digit_facts :
  is_digit 75 = false /\ is_digit 36 = false /\ is_digit 46 = false.
Proof. repeat split; reflexivity. Qed.

Lemma match_dollar_token s n :
  match_dollar s = Some n -> dollar_token (take n s) /\ contains_char 36 (take n s) = true.
Proof.
  unfold match_dollar. destruct s as [|c s1]; [discriminate|].
  destruct (N.eqb_spec c 36) as [->|Hc].
  2:{ intros H. exfalso. destruct c as [|q]; [discriminate H|].
      do 6 (try (destruct q as [q|q|]; try discriminate H)).
      all: try discriminate H. all: congruence. }
  set (P := fun c => is_digit c || (c =? 44)%N).
  pose proof (span_take P s1) as Hrun.
  assert (HK : P 75%N = false) by reflexivity.
  destruct (span P s1) as [|k] eqn:Hspan; [discriminate|].
  set (run := Datatypes.S k) in *.
  assert (Hshort : dollar_token (take (1 + run) (36%N :: s1))
                   /\ contains_char 36 (take (1 + run) (36%N :: s1)) = true).
  { cbn [Nat.add take]. split; [split; [reflexivity|] | reflexivity].
    unfold contains_char. cbn [existsb N.eqb Pos.eqb orb].
    exact (absent_char P 75 _ HK Hrun). }
  assert (Hlong : forall d1 d2 rest,
            drop run s1 = 46%N :: d1 :: d2 :: rest ->
            is_digit d1 && is_digit d2 = true ->
            dollar_token (take (1 + run + 3) (36%N :: s1))
            /\ contains_char 36 (take (1 + run + 3) (36%N :: s1)) = true).
  { intros d1 d2 rest Hdrop Hdigits.
    change (1 + run + 3)%nat with (Datatypes.S (run + 3)). cbn [take].
    split; [split; [reflexivity|] | reflexivity].
    change (contains_char 75 (36%N :: take (run + 3) s1))
      with (contains_char 75 (take (run + 3) s1)).
    rewrite take_add, Hdrop. cbn [take].
    unfold contains_char. rewrite existsb_app.
    change (existsb (N.eqb 75) (take run s1))
      with (contains_char 75 (take run s1)).
    rewrite (absent_char P 75 _ HK Hrun). cbn [orb]. rewrite take_0.
    change (contains_char 75 [46%N; d1; d2] = false).
    apply (absent_char (fun c => is_digit c || (c =? 46)%N) 75); [reflexivity|].
    apply andb_true_iff in Hdigits as [H1 H2].
    cbn [forallb]. rewrite H1, H2. reflexivity. }
  destruct (drop run s1) as [|c1 [|d1 [|d2 rest]]] eqn:Hdrop.
  - intros [= <-]; exact Hshort.
  - intros H. assert (n = (1 + run)%nat) as ->; [|exact Hshort].
    destruct (N.eqb_spec c1 46) as [->|Hc1]; [now injection H as <-|].
    revert H. clear -Hc1. destruct c1 as [|q]; [now intros [= <-]|].
    do 6 (try (destruct q as [q|q|]; try (now intros [= <-]))).
    all: try (now intros [= <-]). all: congruence.
  - intros H. assert (n = (1 + run)%nat) as ->; [|exact Hshort].
    destruct (N.eqb_spec c1 46) as [->|Hc1]; [now injection H as <-|].
    revert H. clear -Hc1. destruct c1 as [|q]; [now intros [= <-]|].
    do 6 (try (destruct q as [q|q|]; try (now intros [= <-]))).
    all: try (now intros [= <-]). all: congruence.
  - destruct (N.eqb_spec c1 46) as [->|Hc1].
    + destruct (is_digit d1 && is_digit d2) eqn:Hd; intros [= <-];
        [eapply Hlong; eauto | exact Hshort].
    + intros H. assert (n = (1 + run)%nat) as ->; [|exact Hshort].
      revert H. clear -Hc1. destruct c1 as [|q]; [now intros [= <-]|].
      do 6 (try (destruct q as [q|q|]; try (now intros [= <-]))).
      all: try (now intros [= <-]). all: congruence.
Qed.

Lemma match_range_token s n :
  match_range s = Some n -> range_token (take n s).
Proof.
  unfold match_range.
  pose proof (span_take is_digit s) as Hrun1.
  destruct (span is_digit s) as [|k1] eqn:Hspan1; [discriminate|].
  set (n1 := Datatypes.S k1) in *.
  destruct (drop n1 s) as [|c [|dash s2]] eqn:Hdrop1.
  - discriminate.
  - intros H. exfalso. destruct c as [|q]; [discriminate H|].
    do 7 (try (destruct q as [q|q|]; try discriminate H)).
  - destruct (N.eqb_spec c 75) as [->|Hc].
    2:{ intros H. exfalso. destruct c as [|q]; [discriminate H|].
        do 7 (try (destruct q as [q|q|]; try discriminate H)).
        all: try discriminate H. all: congruence. }
    destruct ((dash =? 8211)%N || (dash =? 45)%N) eqn:Hdash; [|discriminate].
    pose proof (span_take is_digit s2) as Hrun2.
    destruct (span is_digit s2) as [|k2] eqn:Hspan2; [discriminate|].
    set (n2 := Datatypes.S k2) in *.
    destruct (drop n2 s2) as [|c2 rest] eqn:Hdrop2; [discriminate|].
    destruct (N.eqb_spec c2 75) as [->|Hc2].
    2:{ intros H. exfalso. destruct c2 as [|q]; [discriminate H|].
        do 7 (try (destruct q as [q|q|]; try discriminate H)).
        all: try discriminate H. all: congruence. }
    intros [= Hn].
    assert (Htok : take n s
                   = take n1 s ++ [75%N; dash] ++ take n2 s2 ++ [75%N]).
    { replace n with (n1 + (2 + (n2 + 1)))%nat by (subst n1 n2; lia).
      rewrite take_add, Hdrop1. cbn [Nat.add take]. rewrite take_add, Hdrop2.
      reflexivity. }
    rewrite Htok. unfold range_token, contains_char.
    rewrite !existsb_app. split.
    + cbn. now rewrite orb_true_r.
    + change (existsb (N.eqb 36) (take n1 s))
        with (contains_char 36 (take n1 s)).
      change (existsb (N.eqb 36) (take n2 s2))
        with (contains_char 36 (take n2 s2)).
      rewrite (absent_char is_digit 36 _ eq_refl Hrun1).
      rewrite (absent_char is_digit 36 _ eq_refl Hrun2).
      cbn [orb existsb]. change ((36 =? 75)%N) with false. cbn [orb].
      rewrite orb_false_r.
      apply orb_true_iff in Hdash as [Hd|Hd]; apply N.eqb_eq in Hd; now subst.
Qed.

Lemma span_take_nonempty (P : N -> bool) s k :
  span P s = Datatypes.S k -> take (Datatypes.S k) s <> [].
Proof. destruct s as [|c s]; [discriminate|]. discriminate. Qed.

Lemma match_dollar_shape s n :
  match_dollar s = Some n -> dollar_amount (take n s).
Proof.
  unfold match_dollar. destruct s as [|c s1]; [discriminate|].
  destruct (N.eqb_spec c 36) as [->|Hc].
  2:{ intros H. exfalso. destruct c as [|q]; [discriminate H|].
      do 6 (try (destruct q as [q|q|]; try discriminate H)).
      all: try discriminate H. all: congruence. }
  set (P := fun c => is_digit c || (c =? 44)%N).
  pose proof (span_take P s1) as Hrun.
  pose proof (span_take_nonempty P s1) as Hbody.
  destruct (span P s1) as [|k] eqn:Hspan; [discriminate|].
  specialize (Hbody k eq_refl).
  set (run := Datatypes.S k) in *.
  assert (Hshort : dollar_amount (take (1 + run) (36%N :: s1))).
  { exists (take run s1), []. cbn [Nat.add take]. rewrite app_nil_r. auto. }
  assert (Hlong : forall d1 d2 rest,
            drop run s1 = 46%N :: d1 :: d2 :: rest ->
            is_digit d1 && is_digit d2 = true ->
            dollar_amount (take (1 + run + 3) (36%N :: s1))).
  { intros d1 d2 rest Hdrop [H1 H2]%andb_true_iff.
    exists (take run s1), [46%N; d1; d2].
    change (1 + run + 3)%nat with (Datatypes.S (run + 3)). cbn [take].
    rewrite take_add, Hdrop. cbn [take]. rewrite take_0.
    split; [reflexivity|]. split; [exact Hbody|]. split; [exact Hrun|].
    right. eauto. }
  destruct (drop run s1) as [|c1 [|d1 [|d2 rest]]] eqn:Hdrop.
  - intros [= <-]; exact Hshort.
  - intros H. assert (n = (1 + run)%nat) as ->; [|exact Hshort].
    destruct (N.eqb_spec c1 46) as [->|Hc1]; [now injection H as <-|].
    revert H. clear -Hc1. destruct c1 as [|q]; [now intros [= <-]|].
    do 6 (try (destruct q as [q|q|]; try (now intros [= <-]))).
    all: try (now intros [= <-]). all: congruence.
  - intros H. assert (n = (1 + run)%nat) as ->; [|exact Hshort].
    destruct (N.eqb_spec c1 46) as [->|Hc1]; [now injection H as <-|].
    revert H. clear -Hc1. destruct c1 as [|q]; [now intros [= <-]|].
    do 6 (try (destruct q as [q|q|]; try (now intros [= <-]))).
    all: try (now intros [= <-]). all: congruence.
  - destruct (N.eqb_spec c1 46) as [->|Hc1].
    + destruct (is_digit d1 && is_digit d2) eqn:Hd; intros [= <-];
        [eapply Hlong; eauto | exact Hshort].
    + intros H. assert (n = (1 + run)%nat) as ->; [|exact Hshort].
      revert H. clear -Hc1. destruct c1 as [|q]; [now intros [= <-]|].
      do 6 (try (destruct q as [q|q|]; try (now intros [= <-]))).
      all: try (now intros [= <-]). all: congruence.
Qed.

Lemma match_range_shape s n :
  match_range s = Some n -> size_range (take n s).
Proof.
  unfold match_range.
  pose proof (span_take is_digit s) as Hrun1.
  pose proof (span_take_nonempty is_digit s) as Hlow.
  destruct (span is_digit s) as [|k1] eqn:Hspan1; [discriminate|].
  specialize (Hlow k1 eq_refl).
  set (n1 := Datatypes.S k1) in *.
  destruct (drop n1 s) as [|c [|dash s2]] eqn:Hdrop1.
  - discriminate.
  - intros H. exfalso. destruct c as [|q]; [discriminate H|].
    do 7 (try (destruct q as [q|q|]; try discriminate H)).
  - destruct (N.eqb_spec c 75) as [->|Hc].
    2:{ intros H. exfalso. destruct c as [|q]; [discriminate H|].
        do 7 (try (destruct q as [q|q|]; try discriminate H)).
        all: try discriminate H. all: congruence. }
    destruct ((dash =? 8211)%N || (dash =? 45)%N) eqn:Hdash; [|discriminate].
    pose proof (span_take is_digit s2) as Hrun2.
    pose proof (span_take_nonempty is_digit s2) as Hhigh.
    destruct (span is_digit s2) as [|k2] eqn:Hspan2; [discriminate|].
    specialize (Hhigh k2 eq_refl).
    set (n2 := Datatypes.S k2) in *.
    destruct (drop n2 s2) as [|c2 rest] eqn:Hdrop2; [discriminate|].
    destruct (N.eqb_spec c2 75) as [->|Hc2].
    2:{ intros H. exfalso. destruct c2 as [|q]; [discriminate H|].
        do 7 (try (destruct q as [q|q|]; try discriminate H)).
        all: try discriminate H. all: congruence. }
    intros [= Hn].
    exists (take n1 s), dash, (take n2 s2).
    split.
    { replace n with (n1 + (2 + (n2 + 1)))%nat by (subst n1 n2; lia).
      rewrite take_add, Hdrop1. cbn [Nat.add take]. rewrite take_add, Hdrop2.
      reflexivity. }
    repeat (split; [assumption|]).
    apply orb_true_iff in Hdash as [Hd|Hd]; apply N.eqb_eq in Hd; auto.
Qed.

Lemma money_tokens_shape text :
  Forall (fun tok => dollar_amount tok \/ size_range tok)
    (re_findall match_money text).
Proof.
  apply Forall_forall. intros tok Hin. apply list_elem_of_In in Hin.
  destruct (findall_from_matches match_money text None O tok Hin)
    as (pre & rest & n & -> & Hm & -> & _).
  unfold match_money in Hm.
  destruct (match_dollar rest) as [n'|] eqn:Hdollar.
  - injection Hm as <-. left. exact (match_dollar_shape _ _ Hdollar).
  - right. exact (match_range_shape _ _ Hm).
Qed.

Lemma money_tokens_spec text :
  Forall (fun tok =>
            (dollar_token tok \/ range_token tok)
            /\ exists pre post, text = pre ++ tok ++ post)
    (re_findall match_money text).
Proof.
  apply Forall_forall. intros tok Hin. apply list_elem_of_In in Hin.
  destruct (findall_from_matches match_money text None O tok Hin)
    as (pre & rest & n & -> & Hm & -> & _).
  split.
  - unfold match_money in Hm.
    destruct (match_dollar rest) as [n'|] eqn:Hdollar.
    + injection Hm as <-. left. exact (proj1 (match_dollar_token _ _ Hdollar)).
    + right. exact (match_range_token _ _ Hm).
  - exists pre, (drop n rest). now rewrite take_drop.
Qed.

(** X11. Every token the ticker pattern finds in a text is a run of 3
    to 5 capital letters A to Z that stands in the text as a whole word:
    the characters next to it, if any, are not word characters. *)
Theorem stock_tokens_are_whole_capital_words text :
  Forall (fun tok =>
            (3 <= length tok <= 5)%nat
            /\ Forall (fun c => (65 <= c <= 90)%N) tok
            /\ whole_word_of text tok)
    (re_findall match_stock text).
Proof. exact (stock_tokens_spec text). Qed.

(** X12. Every token the money pattern finds in a text is a piece of
    the text, and is of one of two kinds: it starts with the dollar sign and
    has no [K], or it has a [K] and no dollar sign. *)
Theorem money_tokens_are_dollar_amounts_or_ranges text :
  Forall (fun tok =>
            (dollar_token tok \/ range_token tok)
            /\ exists pre post, text = pre ++ tok ++ post)
    (re_findall match_money text).
Proof. exact (money_tokens_spec text). Qed.

(** X28. Every token the money pattern finds is spelled as the pattern
    says: the dollar sign, then one or more digits or commas, then nothing
    or a dot and two digits; or one or more digits, [K], an en dash or a
    hyphen, one or more digits, [K]. *)
Theorem money_tokens_are_spelled_as_the_pattern_says text :
  Forall (fun tok => dollar_amount tok \/ size_range tok)
    (re_findall match_money text).
Proof. exact (money_tokens_shape text). Qed.

Lemma caps_not_space c : (65 <= c <= 90)%N -> is_space c = false.
Proof.
  intros Hc. unfold is_space, between.
  rewrite (proj2 (N.leb_gt c 13)), (proj2 (N.leb_gt c 32)),
    (proj2 (N.leb_gt 8192 c)) by lia.
  repeat match goal with
         | |- context [(c =? ?k)%N] => rewrite (proj2 (N.eqb_neq c k)) by lia
         end.
  now rewrite !andb_false_r.
Qed.

Lemma lstrip_caps tok :
  Forall (fun c => (65 <= c <= 90)%N) tok -> lstrip tok = tok.
Proof.
  destruct 1 as [|c tok Hc _]; [reflexivity|]. cbn.
  now rewrite (caps_not_space c Hc).
Qed.

Lemma str_upper_caps tok :
  Forall (fun c => (65 <= c <= 90)%N) tok -> str_upper tok = tok.
Proof.
  unfold str_upper. induction 1 as [|c tok Hc _ IH]; [reflexivity|].
  cbn [map concat]. rewrite IH. unfold upper_char, between.
  destruct (N.ltb_spec c 128); [|lia].
  destruct (N.leb_spec 97 c); [lia|]. reflexivity.
Qed.

(** A word of capital letters is its own cache key. *)
Lemma normalize_caps tok :
  Forall (fun c => (65 <= c <= 90)%N) tok -> normalize tok = tok.
Proof.
  intros Hcaps. unfold normalize, str_strip.
  rewrite (str_upper_caps _ Hcaps), (lstrip_caps _ Hcaps).
  rewrite lstrip_caps; [apply rev_involutive|].
  apply Forall_forall. intros c Hc. rewrite Forall_forall in Hcaps.
  apply Hcaps. apply list_elem_of_In. apply list_elem_of_In in Hc.
  now apply in_rev.
Qed.

Lemma is_AZ_word c : is_AZ c = true -> is_word c = true.
Proof.
  intros Hc. apply is_AZ_bounds in Hc. unfold is_word, between.
  destruct (N.ltb_spec c 128) as [_|Hbig]; [|lia].
  rewrite (proj2 (N.leb_le 65 c) (proj1 Hc)), (proj2 (N.leb_le c 90) (proj2 Hc)).
  cbn. now rewrite !orb_true_r.
Qed.

Lemma caps_last_word (tok : pystr) :
  tok <> [] -> forallb is_AZ tok = true -> is_word_at (last tok) = true.
Proof.
  intros Hne Hcaps. destruct (last tok) as [c|] eqn:Hlast.
  - cbn. apply is_AZ_word. rewrite forallb_forall in Hcaps. apply Hcaps.
    apply list_elem_of_In. now apply last_Some_elem_of in Hlast.
  - apply last_None in Hlast. congruence.
Qed.

Lemma caps_head_word (tok post : pystr) :
  tok <> [] -> forallb is_AZ tok = true -> is_word_at (head (tok ++ post)) = true.
Proof.
  destruct tok as [|c tok]; [congruence|]. intros _ Hcaps. cbn in *.
  apply andb_true_iff in Hcaps as [Hc _]. now apply is_AZ_word.
Qed.

(** [[A-Z]{k}\b] matches a word of [k] capitals, and no longer run there. *)
Lemma match_caps_exact (tok post : pystr) :
  tok <> [] -> forallb is_AZ tok = true -> is_word_at (head post) = false ->
  match_caps (length tok) (tok ++ post) = true.
Proof.
  intros Hne Hcaps Hpost. unfold match_caps.
  rewrite take_app_length, drop_app_length, Nat.eqb_refl, Hcaps. cbn [andb].
  unfold word_boundary. now rewrite (caps_last_word tok Hne Hcaps), Hpost.
Qed.

Lemma match_caps_too_long (tok post : pystr) j :
  is_word_at (head post) = false -> (length tok < j)%nat ->
  match_caps j (tok ++ post) = false.
Proof.
  intros Hpost Hlen. unfold match_caps.
  destruct post as [|c post].
  - rewrite app_nil_r, take_ge by lia.
    now rewrite (proj2 (Nat.eqb_neq (length tok) j)) by lia.
  - rewrite take_app_ge by lia.
    destruct (j - length tok)%nat as [|m] eqn:Hm; [lia|].
    rewrite firstn_cons, forallb_app. cbn [forallb].
    assert (Hc : is_AZ c = false).
    { destruct (is_AZ c) eqn:Hc; [|reflexivity].
      apply is_AZ_word in Hc. cbn in Hpost. congruence. }
    rewrite Hc. cbn [andb]. now rewrite !andb_false_r.
Qed.

Lemma match_stock_at_word prev (tok post : pystr) :
  (3 <= length tok <= 5)%nat -> forallb is_AZ tok = true ->
  is_word_at prev = false -> is_word_at (head post) = false ->
  match_stock prev (tok ++ post) = Some (length tok).
Proof.
  intros Hlen Hcaps Hprev Hpost.
  assert (Hne : tok <> []) by (destruct tok; [cbn in Hlen; lia | discriminate]).
  unfold match_stock, word_boundary at 1.
  rewrite Hprev, (caps_head_word tok post Hne Hcaps). cbn [xorb].
  pose proof (match_caps_exact tok post Hne Hcaps Hpost) as Hexact.
  destruct (Nat.eq_dec (length tok) 5%nat) as [H5|H5].
  { rewrite H5 in Hexact |- *. now rewrite Hexact. }
  rewrite (match_caps_too_long tok post 5%nat Hpost) by lia.
  destruct (Nat.eq_dec (length tok) 4%nat) as [H4|H4].
  { rewrite H4 in Hexact |- *. now rewrite Hexact. }
  rewrite (match_caps_too_long tok post 4%nat Hpost) by lia.
  assert (H3 : length tok = 3%nat) by lia.
  rewrite H3 in Hexact |- *. now rewrite Hexact.
Qed.

Lemma match_stock_caps prev s n :
  match_stock prev s = Some n ->
  n <> O /\ length (take n s) = n /\ forallb is_AZ (take n s) = true.
Proof.
  unfold match_stock. destruct (word_boundary prev (head s)); [|discriminate].
  intros Hm.
  assert (Hcaps : match_caps n s = true /\ n <> O).
  { destruct (match_caps 5 s) eqn:H5; [injection Hm as <-; split; [assumption|lia]|].
    destruct (match_caps 4 s) eqn:H4; [injection Hm as <-; split; [assumption|lia]|].
    destruct (match_caps 3 s) eqn:H3; [injection Hm as <-; split; [assumption|lia]|].
    discriminate. }
  destruct Hcaps as [Hcaps Hn].
  destruct (match_caps_token n s Hn Hcaps) as (Hlen & Hall & _). auto.
Qed.

(** The search reaches every whole word of 3 to 5 capitals: a match that
    starts before the word ends before it, since the character before the
    word is not a letter. *)
Lemma findall_from_finds_word (tok post : pystr) :
  (3 <= length tok <= 5)%nat -> forallb is_AZ tok = true ->
  is_word_at (head post) = false ->
  forall pre prev skip,
    (skip <= length pre)%nat ->
    is_word_at (match last pre with Some c => Some c | None => prev end) = false ->
    In tok (findall_from match_stock prev skip (pre ++ tok ++ post)).
Proof.
  intros Hlen Hcaps Hpost.
  assert (Hne : tok <> []) by (destruct tok; [cbn in Hlen; lia | discriminate]).
  induction pre as [|c pre IH]; intros prev skip Hskip Hbefore.
  - cbn in Hskip, Hbefore. assert (skip = O) as -> by lia. cbn [app].
    pose proof (match_stock_at_word prev tok post Hlen Hcaps Hbefore Hpost) as Hm.
    destruct tok as [|c tok]; [congruence|]. cbn [app findall_from] in *.
    rewrite Hm. cbn [length]. left.
    exact (take_app_length (c :: tok) post).
  - assert (Hnext : forall k, (k <= length pre)%nat ->
      In tok (findall_from match_stock (Some c) k (pre ++ tok ++ post))).
    { intros k Hk. apply IH; [exact Hk|].
      destruct pre as [|c' pre]; [exact Hbefore|].
      rewrite last_cons in Hbefore.
      destruct (last (c' :: pre)) eqn:Hl; [exact Hbefore|].
      apply last_None in Hl. discriminate. }
    cbn [app findall_from]. destruct skip as [|k].
    2:{ apply Hnext. cbn in Hskip. lia. }
    destruct (match_stock prev (c :: pre ++ tok ++ post)) as [[|n]|] eqn:Hm;
      try (apply Hnext; lia).
    right. apply Hnext.
    destruct (match_stock_caps _ _ _ Hm) as (_ & Hn & Hall).
    destruct (Nat.le_gt_cases n (length pre)) as [Hle|Hgt]; [exact Hle|].
    exfalso.
    (* the match would cover the character before the word *)
    change (c :: pre ++ tok ++ post) with ((c :: pre) ++ tok ++ post) in Hall.
    rewrite take_app_ge in Hall by (cbn; lia).
    rewrite forallb_app in Hall. apply andb_true_iff in Hall as [Hpre _].
    pose proof (caps_last_word (c :: pre) ltac:(discriminate) Hpre) as Hlast.
    destruct (last (c :: pre)) as [c'|]; [|discriminate].
    congruence.
Qed.

(** X27. The ticker pattern misses nothing: every run of 3 to 5 capital
    letters A to Z that stands in a text as a whole word is among the tokens
    the pattern finds there.  With X11, the tokens are exactly those
    words. *)
Theorem stock_pattern_finds_every_capital_word text tok :
  (3 <= length tok <= 5)%nat ->
  Forall (fun c => (65 <= c <= 90)%N) tok ->
  whole_word_of text tok ->
  In tok (re_findall match_stock text).
Proof.
  intros Hlen Hcaps (pre & post & -> & Hpre & Hpost).
  assert (Hall : forallb is_AZ tok = true).
  { apply forallb_forall. intros c Hc. rewrite Forall_forall in Hcaps.
    apply list_elem_of_In in Hc. specialize (Hcaps c Hc).
    unfold is_AZ, between. apply andb_true_iff. split; apply N.leb_le; lia. }
  apply (findall_from_finds_word tok post Hlen Hall Hpost pre None O); [lia|].
  now destruct (last pre).
Qed.
End ScannerExtras.

(** *** The rows of the pattern stage *)

Section RowExtras.
Context {World : Type} {RT : Runtime World}.
Implicit Types (p : Process World).

Lemma keeping_ret {A} (a : A) (P : A -> Prop) :
  P a -> returns_keeping (World:=World) (ret a) P.
Proof. intros H p. exists a, p. auto. Qed.

Lemma keeping_bind {A B} (c : M (Process World) net_event A) k (P : A -> Prop)
    (Q : B -> Prop) :
  returns_keeping c P -> (forall a, P a -> returns_keeping (k a) Q) ->
  returns_keeping (bind c k) Q.
Proof.
  intros Hc Hk p. destruct (Hc p) as (a & p1 & Hrun & Hkeep & Ha).
  destruct (Hk a Ha p1) as (b & p2 & Hrun2 & Hkeep2 & Hb).
  exists b, p2. rewrite (bind_returns _ _ _ _ _ _ Hrun), Hrun2.
  split; [reflexivity|]. split; [congruence | exact Hb].
Qed.

Lemma keeping_on_world {A} (f : World -> A * World) (P : A -> Prop) :
  (forall w, P (fst (f w))) -> returns_keeping (prim (on_world f)) P.
Proof.
  intros H p. unfold prim, on_world. specialize (H (world p)).
  destruct (f (world p)) as [a w]. eexists _, _. split; [reflexivity|].
  split; [reflexivity | exact H].
Qed.

Lemma keeping_randbelow n :
  (0 < n)%nat -> returns_keeping (randbelow n) (fun r => (r < n)%nat).
Proof.
  intros Hn. apply keeping_on_world. intros w.
  destruct (random_source w) as [r w']. cbn. apply Nat.mod_upper_bound. lia.
Qed.

Lemma keeping_randint a b :
  a <= b -> returns_keeping (randint a b) (fun z => a <= z <= b).
Proof.
  intros Hab. unfold randint. eapply keeping_bind.
  - apply keeping_randbelow. lia.
  - intros r Hr. cbn beta in Hr. apply keeping_ret. lia.
Qed.

Lemma keeping_random_choice {A} (seq : list A) :
  seq <> [] -> returns_keeping (random_choice seq) (fun x => In x seq).
Proof.
  destruct seq as [|x seq]; [congruence|]. intros _. unfold random_choice.
  eapply keeping_bind; [apply keeping_randbelow; cbn; lia|].
  intros i Hi. apply keeping_ret. now apply nth_In.
Qed.

Lemma keeping_now : returns_keeping now (fun _ => True).
Proof. apply keeping_on_world. auto. Qed.

Lemma keeping_index {A} (seq : list A) i x :
  seq !! i = Some x -> returns_keeping (index (World:=World) seq i) (eq x).
Proof. intros H. unfold index. rewrite H. now apply keeping_ret. Qed.

(** One row: it is paired with the tokens at its position, its company is
    what the name cache holds for its ticker, and the cache has only grown. *)
Lemma make_trade_run money_amounts stock_symbols i p :
  (i < length money_amounts)%nat -> (i < length stock_symbols)%nat ->
  exists r p' tr,
    make_trade money_amounts stock_symbols i p = (Returns r, p', tr)
    /\ cache_grows p p'
    /\ answer_ok p' (Some (ticker r)) (company r)
    /\ paired_with money_amounts stock_symbols i r
    /\ Forall lookup_event tr
    /\ (length (List.filter is_get tr) <= 1)%nat.
Proof.
  intros Hm Hs.
  destruct (lookup_lt_is_Some_2 _ _ Hm) as [amount Hamount].
  destruct (lookup_lt_is_Some_2 _ _ Hs) as [symbol Hsymbol].
  unfold make_trade.
  destruct (keeping_random_choice politicians ltac:(discriminate) p)
    as (pol & p1 & Hrun1 & Hkeep1 & _).
  rewrite (bind_returns _ _ _ _ _ _ Hrun1).
  unfold index at 1. rewrite Hsymbol, bind_ret_l.
  destruct (get_company_name_step (Some symbol) p1)
    as (company_name & p2 & t2 & Hrun2 & Hok & Hgrow & Htr).
  rewrite (bind_returns _ _ _ _ _ _ Hrun2).
  assert (Hrest : returns_keeping
    (let* now1 := now in
     let* days1 := randint 1 30 in
     let* now2 := now in
     let* days2 := randint 1 15 in
     let* delay := randint 1 30 in
     let* kind := random_choice [lit "Buy"; lit "Sell"] in
     let* amount := index money_amounts i in
     ret {| politician_name := p_name pol;
            party := p_party pol;
            chamber := p_chamber pol;
            state := p_state pol;
            district := lit "Multiple";
            company := company_name;
            ticker := symbol;
            sector := lit "Technology";
            trade_date :=
              Datetime.strftime_ymd (now1 - Datetime.timedelta_days days1);
            disclosure_date :=
              Datetime.strftime_ymd (now2 - Datetime.timedelta_days days2);
            reporting_delay := delay;
            transaction_type := kind;
            trade_size :=
              if contains_char 75 amount then amount else default_trade_size;
            price := if contains_char 36 amount then amount else lit "$150.00";
            owner := lit "Self" |})
    (fun r => ticker r = symbol /\ company r = company_name
              /\ paired_with money_amounts stock_symbols i r)).
  { eapply keeping_bind; [apply keeping_now|]. intros now1 _.
    eapply keeping_bind; [apply keeping_randint; lia|]. intros days1 _.
    eapply keeping_bind; [apply keeping_now|]. intros now2 _.
    eapply keeping_bind; [apply keeping_randint; lia|]. intros days2 _.
    eapply keeping_bind; [apply keeping_randint; lia|]. intros delay _.
    eapply keeping_bind;
      [apply (keeping_random_choice [lit "Buy"; lit "Sell"]); discriminate|].
    intros kind _.
    eapply keeping_bind; [apply (keeping_index _ _ _ Hamount)|]. intros ? <-.
    apply keeping_ret. split; [reflexivity|]. split; [reflexivity|].
    split; [exact Hsymbol|]. exists amount. auto. }
  destruct (Hrest p2) as (r & p3 & Hrun3 & Hkeep3 & Hticker & Hcompany & Hpair).
  rewrite Hrun3. exists r, p3, t2.
  split; [cbn [app]; now rewrite app_nil_r|].
  split; [|split; [|split; [exact Hpair|]]].
  - intros k v Hk. rewrite Hkeep3. apply Hgrow. now rewrite Hkeep1.
  - rewrite Hticker, Hcompany. destruct symbol as [|c cs]; cbn in *;
      [exact Hok | now rewrite Hkeep3].
  - destruct Htr as [->|(t & sleeps & _ & _ & -> & [->| ->])].
    + split; [constructor | cbn; lia].
    + split; [repeat constructor; eauto | cbn; lia].
    + split; [repeat constructor; eauto | cbn; lia].
Qed.

Lemma for_each_make_trade money_amounts stock_symbols idxs : forall p,
  Forall (fun i => (i < length money_amounts)%nat
                   /\ (i < length stock_symbols)%nat) idxs ->
  exists trades p' tr,
    for_each (make_trade money_amounts stock_symbols) idxs p
      = (Returns trades, p', tr)
    /\ cache_grows p p'
    /\ Forall2 (paired_with money_amounts stock_symbols) idxs trades
    /\ Forall (fun r => answer_ok p' (Some (ticker r)) (company r)) trades
    /\ Forall lookup_event tr
    /\ (length (List.filter is_get tr) <= length idxs)%nat.
Proof.
  induction idxs as [|i idxs IH]; intros p Hidx.
  - exists [], p, []. split; [reflexivity|]. split; [now intros k v|].
    repeat split; constructor.
  - apply Forall_cons in Hidx as [[Hm Hs] Hidx].
    destruct (make_trade_run _ _ i p Hm Hs)
      as (r & p1 & t1 & Hrun & Hgrow & Hok & Hpair & Hev & Hget).
    destruct (IH p1 Hidx)
      as (trades & p2 & t2 & Hrest & Hgrow2 & Hpairs & Hoks & Hevs & Hgets).
    exists (r :: trades), p2, (t1 ++ t2). split.
    { cbn [for_each]. rewrite (bind_returns _ _ _ _ _ _ Hrun).
      rewrite (bind_returns _ _ _ _ _ _ Hrest). cbn. now rewrite app_nil_r. }
    split; [intros k v Hk; auto|]. split; [now constructor|].
    split; [constructor; [eapply answer_ok_grows; eauto | exact Hoks]|].
    split; [now apply Forall_app|].
    rewrite List.filter_app, length_app. cbn [length]. lia.
Qed.

Lemma generate_pattern_based_trades_run money_amounts stock_symbols p :
  exists trades p' tr,
    generate_pattern_based_trades money_amounts stock_symbols p
      = (Returns trades, p', tr)
    /\ length trades
       = Nat.min 10 (Nat.min (length money_amounts) (length stock_symbols))
    /\ (forall i r, trades !! i = Some r ->
          paired_with money_amounts stock_symbols i r
          /\ answer_ok p' (Some (ticker r)) (company r))
    /\ cache_grows p p'
    /\ Forall lookup_event tr
    /\ (length (List.filter is_get tr) <= length trades)%nat.
Proof.
  unfold generate_pattern_based_trades.
  set (n := Nat.min 10 (Nat.min (length money_amounts) (length stock_symbols))).
  destruct (for_each_make_trade money_amounts stock_symbols (seq 0 n) p)
    as (trades & p' & tr & Hrun & Hgrow & Hpairs & Hoks & Hevs & Hgets).
  { apply Forall_forall. intros i Hi. apply list_elem_of_In, in_seq in Hi. lia. }
  exists trades, p', tr. split; [exact Hrun|].
  split; [now rewrite <- (Forall2_length _ _ _ Hpairs), length_seq|].
  split; [|split; [exact Hgrow|split; [exact Hevs|]]].
  2:{ now rewrite <- (Forall2_length _ _ _ Hpairs). }
  intros i r Hr. split.
  - assert (Hi : seq 0 n !! i = Some i).
    { apply (lookup_seq_lt 0 n i).
      pose proof (lookup_lt_Some _ _ _ Hr) as Hlt.
      pose proof (Forall2_length _ _ _ Hpairs) as Hlen.
      rewrite length_seq in Hlen. lia. }
    exact (Forall2_lookup_lr _ _ _ _ _ _ Hpairs Hi Hr).
  - rewrite Forall_forall in Hoks. apply Hoks.
    eapply list_elem_of_lookup_2; eauto.
Qed.

(** X13. [_generate_pattern_based_trades] never raises and returns
    min(10, number of amounts, number of symbols) rows.  Row [i] has the
    symbol at position [i] as its ticker, takes its trade size and its price
    from the amount at position [i] (the amount itself where it has a [K],
    respectively a dollar sign, the default otherwise), and has as its
    company the name the cache holds for its ticker afterwards ("Unknown
    Company" for an empty symbol).  No entry of the name cache is dropped or
    changed. *)
Theorem generate_pattern_based_trades_pairs_positions
    money_amounts stock_symbols p :
  exists trades p' tr,
    generate_pattern_based_trades money_amounts stock_symbols p
      = (Returns trades, p', tr)
    /\ length trades
       = Nat.min 10 (Nat.min (length money_amounts) (length stock_symbols))
    /\ (forall i r, trades !! i = Some r ->
          paired_with money_amounts stock_symbols i r
          /\ answer_ok p' (Some (ticker r)) (company r))
    /\ cache_grows p p'.
Proof.
  destruct (generate_pattern_based_trades_run money_amounts stock_symbols p)
    as (trades & p' & tr & Hrun & Hlen & Hrows & Hgrow & _).
  exists trades, p', tr. auto.
Qed.

Lemma extract_content_patterns_run page_text p :
  exists trades p' tr,
    extract_content_patterns page_text p = (Returns trades, p', tr)
    /\ (forall i r, trades !! i = Some r ->
         re_findall match_stock page_text !! i = Some (ticker r)
         /\ cache (company_lookup p') !! ticker r = Some (company r)
         /\ exists amount,
              re_findall match_money page_text !! i = Some amount
              /\ ((dollar_token amount /\ price r = amount
                   /\ trade_size r = default_trade_size)
                  \/ (range_token amount /\ trade_size r = amount
                      /\ price r = lit "$150.00")))
    /\ Forall lookup_event tr
    /\ (length (List.filter is_get tr) <= length trades <= 10)%nat.
Proof.
  unfold extract_content_patterns.
  destruct ((5 <? length (re_findall match_money page_text))%nat
            && (5 <? length (re_findall match_stock page_text))%nat).
  2:{ exists [], p, []. split; [reflexivity|].
      split; [intros i r Hr; discriminate|].
      split; [constructor | cbn; lia]. }
  destruct (generate_pattern_based_trades_run
              (take 20 (re_findall match_money page_text))
              (take 20 (re_findall match_stock page_text)) p)
    as (trades & p' & tr & Hrun & Hcount & Hrows & _ & Hevs & Hgets).
  exists trades, p', tr. split; [exact Hrun|].
  split; [|split; [exact Hevs | lia]].
  intros i r Hr. destruct (Hrows i r Hr) as [[Hsym (amount & Ham & Hsize & Hprice)] Hok].
  apply lookup_take_Some in Hsym as [Hsym _].
  apply lookup_take_Some in Ham as [Ham _].
  pose proof (stock_tokens_spec page_text) as Hstock.
  pose proof (money_tokens_spec page_text) as Hmoney.
  rewrite Forall_forall in Hstock, Hmoney.
  destruct (Hstock _ (list_elem_of_lookup_2 _ _ _ Hsym)) as (Hlen & Hcaps & _).
  destruct (Hmoney _ (list_elem_of_lookup_2 _ _ _ Ham)) as (Hkind & _).
  split; [exact Hsym|]. split.
  - unfold answer_ok in Hok. rewrite (normalize_caps _ Hcaps) in Hok.
    destruct (ticker r); [cbn in Hlen; lia | exact Hok].
  - exists amount. split; [exact Ham|].
    destruct Hkind as [[Hhead HK]|[HK Hdollar]].
    + left. split; [split; assumption|].
      rewrite HK in Hsize.
      assert (Hd : contains_char 36 amount = true).
      { destruct amount as [|c amount]; [discriminate|].
        injection Hhead as ->. reflexivity. }
      rewrite Hd in Hprice. auto.
    + right. split; [split; assumption|].
      rewrite HK in Hsize. rewrite Hdollar in Hprice. auto.
Qed.

(** X14. [_extract_content_patterns] never raises, and the rows it
    returns follow the tokens of the page in order: row [i] has the [i]-th
    ticker token of the page as its ticker and the name the cache holds
    under that very token as its company; its amount is the [i]-th money
    token, which is its price (with the default trade size) when it is a
    dollar amount, and its trade size (with the price "$150.00") when it is
    a range. *)
Theorem extract_content_patterns_rows_come_from_page page_text p :
  exists trades p' tr,
    extract_content_patterns page_text p = (Returns trades, p', tr)
    /\ forall i r, trades !! i = Some r ->
         re_findall match_stock page_text !! i = Some (ticker r)
         /\ cache (company_lookup p') !! ticker r = Some (company r)
         /\ exists amount,
              re_findall match_money page_text !! i = Some amount
              /\ ((dollar_token amount /\ price r = amount
                   /\ trade_size r = default_trade_size)
                  \/ (range_token amount /\ trade_size r = amount
                      /\ price r = lit "$150.00")).
Proof.
  destruct (extract_content_patterns_run page_text p)
    as (trades & p' & tr & Hrun & Hrows & _).
  exists trades, p', tr. auto.
Qed.
End RowExtras.

(** *** The cache of the manager *)

Section ManagerExtras.
Context {S E : Type}.
Variable clock : S -> Z * S.

Implicit Types (s : S) (fs : list (DataFetcherBase S E)) (tr : list (mgr_event E)).

(** The frame the loop returns is one a [fetch_data] call of a listed
    fetcher returned, after its [is_available] returned true. *)
Lemma fetch_loop_source fs : forall i s d l s' tr,
  fetch_loop i fs s = (Returns (Some (d, l)), s', tr) ->
  exists f s0 s1 t1 s2 t2,
    In f fs /\ l = name f /\ d <> []
    /\ is_available f s0 = (Returns true, s1, t1)
    /\ fetch_data f s1 = (Returns d, s2, t2).
Proof.
  induction fs as [|f rest IH]; intros i s d l s' tr; [discriminate|].
  cbn [fetch_loop]. unfold bind.
  destruct (try_fetcher_attempt i f s) as (r0 & s1 & t1 & -> & Hat).
  destruct r0 as [[d0 l0]|].
  - cbn. intros [= <- <- <- <-].
    inversion Hat as [| |s0 s1' t1' d1 s2 t2 Ha Hd Hne]; subst.
    exists f, s, s1', t1', s1, t2. repeat split; auto; now left.
  - destruct (fetch_loop (Datatypes.S i) rest s1) as [[r2 s2] t2] eqn:Hrest.
    destruct r2 as [r2|e]; [|discriminate]. intros [= -> <- <-].
    destruct (IH _ _ _ _ _ _ Hrest) as (g & s0 & s1' & t1' & s2' & t2' & Hin & Hrest').
    exists g, s0, s1', t1', s2', t2'. split; [now right | exact Hrest'].
Qed.

(** X15. [get_data] never raises, whatever its sources do: an
    exception raised by [is_available] or [fetch_data] of a source does not
    reach the caller.  When a [fetch_data] call made during the call
    returned rows, these rows are the frame the call returns, and the
    manager it leaves is the one it was called on with these rows as its
    cached frame; when none did, the manager is left as it was. *)
Theorem get_data_never_raises force (self : DataManager S E) s :
  exists data source self' s' tr,
    get_data clock force self s = (Returns (data, source, self'), s', tr)
    /\ (forall i d, In (FetchData i (Returns d)) tr -> d <> [] ->
          data = d /\ exists now, self' = refreshed self now d)
    /\ (Forall (fun ev => successful_fetch ev = false) tr -> self' = self).
Proof.
  destruct (get_data_cases clock force self s) as (b & s0 & _ & Hiff & _ & Hcase).
  destruct b.
  - destruct Hcase as (r & s1 & tr1 & _ & Hfacts & ->).
    destruct r as [[d l]|].
    + destruct Hfacts as (_ & _ & _ & Hd & j & f & before & _ & _ & -> & Hbefore).
      eexists _, _, _, _, _. split; [reflexivity|]. split.
      * intros i d' Hin Hd'.
        assert (Hev : successful_fetch (FetchData (E:=E) i (Returns d')) = true)
          by (destruct d'; [congruence | reflexivity]).
        pose proof (no_success_last _ _ _ _ Hev Hbefore Hin) as Heq.
        injection Heq as _ <-. eauto.
      * intros Hno. apply Forall_cons in Hno as [_ Hno].
        apply Forall_app in Hno as [_ Hno]. apply Forall_cons in Hno as [Hno _].
        destruct d; [congruence | discriminate].
    + destruct Hfacts as (_ & _ & _ & Hno & _).
      assert (Hnone : forall i d, In (FetchData i (Returns d)) (FetchFresh :: tr1) ->
                                  d <> [] -> False).
      { intros i d [Hin|Hin] Hd; [discriminate|].
        unfold no_success in Hno. rewrite Forall_forall in Hno.
        apply list_elem_of_In in Hin. specialize (Hno _ Hin).
        destruct d; [congruence | discriminate]. }
      destruct (cached_data self) as [d|] eqn:Hc;
        eexists _, _, _, _, _;
        (split; [reflexivity|]; split; [|intros _; reflexivity]);
        intros i d' Hin Hd'; destruct (Hnone i d' Hin Hd').
  - rewrite Hcase. eexists _, _, _, _, _. split; [reflexivity|].
    split; [intros i d [] | intros _; reflexivity].
Qed.




(** X18. [get_cache_status] and [get_data] draw the line at different
    places.  For a manager that holds a frame fetched at [t], the status
    reports [cache_valid] exactly when the clock reads less than the cache
    duration past [t], while an unforced [get_data] serves the cache
    without calling a source exactly when it reads no more than the cache
    duration past [t]: when the age is exactly the cache duration the status
    says the cache is not valid, and [get_data] serves it all the same. *)
Theorem cache_valid_disagrees_with_get_data_at_expiry (self : DataManager S E)
    s d t :
  last_fetch_time self = Some t ->
  cached_data self = Some d ->
  exists status s1,
    get_cache_status clock self s = (Returns (status, self), s1, [])
    /\ status_entry "cache_valid" status
       = Some (PBool (fst (clock s) - t <? cache_duration self))
    /\ (trace_of (get_data clock false self s) = []
        <-> fst (clock s) - t <= cache_duration self)
    /\ (fst (clock s) - t = cache_duration self ->
        status_entry "cache_valid" status = Some (PBool false)
        /\ get_data clock false self s
           = (Returns (d, cached_label (Some t), self), snd (clock s), [])).
Proof.
  intros Hl Hc.
  assert (Hstatus : exists status s1,
    get_cache_status clock self s = (Returns (status, self), s1, [])
    /\ status_entry "cache_valid" status
       = Some (PBool (fst (clock s) - t <? cache_duration self))).
  { unfold get_cache_status. rewrite Hl.
    unfold bind, datetime_now, prim, ret. destruct (clock s) as [now s1]. cbn [fst].
    eexists _, _. split; [reflexivity|].
    unfold status_entry. cbn.
    repeat (destruct (decide _) as [Heq|_]; [vm_compute in Heq; discriminate|]).
    destruct (decide _) as [_|Hne]; [|exfalso; apply Hne; reflexivity].
    do 2 f_equal.
    destruct (Z.ltb_spec 0 (cache_duration self - (now - t)));
      destruct (Z.ltb_spec (now - t) (cache_duration self)); auto; lia. }
  destruct Hstatus as (status & s1 & Hrun & Hvalid).
  exists status, s1. split; [exact Hrun|]. split; [exact Hvalid|].
  destruct (get_data_cases clock false self s) as (b & s0 & _ & Hiff & Hs0 & Hcase).
  assert (Hb : b = true <-> cache_duration self < fst (clock s) - t).
  { rewrite Hiff. split.
    - intros [H|[H|[H|(t' & Ht' & H)]]]; try congruence.
    - intros H. right. right. right. eauto. }
  split.
  - destruct b.
    + destruct Hcase as (r & s2 & tr1 & _ & _ & ->).
      assert (cache_duration self < fst (clock s) - t) by now apply Hb.
      split; [|lia]. destruct r as [[d' l]|]; discriminate.
    + rewrite Hcase. cbn. split; [|reflexivity]. intros _.
      destruct (Z.le_gt_cases (fst (clock s) - t) (cache_duration self)) as [H|H];
        [exact H|]. apply Hb in H. discriminate.
  - intros Hage. split.
    + rewrite Hvalid. do 2 f_equal. apply Z.ltb_ge. lia.
    + destruct b.
      * assert (cache_duration self < fst (clock s) - t) by now apply Hb. lia.
      * now rewrite Hcase, Hc, Hl, (Hs0 eq_refl).
Qed.

(** X19. In a reachable state in which a fetch has succeeded at [t],
    the status reports the number of rows of the cached frame, which is not
    zero, as [total_records], the time [t] as [last_updated], and a number
    of remaining minutes that is never negative, is at most 30 unless the
    clock reads a time before [t], and is 0 whenever [cache_valid] is
    false. *)
Theorem get_cache_status_after_fetch_values fs (self : DataManager S E) s t :
  reachable clock fs self ->
  last_fetch_time self = Some t ->
  exists status s1 d remaining,
    get_cache_status clock self s = (Returns (status, self), s1, [])
    /\ cached_data self = Some d /\ d <> []
    /\ status_entry "total_records" status = Some (PInt (Z.of_nat (length d)))
    /\ status_entry "last_updated" status
       = Some (PStr (Datetime.strftime_ymd_hms t))
    /\ status_entry "cache_remaining_minutes" status = Some (PInt remaining)
    /\ 0 <= remaining
    /\ (t <= fst (clock s) -> remaining <= 30)
    /\ (status_entry "cache_valid" status = Some (PBool false) -> remaining = 0).
Proof.
  intros Hreach Hl.
  apply (reachable_consistent clock) in Hreach as (_ & Hdur & Hinv).
  destruct Hinv as [[Hl' _]|(t' & d & Hl' & Hc & Hd)]; [congruence|].
  unfold get_cache_status. rewrite Hl, Hc, Hdur.
  unfold bind, datetime_now, prim, ret. destruct (clock s) as [now s1]. cbn [fst].
  eexists _, _, d, _. split; [reflexivity|].
  split; [reflexivity|]. split; [exact Hd|].
  unfold status_entry. cbn.
  repeat split.
  - apply Z.le_max_l.
  - intros Hnow. apply Z.max_lub; [lia|]. unfold Datetime.whole_minutes.
    apply Z.quot_le_upper_bound; [lia|]. unfold Datetime.timedelta_minutes. lia.
  - intros [= Hvalid]. apply Z.ltb_ge in Hvalid.
    apply Z.max_l. unfold Datetime.whole_minutes.
    apply Z.quot_le_upper_bound; [lia|]. lia.
Qed.


(** X26. What [get_data] and [get_cache_status] keep of the manager,
    however they are called: its sources and its cache duration of 30
    minutes never change, and it holds either neither a frame nor a fetch
    time, or both, and then the frame has rows: an empty frame is never
    cached. *)
Theorem reachable_manager_invariant fs (self : DataManager S E) :
  reachable clock fs self ->
  fetchers self = fs
  /\ cache_duration self = Datetime.timedelta_minutes 30
  /\ ((last_fetch_time self = None /\ cached_data self = None)
      \/ exists t d, last_fetch_time self = Some t
                     /\ cached_data self = Some d /\ d <> []).
Proof. exact (reachable_consistent clock fs self). Qed.

End ManagerExtras.

Section ConfiguredExtras.
Context {World : Type} {RT : Runtime World}.

Lemma pattern_rows_range page_text :
  pattern_rows page_text = O \/ (6 <= pattern_rows page_text <= 10)%nat.
Proof.
  unfold pattern_rows.
  destruct (Nat.ltb_spec 5 (length (re_findall match_money page_text)));
    destruct (Nat.ltb_spec 5 (length (re_findall match_stock page_text)));
    cbn [andb]; auto. right. lia.
Qed.

Lemma HTML_fetch_data_rows :
  returns_with HTML_fetch_data
    (fun df => (df = [] \/ (6 <= length df <= 10)%nat) /\ Forall synthesized df).
Proof.
  unfold HTML_fetch_data. apply returns_try_except.
  2:{ intros e. apply returns_ret. split; [now left | constructor]. }
  apply ensures_bind. intros response.
  destruct (negb (status_code response =? 200)).
  { apply ensures_returns, returns_ret. split; [now left | constructor]. }
  apply ensures_bind. intros soup.
  apply ensures_bind. intros embedded.
  assert (Hpatterns : ensures
    (let* trades_data := extract_content_patterns (text response) in ret trades_data)
    (fun df => (df = [] \/ (6 <= length df <= 10)%nat) /\ Forall synthesized df)).
  { apply ensures_returns. eapply returns_bind;
      [apply extract_content_patterns_synthesized|].
    intros trades [Hall Hlen]. apply returns_ret. split; [|exact Hall].
    destruct (pattern_rows_range (text response)) as [H0|H6].
    - left. apply length_zero_iff_nil. congruence.
    - right. rewrite Hlen. exact H6. }
  destruct embedded as [data|]; [|exact Hpatterns].
  destruct (truthy data); [|exact Hpatterns].
  apply ensures_bind. intros _. apply ensures_returns, returns_ret.
  split; [now left | constructor].
Qed.

(** Whatever the loop over the two configured sources returns came from the
    HTML source. *)
Lemma configured_loop_source i p d l p' tr :
  fetch_loop i (fetchers data_manager) p = (Returns (Some (d, l)), p', tr) ->
  l = HTML_name /\ (6 <= length d <= 10)%nat /\ Forall synthesized d.
Proof.
  intros Hrun.
  destruct (fetch_loop_source _ _ _ _ _ _ _ Hrun)
    as (f & p0 & p1 & t1 & p2 & t2 & Hin & -> & Hd & _ & Hfetch).
  destruct Hin as [<-|[<-|[]]]; cbn in Hfetch.
  - destruct (HTML_fetch_data_rows p1) as (df & p3 & t3 & Hrows & Hlen & Hall).
    rewrite Hrows in Hfetch. injection Hfetch as <- _ _.
    split; [reflexivity|]. split; [|exact Hall].
    destruct Hlen as [->|Hlen]; [congruence | exact Hlen].
  - destruct (API_fetch_data_empty p1) as (df & p3 & t3 & Hrows & <-).
    rewrite Hrows in Hfetch. injection Hfetch as <- _ _. congruence.
Qed.

Lemma reachable_cache_rows self :
  reachable (on_world wall_clock) (fetchers data_manager) self ->
  forall d, cached_data self = Some d ->
            (6 <= length d <= 10)%nat /\ Forall synthesized d.
Proof.
  induction 1 as [| force self p data source self' p' tr Hreach IH Hrun
                  | self p status self' p' tr Hreach IH Hrun].
  - discriminate.
  - apply (reachable_consistent (on_world wall_clock)) in Hreach as (Hfs & _).
    destruct (get_data_cases (on_world wall_clock) force self p)
      as (b & p0 & _ & _ & _ & Hcase).
    destruct b.
    + destruct Hcase as (r & p1 & tr1 & Hloop & _ & Heq). rewrite Heq in Hrun.
      destruct r as [[d l]|].
      * injection Hrun as <- <- <- <- <-. cbn. intros d' [= <-].
        rewrite Hfs in Hloop. now apply configured_loop_source in Hloop.
      * destruct (cached_data self) eqn:Hc; injection Hrun as <- <- <- <- <-;
          intros d' Hd'; apply IH; congruence.
    + rewrite Hcase in Hrun. injection Hrun as <- <- <- <- <-. exact IH.
  - destruct (get_cache_status_run (on_world wall_clock) self p)
      as (st & p0 & Heq & _).
    rewrite Heq in Hrun. injection Hrun as <- <- <- <-. exact IH.
Qed.

(** X20. With the two configured sources, in every reachable state,
    [get_congressional_data] returns, and what it returns is either the
    empty frame labelled "No source available", or a frame of 6 to 10
    synthesized rows labelled with the name of the HTML source or as cached
    data: the API source never supplies the rows. *)
Theorem get_congressional_data_rows force self p :
  reachable (on_world wall_clock) (fetchers data_manager) self ->
  exists data source self' p' tr,
    get_congressional_data force self p = (Returns (data, source, self'), p', tr)
    /\ ((data = [] /\ source = lit "No source available")
        \/ ((6 <= length data <= 10)%nat
            /\ Forall synthesized data
            /\ (source = HTML_name
                \/ exists t, source = cached_label (Some t)))).
Proof.
  intros Hreach.
  pose proof (reachable_cache_rows self Hreach) as Hcache.
  apply (reachable_consistent (on_world wall_clock)) in Hreach as (Hfs & _ & Hinv).
  unfold get_congressional_data.
  destruct (get_data_cases (on_world wall_clock) force self p)
    as (b & p0 & _ & Hiff & _ & Hcase).
  destruct b.
  - destruct Hcase as (r & p1 & tr1 & Hloop & _ & ->).
    destruct r as [[d l]|].
    + rewrite Hfs in Hloop. apply configured_loop_source in Hloop as (-> & Hlen & Hall).
      eexists _, _, _, _, _. split; [reflexivity|]. right. auto.
    + destruct Hinv as [[Hl Hc]|(t & d & Hl & Hc & Hd)]; rewrite Hc.
      * eexists _, _, _, _, _. split; [reflexivity|]. now left.
      * eexists _, _, _, _, _. split; [reflexivity|]. right.
        destruct (Hcache d Hc) as [Hlen Hall]. rewrite Hl. eauto 6.
  - rewrite Hcase.
    destruct Hinv as [[Hl Hc]|(t & d & Hl & Hc & Hd)].
    + assert (false = true) by (apply Hiff; tauto). discriminate.
    + rewrite Hc, Hl. eexists _, _, _, _, _. split; [reflexivity|]. right.
      destruct (Hcache d Hc) as [Hlen Hall]. eauto 6.
Qed.

End ConfiguredExtras.

(** *** The filters of the dashboard *)

Section FilterProofs.
Variable date_mask : list pystr -> Z -> Z -> outcome (list bool).

Lemma filter_sublist {A} (f : A -> bool) (l : list A) :
  List.filter f l `sublist_of` l.
Proof.
  induction l as [|x l IH]; [constructor|]. cbn.
  destruct (f x); now constructor.
Qed.

Lemma filter_filter {A} (f g : A -> bool) (l : list A) :
  List.filter f (List.filter g l) = List.filter (fun x => g x && f x) l.
Proof.
  induction l as [|x l IH]; [reflexivity|]. cbn.
  destruct (g x); cbn; [destruct (f x)|]; now rewrite IH.
Qed.

Lemma select_sublist mask : forall df, select mask df `sublist_of` df.
Proof.
  unfold select. induction mask as [|b mask IH]; intros [|r df]; cbn;
    try apply sublist_nil_l.
  destruct b; cbn; constructor; apply IH.
Qed.

Lemma sublist_In {A} (l1 l2 : list A) x :
  l1 `sublist_of` l2 -> In x l1 -> In x l2.
Proof.
  induction 1 as [|y l1 l2 _ IH|y l1 l2 _ IH]; cbn; [auto| |]; intuition.
Qed.

Lemma keep_equal_filter column choice df :
  keep_equal column choice df
  = List.filter (fun r => chosen choice (column r)) df.
Proof.
  unfold keep_equal, chosen. destruct choice as [v|]; [|now rewrite filter_true].
  destruct (decide (v = lit "All")) as [Hall|Hsel].
  - rewrite (bool_decide_eq_false_2 (v <> lit "All")) by tauto.
    rewrite (bool_decide_eq_true_2 _ Hall). cbn. now rewrite filter_true.
  - rewrite (bool_decide_eq_true_2 _ Hsel), (bool_decide_eq_false_2 _ Hsel).
    reflexivity.
Qed.

(** The four selections, one after the other, are one filter. *)
Lemma selections_filter filters df :
  keep_equal transaction_type (f_transaction filters)
    (keep_equal chamber (f_chamber filters)
       (keep_equal party (f_party filters)
          (keep_equal politician_name (f_politician filters) df)))
  = List.filter (selected filters) df.
Proof.
  rewrite !keep_equal_filter, !filter_filter. apply filter_ext.
  intros r. unfold selected. now rewrite !andb_assoc.
Qed.

Lemma no_filters_passes filters r : no_filters filters = true -> passes filters r = true.
Proof.
  unfold no_filters, passes, selected.
  destruct (f_politician filters), (f_party filters), (f_chamber filters),
    (f_transaction filters), (f_start_date filters), (f_end_date filters),
    (f_trade_sizes filters); try discriminate. reflexivity.
Qed.

(** [apply_filters], case by case. *)
Lemma apply_filters_cases df filters :
  (apply_filters date_mask df filters = Returns df
   /\ (df = [] \/ no_filters filters = true))
  \/ (df <> [] /\ no_filters filters = false
      /\ let chosen_rows := List.filter (selected filters) df in
         let sizes r := size_chosen (f_trade_sizes filters) (trade_size r) in
         match f_start_date filters, f_end_date filters with
         | Some start_date, Some end_date =>
             match date_mask (map trade_date chosen_rows) start_date end_date with
             | Returns mask =>
                 apply_filters date_mask df filters
                 = Returns (List.filter sizes (select mask chosen_rows))
             | Raises e => apply_filters date_mask df filters = Raises e
             end
         | _, _ =>
             apply_filters date_mask df filters
             = Returns (List.filter sizes chosen_rows)
         end).
Proof.
  unfold apply_filters.
  destruct df as [|row df]; [left; auto|].
  destruct (no_filters filters) eqn:Hno; [left; auto|].
  right. split; [discriminate|]. split; [reflexivity|].
  cbn [empty orb]. rewrite selections_filter.
  set (rows := List.filter (selected filters) (row :: df)).
  assert (Hsizes : forall rows',
    match f_trade_sizes filters with
    | Some (size :: sizes) =>
        Returns (List.filter
                   (fun r => bool_decide (trade_size r ∈ size :: sizes)) rows')
    | _ => Returns rows'
    end
    = Returns (List.filter
                 (fun r => size_chosen (f_trade_sizes filters) (trade_size r))
                 rows')).
  { intros rows'. unfold size_chosen.
    destruct (f_trade_sizes filters) as [[|size sizes]|];
      rewrite ?filter_true; reflexivity. }
  cbv zeta.
  destruct (f_start_date filters) as [start_date|];
    destruct (f_end_date filters) as [end_date|]; try apply Hsizes.
  destruct (date_mask (map trade_date rows) start_date end_date) as [mask|e];
    [apply Hsizes | reflexivity].
Qed.

(** X21. Whenever [apply_filters] returns, the frame it returns is made
    of rows of the frame it was given, in their order, and each of them
    passes the filters: for each of the four selections (politician, party,
    chamber, transaction type) that is present and is not "All", the row has
    the selected value, and when a non-empty list of trade sizes is given,
    the trade size of the row is in it. *)
Theorem apply_filters_keeps_passing_rows df filters out :
  apply_filters date_mask df filters = Returns out ->
  out `sublist_of` df /\ Forall (fun r => passes filters r = true) out.
Proof.
  intros Hrun.
  destruct (apply_filters_cases df filters) as [[Heq Hwhy]|(_ & _ & Hcase)].
  { rewrite Heq in Hrun. injection Hrun as <-. split; [reflexivity|].
    destruct Hwhy as [->|Hno]; [constructor|].
    apply Forall_forall. intros r _. now apply no_filters_passes. }
  cbv zeta in Hcase.
  assert (Hgoal : forall rows,
    rows `sublist_of` List.filter (selected filters) df ->
    let out := List.filter
                 (fun r => size_chosen (f_trade_sizes filters) (trade_size r))
                 rows in
    out `sublist_of` df /\ Forall (fun r => passes filters r = true) out).
  { intros rows Hsub out'. split.
    - etrans; [apply filter_sublist|]. etrans; [exact Hsub|].
      apply filter_sublist.
    - apply Forall_forall. intros r Hr. apply list_elem_of_In in Hr.
      apply filter_In in Hr as [Hr Hsize].
      apply (sublist_In _ _ _ Hsub) in Hr. apply filter_In in Hr as [_ Hsel].
      unfold passes. now rewrite Hsel, Hsize. }
  destruct (f_start_date filters) as [start_date|];
    destruct (f_end_date filters) as [end_date|];
    try (rewrite Hcase in Hrun; injection Hrun as <-; now apply Hgoal).
  destruct (date_mask _ start_date end_date) as [mask|e];
    rewrite Hcase in Hrun; [|discriminate].
  injection Hrun as <-. apply Hgoal, select_sublist.
Qed.

(** X22. When the filters do not carry both dates, [apply_filters]
    never raises, and the six steps amount to one filter: it returns exactly
    the rows of the frame that pass the four selections and the trade
    sizes, in their order.  A selection that is absent or "All" lets every
    row through, and so does a list of trade sizes that is absent or
    empty. *)
Theorem apply_filters_without_dates df filters :
  f_start_date filters = None \/ f_end_date filters = None ->
  apply_filters date_mask df filters = Returns (List.filter (passes filters) df).
Proof.
  intros Hdates.
  destruct (apply_filters_cases df filters) as [[Heq Hwhy]|(_ & _ & Hcase)].
  { rewrite Heq. f_equal. destruct Hwhy as [->|Hno]; [reflexivity|].
    rewrite (filter_ext (passes filters) (fun _ => true)), filter_true;
      [reflexivity|].
    intros r. now apply no_filters_passes. }
  cbv zeta in Hcase. unfold passes.
  rewrite <- filter_filter.
  destruct Hdates as [Hd|Hd]; rewrite Hd in Hcase;
    [|destruct (f_start_date filters)]; exact Hcase.
Qed.

(** X23. [apply_filters] raises only out of the date conversion: when
    it raises, the frame is not empty, both dates are present, and the
    exception is the one the conversion raised on the trade dates of the
    rows that pass the four selections.  On the empty frame, and with the
    empty dict, it does not raise. *)
Theorem apply_filters_raises_only_from_dates df filters e :
  apply_filters date_mask df filters = Raises e ->
  df <> []
  /\ exists start_date end_date,
       f_start_date filters = Some start_date
       /\ f_end_date filters = Some end_date
       /\ date_mask (map trade_date (List.filter (selected filters) df))
            start_date end_date = Raises e.
Proof.
  intros Hrun.
  destruct (apply_filters_cases df filters) as [[Heq _]|(Hdf & _ & Hcase)];
    [congruence|].
  split; [exact Hdf|]. cbv zeta in Hcase.
  destruct (f_start_date filters) as [start_date|];
    destruct (f_end_date filters) as [end_date|]; try congruence.
  exists start_date, end_date. split; [reflexivity|]. split; [reflexivity|].
  destruct (date_mask _ start_date end_date) as [mask|e']; congruence.
Qed.

End FilterProofs.

(** *** Requests *)

Section RequestBudget.
Context {World : Type} {RT : Runtime World}.
Implicit Types (p : Process World).

(** What [fetch_data] of the HTML source comes to: nothing after the one
    request, or the rows of the pattern stage on the text of the page. *)
Lemma HTML_fetch_data_cases p :
  let p1 := with_world (snd (http_get HTML_base_url 15 (world p))) p in
  (exists p', HTML_fetch_data p = (Returns [], p', [HttpGet HTML_base_url 15]))
  \/ exists response trades p2 tr2,
       fst (http_get HTML_base_url 15 (world p)) = Returns response
       /\ extract_content_patterns (text response) p1 = (Returns trades, p2, tr2)
       /\ HTML_fetch_data p
          = (Returns trades, p2, HttpGet HTML_base_url 15 :: tr2).
Proof.
  intros p1.
  destruct (status_is_200 (fst (http_get HTML_base_url 15 (world p)))) eqn:H200;
    [|left; exists p1; exact (HTML_fetch_data_bad_reply p H200)].
  destruct (fst (http_get HTML_base_url 15 (world p))) as [response|e] eqn:Hreply;
    [|discriminate].
  cbn [status_is_200] in H200.
  pose proof (session_get_run HTML_base_url 15 p) as Hget.
  rewrite Hreply in Hget. fold p1 in Hget.
  assert (Hbody :
    (forall df p' tr,
       (let* soup := of_outcome (soup_scripts response) in
        let* embedded := extract_embedded_data soup in
        match embedded with
        | Some data =>
            if truthy data then py_len data ;;; process_embedded_data data
            else
              let* trades_data := extract_content_patterns (text response) in
              ret trades_data
        | None =>
            let* trades_data := extract_content_patterns (text response) in
            ret trades_data
        end) p1 = (Returns df, p', tr) ->
       HTML_fetch_data p = (Returns df, p', HttpGet HTML_base_url 15 :: tr))
    /\ (forall e p',
       (let* soup := of_outcome (soup_scripts response) in
        let* embedded := extract_embedded_data soup in
        match embedded with
        | Some data =>
            if truthy data then py_len data ;;; process_embedded_data data
            else
              let* trades_data := extract_content_patterns (text response) in
              ret trades_data
        | None =>
            let* trades_data := extract_content_patterns (text response) in
            ret trades_data
        end) p1 = (Raises e, p', []) ->
       HTML_fetch_data p = (Returns [], p', [HttpGet HTML_base_url 15]))).
  { split.
    - intros df p' tr Hrest. unfold HTML_fetch_data.
      apply try_except_returns.
      rewrite (bind_returns _ _ _ _ _ _ Hget), H200. cbn [negb].
      rewrite Hrest. reflexivity.
    - intros e p' Hrest. unfold HTML_fetch_data.
      rewrite (try_except_raises _ _ p e p' [HttpGet HTML_base_url 15]);
        [reflexivity|].
      rewrite (bind_returns _ _ _ _ _ _ Hget), H200. cbn [negb].
      rewrite Hrest. reflexivity. }
  destruct Hbody as [Hreturns Hraises].
  destruct (extract_content_patterns_run (text response) p1)
    as (trades & p2 & tr2 & Hpat & _).
  assert (Hpat' :
    (let* trades_data := extract_content_patterns (text response) in
     ret trades_data) p1 = (Returns trades, p2, tr2)).
  { rewrite (bind_returns _ _ _ _ _ _ Hpat). cbn. now rewrite app_nil_r. }
  destruct (soup_scripts response) as [scripts|e] eqn:Hsoup.
  2:{ left. exists p1. apply (Hraises e). reflexivity. }
  cbn [of_outcome] in Hreturns, Hraises.
  destruct (extract_embedded_data_run scripts p1) as (r & Hrun & _).
  destruct r as [[data|]|e].
  - destruct (truthy data) eqn:Htruthy.
    + left. exists p1.
      apply (HTML_fetch_data_embedded p response scripts data);
        auto; [now apply Z.eqb_eq | fold p1; now rewrite Hrun].
    + right. exists response, trades, p2, tr2. split; [reflexivity|].
      split; [exact Hpat|].
      apply Hreturns. rewrite bind_ret_l.
      rewrite (bind_returns _ _ _ _ _ _ Hrun), Htruthy. cbn [app].
      now rewrite Hpat'.
  - right. exists response, trades, p2, tr2. split; [reflexivity|].
    split; [exact Hpat|].
    apply Hreturns. rewrite bind_ret_l.
    rewrite (bind_returns _ _ _ _ _ _ Hrun). cbn [app]. now rewrite Hpat'.
  - left. exists p1. apply (Hraises e). rewrite bind_ret_l.
    now rewrite (bind_raises _ _ _ _ _ _ Hrun).
Qed.

Lemma HTML_fetch_data_budget p :
  exists df p' lookups,
    HTML_fetch_data p = (Returns df, p', HttpGet HTML_base_url 15 :: lookups)
    /\ Forall lookup_event lookups
    /\ (length (List.filter is_get lookups) <= length df <= 10)%nat.
Proof.
  destruct (HTML_fetch_data_cases p)
    as [(p' & ->)|(response & trades & p2 & tr2 & _ & Hpat & ->)].
  - exists [], p', []. split; [reflexivity|]. split; [constructor | cbn; lia].
  - destruct (extract_content_patterns_run (text response)
                (with_world (snd (http_get HTML_base_url 15 (world p))) p))
      as (trades' & p2' & tr2' & Hpat' & _ & Hevs & Hgets).
    rewrite Hpat in Hpat'. injection Hpat' as <- <- <-.
    exists trades, p2, tr2. auto.
Qed.

(** X30. In a frame that [fetch_data] of the HTML source returns, the
    company of every row is the name the cache of the process holds under
    the ticker of the row when the call returns; so two rows with the same
    ticker carry the same company. *)
Theorem HTML_fetch_data_companies_follow_tickers p :
  exists df p' tr,
    HTML_fetch_data p = (Returns df, p', tr)
    /\ Forall (fun r => cache (company_lookup p') !! ticker r = Some (company r))
         df
    /\ forall r1 r2, In r1 df -> In r2 df ->
         ticker r1 = ticker r2 -> company r1 = company r2.
Proof.
  assert (Hsame : forall (df : DataFrame) p',
    Forall (fun r => cache (company_lookup p') !! ticker r = Some (company r)) df ->
    forall r1 r2, In r1 df -> In r2 df ->
      ticker r1 = ticker r2 -> company r1 = company r2).
  { intros df p' Hall r1 r2 H1 H2 Heq. rewrite Forall_forall in Hall.
    pose proof (Hall r1 (proj2 (list_elem_of_In _ _) H1)) as Hc1.
    pose proof (Hall r2 (proj2 (list_elem_of_In _ _) H2)) as Hc2.
    rewrite Heq in Hc1. congruence. }
  destruct (HTML_fetch_data_cases p)
    as [(p' & ->)|(response & trades & p2 & tr2 & _ & Hpat & ->)].
  - eexists [], p', _. split; [reflexivity|]. split; [constructor|].
    intros r1 r2 [].
  - destruct (extract_content_patterns_run (text response)
                (with_world (snd (http_get HTML_base_url 15 (world p))) p))
      as (trades' & p2' & tr2' & Hpat' & Hrows & _).
    rewrite Hpat in Hpat'. injection Hpat' as <- <- <-.
    assert (Hall : Forall
      (fun r => cache (company_lookup p2) !! ticker r = Some (company r)) trades).
    { apply Forall_forall. intros r Hr.
      apply list_elem_of_lookup_1 in Hr as [i Hi].
      now destruct (Hrows i r Hi) as (_ & Hc & _). }
    eexists trades, p2, _. split; [reflexivity|]. split; [exact Hall|].
    exact (Hsame trades p2 Hall).
Qed.

(** X24. [fetch_data] of the HTML source never raises and keeps to a
    budget of requests: it makes exactly one GET for the listing page, with
    timeout 15, and after it nothing but name lookups (GETs with timeout 5
    to the ticker service and pauses of 100 milliseconds), with at most one
    GET per row it returns, and at most 10 rows. *)
Theorem HTML_fetch_data_request_budget p :
  exists df p' lookups,
    HTML_fetch_data p = (Returns df, p', HttpGet HTML_base_url 15 :: lookups)
    /\ Forall lookup_event lookups
    /\ (length (List.filter is_get lookups) <= length df <= 10)%nat.
Proof. exact (HTML_fetch_data_budget p). Qed.

Lemma requests_app (tr1 tr2 : list (mgr_event net_event)) :
  requests (tr1 ++ tr2) = (requests tr1 + requests tr2)%nat.
Proof. unfold requests. now rewrite List.filter_app, length_app. Qed.

Lemma requests_inner (t : list net_event) :
  requests (map Inner t) = length (List.filter is_get t).
Proof.
  unfold requests. induction t as [|[url timeout|ms] t IH]; cbn; auto.
Qed.

(** One pass of the loop over a source that probes with one request and
    fetches with one request and at most one more per row. *)
Lemma attempt_requests i (f : DataFetcherBase (Process World) net_event)
    p p' tr r :
  (forall p0 r0 p1 t1, is_available f p0 = (r0, p1, t1) ->
     (length (List.filter is_get t1) <= 1)%nat) ->
  (forall p1 r1 p2 t2, fetch_data f p1 = (r1, p2, t2) ->
     (length (List.filter is_get t2)
      <= 1 + match r1 with Returns d => length d | Raises _ => 0 end)%nat) ->
  attempt i f p p' tr r ->
  (requests tr
   <= 2 + match r with Some (d, _) => length d | None => 0 end)%nat
  /\ forall d l, r = Some (d, l) ->
       exists p1 p2 t2, fetch_data f p1 = (Returns d, p2, t2) /\ d <> [].
Proof.
  intros Hprobe Hfetch Hat.
  destruct Hat as [p0 r0 p1 t1 Ha Hne
                  | p0 p1 t1 r1 p2 t2 Ha Hd Hempty
                  | p0 p1 t1 d p2 t2 Ha Hd Hne].
  - split; [|discriminate].
    rewrite requests_app, requests_inner. cbn.
    pose proof (Hprobe _ _ _ _ Ha). lia.
  - split; [|discriminate].
    rewrite !requests_app, !requests_inner. cbn.
    pose proof (Hprobe _ _ _ _ Ha). pose proof (Hfetch _ _ _ _ Hd) as Hb.
    destruct r1 as [d|e]; [rewrite (Hempty d eq_refl) in Hb|]; cbn in Hb; lia.
  - split.
    + rewrite !requests_app, !requests_inner. cbn.
      pose proof (Hprobe _ _ _ _ Ha). pose proof (Hfetch _ _ _ _ Hd) as Hb.
      cbn in Hb. lia.
    + intros d' l [= <- _]. eauto.
Qed.

Lemma configured_loop_requests i p :
  (requests (trace_of (fetch_loop i (fetchers data_manager) p)) <= 12)%nat.
Proof.
  assert (HprobeH : forall p0 r0 p1 t1,
    is_available CapitolTradesHTMLFetcher p0 = (r0, p1, t1) ->
    (length (List.filter is_get t1) <= 1)%nat).
  { intros p0 r0 p1 t1. cbn. rewrite (proj1 (is_available_run p0)).
    intros [= _ _ <-]. cbn. lia. }
  assert (HprobeA : forall p0 r0 p1 t1,
    is_available CapitolTradesAPIFetcher p0 = (r0, p1, t1) ->
    (length (List.filter is_get t1) <= 1)%nat).
  { intros p0 r0 p1 t1. cbn. rewrite (proj2 (is_available_run p0)).
    intros [= _ _ <-]. cbn. lia. }
  assert (HfetchH : forall p1 r1 p2 t2,
    fetch_data CapitolTradesHTMLFetcher p1 = (r1, p2, t2) ->
    (length (List.filter is_get t2)
     <= 1 + match r1 with Returns d => length d | Raises _ => 0 end)%nat).
  { intros p1 r1 p2 t2. cbn.
    destruct (HTML_fetch_data_budget p1) as (df & p3 & lookups & -> & _ & Hgets).
    intros [= <- _ <-]. cbn. lia. }
  assert (HfetchA : forall p1 r1 p2 t2,
    fetch_data CapitolTradesAPIFetcher p1 = (r1, p2, t2) ->
    (length (List.filter is_get t2)
     <= 1 + match r1 with Returns d => length d | Raises _ => 0 end)%nat).
  { intros p1 r1 p2 t2. cbn. rewrite API_fetch_data_run.
    intros [= <- _ <-]. cbn. lia. }
  cbn [fetchers data_manager DataManager_init fetch_loop]. unfold bind.
  destruct (try_fetcher_attempt i CapitolTradesHTMLFetcher p)
    as (r0 & p1 & t1 & -> & Hat).
  destruct (attempt_requests _ _ _ _ _ _ HprobeH HfetchH Hat) as [Hreq Hrows].
  destruct r0 as [[d l]|].
  - cbn [trace_of snd ret]. rewrite app_nil_r.
    destruct (Hrows d l eq_refl) as (p0 & p2 & t2 & Hrun & _).
    cbn in Hrun.
    destruct (HTML_fetch_data_budget p0) as (df & p3 & lookups & Heq & _ & Hgets).
    rewrite Heq in Hrun. injection Hrun as <- _ _. lia.
  - destruct (try_fetcher_attempt (Datatypes.S i) CapitolTradesAPIFetcher p1)
      as (r1 & p2 & t2 & -> & Hat2).
    destruct (attempt_requests _ _ _ _ _ _ HprobeA HfetchA Hat2) as [Hreq2 Hrows2].
    destruct r1 as [[d l]|].
    + destruct (Hrows2 d l eq_refl) as (p0 & p3 & t3 & Hrun & Hd).
      cbn in Hrun. rewrite API_fetch_data_run in Hrun.
      injection Hrun as <- _ _. congruence.
    + cbn [trace_of snd ret]. rewrite !app_nil_r, requests_app. lia.
Qed.

(** X25. A call of [get_congressional_data] on a manager with the two
    configured sources makes at most 12 HTTP requests, whatever the network
    does. *)
Theorem get_congressional_data_request_budget force self p :
  fetchers self = fetchers data_manager ->
  (requests (trace_of (get_congressional_data force self p)) <= 12)%nat.
Proof.
  intros Hfs. unfold get_congressional_data.
  destruct (get_data_cases (on_world wall_clock) force self p)
    as (b & p0 & _ & _ & _ & Hcase).
  destruct b.
  - destruct Hcase as (r & p1 & tr1 & Hloop & _ & ->).
    pose proof (configured_loop_requests O p0) as Hreq.
    rewrite Hfs in Hloop. rewrite Hloop in Hreq. cbn [trace_of snd] in Hreq.
    destruct r as [[d l]|]; [|destruct (cached_data self)]; exact Hreq.
  - rewrite Hcase. cbn. lia.
Qed.
End RequestBudget.

(** ** The statements at work *)

Lemma triple_eta {A B C} (x : A * B * C) : x = (fst (fst x), snd (fst x), snd x).
Proof. now destruct x as [[a b] c]. Qed.

Lemma data_manager_reachable :
  reachable (on_world wall_clock) (fetchers data_manager) data_manager.
Proof. exact (reach_init _ _). Qed.

Lemma warm_manager_reachable :
  reachable (on_world wall_clock) (fetchers data_manager) warm_manager.
Proof.
  unfold warm_manager, first_call, get_congressional_data.
  destruct (get_data (on_world wall_clock) false data_manager online)
    as [[[[[data source] self]|e] p] tr] eqn:Hrun;
    [|exact data_manager_reachable].
  exact (reach_get_data _ _ false data_manager online data source self p tr
           data_manager_reachable Hrun).
Qed.

Lemma warm_manager_reached :
  reached_by (on_world wall_clock) (fetchers data_manager)
    (trace_of first_call) warm_manager.
Proof.
  unfold warm_manager, first_call, get_congressional_data, trace_of.
  destruct (get_data_cases (on_world wall_clock) false data_manager online)
    as (b & s0 & _ & _ & _ & Hcase).
  destruct (get_data (on_world wall_clock) false data_manager online)
    as [[[[[data source] self]|e] p] tr] eqn:Hrun.
  - exact (reached_get_data _ _ [] false data_manager online data source self p tr
             (reached_init _ _) Hrun).
  - destruct b.
    + destruct Hcase as (r & s1 & tr1 & _ & _ & Heq).
      destruct r as [[d l]|]; discriminate.
    + discriminate.
Qed.

(** C2 on the second call of the dashboard, on the manager the first call
    left, with the events of the first call as its past: a fetch of six
    rows.  The second call does nothing and serves those six rows. *)
Lemma get_data_fetches_iff_stale_witness :
  reached_by (on_world wall_clock) (fetchers data_manager)
    (trace_of first_call) warm_manager
  /\ option_map (@length _) (last_fetched (trace_of first_call)) = Some 6%nat
  /\ trace_of (get_congressional_data false warm_manager warm_process) = []
  /\ option_map (fun r => (length (fst (fst r)), snd (fst r)))
       (value_of (get_congressional_data false warm_manager warm_process))
     = Some (6%nat, lit "Cached data (last updated: 2025-01-01 12:00:00)")
  /\ let '(res, s', tr) := get_congressional_data false warm_manager warm_process in
     ((last_fetch_time warm_manager = None
       <-> last_fetched (trace_of first_call) = None)
      /\ (forall d, cached_data warm_manager = Some d ->
                    last_fetched (trace_of first_call) = Some d))
     /\ (In FetchFresh tr <->
           false = true \/ last_fetched (trace_of first_call) = None
           \/ exists t, last_fetch_time warm_manager = Some t
                        /\ Datetime.timedelta_minutes 30
                           < fst (on_world wall_clock warm_process) - t)
     /\ (~ In FetchFresh tr ->
         tr = [] /\
         exists d t, last_fetched (trace_of first_call) = Some d
                     /\ cached_data warm_manager = Some d
                     /\ last_fetch_time warm_manager = Some t
                     /\ res = Returns (d, cached_label (Some t), warm_manager))
     /\ (In FetchFresh tr ->
         exists s0 data source s1,
           (s0 = warm_process \/ s0 = snd (on_world wall_clock warm_process))
           /\ fetch_fresh_data warm_manager s0 = (Returns (data, source), s1, tr)
           /\ (data <> [] ->
               last_fetched tr = Some data
               /\ res = Returns (data, source,
                                 refreshed warm_manager
                                   (fst (on_world wall_clock s1)) data)
               /\ s' = snd (on_world wall_clock s1))
           /\ (data = [] ->
               last_fetched tr = None
               /\ exists d label, res = Returns (d, label, warm_manager))).
Proof.
  split; [exact warm_manager_reached|].
  split; [vm_compute; reflexivity|].
  split; [vm_compute; reflexivity|].
  split; [vm_compute; reflexivity|].
  apply (get_data_fetches_iff_stale (on_world wall_clock)
           (fetchers data_manager) (trace_of first_call) false
           warm_manager warm_process).
  exact warm_manager_reached.
Defined.

(** A forced refresh without network, on a manager that holds a frame. *)
Definition failed_refresh :=
  get_congressional_data true stale_manager offline.

(** C3 on that run. *)
Lemma get_data_failed_refresh_serves_cache_witness :
  cached_data stale_manager = Some [sample_row]
  /\ last_fetch_time stale_manager
     = Some (noon - Datetime.timedelta_minutes 31)
  /\ In FetchFresh (trace_of failed_refresh)
  /\ Forall (fun ev => successful_fetch ev = false) (trace_of failed_refresh)
  /\ fst (fst failed_refresh)
     = Returns ([sample_row],
                cached_label (Some (noon - Datetime.timedelta_minutes 31)),
                stale_manager).
Proof.
  assert (Hin : In FetchFresh (trace_of failed_refresh))
    by (vm_compute; left; reflexivity).
  assert (Hno : Forall (fun ev => successful_fetch ev = false)
                  (trace_of failed_refresh))
    by (vm_compute; repeat constructor).
  split; [reflexivity|]. split; [reflexivity|].
  split; [exact Hin|]. split; [exact Hno|].
  exact (get_data_failed_refresh_serves_cache (on_world wall_clock) true
           stale_manager offline _ _ _ [sample_row]
           (noon - Datetime.timedelta_minutes 31)
           (triple_eta failed_refresh) eq_refl eq_refl Hin Hno).
Defined.

(** The coordinator without network. *)
Definition offline_fetch := fetch_fresh_data data_manager offline.

(** C4 on that run. *)
Lemma fetch_fresh_data_no_source_available_witness :
  Forall (fun ev => successful_fetch ev = false) (trace_of offline_fetch)
  /\ fst (fst offline_fetch) = Returns ([], lit "No source available")
  /\ examined (trace_of offline_fetch) = seq 0 (length (fetchers data_manager)).
Proof.
  assert (Hno : Forall (fun ev => successful_fetch ev = false)
                  (trace_of offline_fetch))
    by (vm_compute; repeat constructor).
  split; [exact Hno|].
  exact (fetch_fresh_data_no_source_available data_manager offline _ _ _
           (triple_eta offline_fetch) Hno).
Defined.

(** Against C5 as stated: a page with exactly five money tokens and exactly
    five all-caps tokens gives no row. *)
Lemma extract_content_patterns_five_tokens_no_rows :
  length (re_findall match_money (lit page_five)) = 5%nat
  /\ length (re_findall match_stock (lit page_five)) = 5%nat
  /\ value_of (extract_content_patterns (lit page_five) offline) = Some [].
Proof. vm_compute. auto. Qed.

(** Against C6 as stated: the first row the HTML source produces in the
    scenario [online] was traded on 2024-12-31 and disclosed on 2024-12-17,
    two weeks earlier, and reports a delay of 5 days. *)
Lemma fetched_row_disclosed_before_traded :
  match value_of (get_congressional_data false data_manager online) with
  | Some (r :: _, source, _) =>
      source = HTML_name
      /\ trade_date r = lit "2024-12-31"
      /\ disclosure_date r = lit "2024-12-17"
      /\ str_leb (trade_date r) (disclosure_date r) = false
      /\ reporting_delay r = 5
  | _ => False
  end.
Proof. vm_compute. auto 6. Qed.

(** Against C7 as stated: before any fetch the status has the single key
    [status], none of the documented ones. *)
Lemma get_cache_status_before_fetch_has_no_documented_key :
  exists status,
    option_map fst (value_of (get_cache_info data_manager offline)) = Some status
    /\ keys status = [lit "status"]
    /\ Forall (fun k => ~ In k (keys status)) documented_status_keys.
Proof.
  eexists. split; [vm_compute; reflexivity|]. split; [reflexivity|].
  repeat constructor; vm_compute; intuition discriminate.
Qed.

(** ** The further properties at work *)



(** X18 half an hour to the microsecond after a fetch. *)
Lemma cache_valid_disagrees_with_get_data_at_expiry_witness :
  last_fetch_time expiring_manager = Some (noon - Datetime.timedelta_minutes 30)
  /\ cached_data expiring_manager = Some [sample_row]
  /\ exists status p1,
       get_cache_info expiring_manager offline
       = (Returns (status, expiring_manager), p1, [])
       /\ status_entry "cache_valid" status
          = Some (PBool (fst (on_world wall_clock offline)
                           - (noon - Datetime.timedelta_minutes 30)
                         <? cache_duration expiring_manager))
       /\ (trace_of (get_congressional_data false expiring_manager offline) = []
           <-> fst (on_world wall_clock offline)
                 - (noon - Datetime.timedelta_minutes 30)
               <= cache_duration expiring_manager)
       /\ (fst (on_world wall_clock offline)
             - (noon - Datetime.timedelta_minutes 30)
           = cache_duration expiring_manager ->
           status_entry "cache_valid" status = Some (PBool false)
           /\ get_congressional_data false expiring_manager offline
              = (Returns ([sample_row],
                          cached_label (Some (noon - Datetime.timedelta_minutes 30)),
                          expiring_manager),
                 snd (on_world wall_clock offline), [])).
Proof.
  split; [reflexivity|]. split; [reflexivity|].
  exact (cache_valid_disagrees_with_get_data_at_expiry (on_world wall_clock)
           expiring_manager offline [sample_row]
           (noon - Datetime.timedelta_minutes 30) eq_refl eq_refl).
Defined.

(** X19 on the manager the first call left. *)
Lemma get_cache_status_after_fetch_values_witness :
  reachable (on_world wall_clock) (fetchers data_manager) warm_manager
  /\ last_fetch_time warm_manager = Some noon
  /\ exists status p1 d remaining,
       get_cache_info warm_manager warm_process
       = (Returns (status, warm_manager), p1, [])
       /\ cached_data warm_manager = Some d /\ d <> []
       /\ status_entry "total_records" status = Some (PInt (Z.of_nat (length d)))
       /\ status_entry "last_updated" status
          = Some (PStr (Datetime.strftime_ymd_hms noon))
       /\ status_entry "cache_remaining_minutes" status = Some (PInt remaining)
       /\ 0 <= remaining
       /\ (noon <= fst (on_world wall_clock warm_process) -> remaining <= 30)
       /\ (status_entry "cache_valid" status = Some (PBool false) -> remaining = 0).
Proof.
  assert (Hl : last_fetch_time warm_manager = Some noon)
    by (vm_compute; reflexivity).
  split; [exact warm_manager_reachable|]. split; [exact Hl|].
  exact (get_cache_status_after_fetch_values (on_world wall_clock)
           (fetchers data_manager) warm_manager warm_process noon
           warm_manager_reachable Hl).
Defined.

(** X20 on the second call of the dashboard. *)
Lemma get_congressional_data_rows_witness :
  reachable (on_world wall_clock) (fetchers data_manager) warm_manager
  /\ exists data source self' p' tr,
       get_congressional_data false warm_manager warm_process
       = (Returns (data, source, self'), p', tr)
       /\ ((data = [] /\ source = lit "No source available")
           \/ ((6 <= length data <= 10)%nat
               /\ Forall synthesized data
               /\ (source = HTML_name
                   \/ exists t, source = cached_label (Some t)))).
Proof.
  split; [exact warm_manager_reachable|].
  exact (get_congressional_data_rows false warm_manager warm_process
           warm_manager_reachable).
Defined.

(** X2 on a lookup in lower case with blanks around it, followed by one in
    capitals. *)
Lemma get_company_name_shares_normalized_key_witness :
  let run := get_company_name (Some (lit " aapl ")) ticker_service_up in
  lit " aapl " <> [] /\ lit "AAPL" <> []
  /\ normalize (lit " aapl ") = normalize (lit "AAPL")
  /\ fst (fst run) = Returns (PStr (lit "Apple Inc."))
  /\ get_company_name (Some (lit "AAPL")) (snd (fst run))
     = (Returns (PStr (lit "Apple Inc.")), snd (fst run), []).
Proof.
  intros run.
  assert (Hv : fst (fst run) = Returns (PStr (lit "Apple Inc.")))
    by (vm_compute; reflexivity).
  assert (Hkey : normalize (lit " aapl ") = normalize (lit "AAPL"))
    by (vm_compute; reflexivity).
  assert (Hne1 : lit " aapl " <> []) by discriminate.
  assert (Hne2 : lit "AAPL" <> []) by discriminate.
  pose proof (triple_eta run) as Hrun. rewrite Hv in Hrun.
  repeat (split; [assumption|]).
  exact (get_company_name_shares_normalized_key (lit " aapl ") (lit "AAPL")
           ticker_service_up _ _ _ Hne1 Hne2 Hkey Hrun).
Defined.

(** X3 without network. *)
Lemma get_company_name_falls_back_witness :
  lit "msft" <> []
  /\ cache (company_lookup offline) !! normalize (lit "msft") = None
  /\ usable_reply
       (fst (http_get (lookup_url (normalize (lit "msft"))) 5 (world offline)))
     = false
  /\ get_company_name (Some (lit "msft")) offline
     = (Returns (fallback_name (normalize (lit "msft"))),
        stored (normalize (lit "msft")) (fallback_name (normalize (lit "msft")))
          (snd (http_get (lookup_url (normalize (lit "msft"))) 5 (world offline)))
          offline,
        [HttpGet (lookup_url (normalize (lit "msft"))) 5; Sleep 100]).
Proof.
  assert (Hne : lit "msft" <> []) by discriminate.
  assert (Hmiss : cache (company_lookup offline) !! normalize (lit "msft") = None)
    by reflexivity.
  assert (Hun : usable_reply
                  (fst (http_get (lookup_url (normalize (lit "msft"))) 5
                          (world offline))) = false) by reflexivity.
  repeat (split; [assumption|]).
  exact (get_company_name_falls_back (lit "msft") offline Hne Hmiss Hun).
Defined.

(** X4 on the reply [apple]. *)
Lemma get_company_name_prefers_exact_match_witness :
  lit " aapl " <> []
  /\ cache (company_lookup ticker_service_up) !! normalize (lit " aapl ") = None
  /\ fst (http_get (lookup_url (normalize (lit " aapl "))) 5
            (world ticker_service_up)) = Returns apple_response
  /\ Forall well_formed_item apple_results
  /\ chosen_name (normalize (lit " aapl ")) apple_results
     = PStr (lit "Apple Inc.")
  /\ get_company_name (Some (lit " aapl ")) ticker_service_up
     = (Returns (chosen_name (normalize (lit " aapl ")) apple_results),
        stored (normalize (lit " aapl "))
          (chosen_name (normalize (lit " aapl ")) apple_results)
          (snd (http_get (lookup_url (normalize (lit " aapl "))) 5
                  (world ticker_service_up)))
          ticker_service_up,
        [HttpGet (lookup_url (normalize (lit " aapl "))) 5]).
Proof.
  assert (Hne : lit " aapl " <> []) by discriminate.
  assert (Hitems : apple_results <> []) by discriminate.
  assert (Hmiss : cache (company_lookup ticker_service_up)
                    !! normalize (lit " aapl ") = None) by reflexivity.
  assert (Hreply : fst (http_get (lookup_url (normalize (lit " aapl "))) 5
                          (world ticker_service_up)) = Returns apple_response)
    by reflexivity.
  assert (Hwf : Forall well_formed_item apple_results)
    by (repeat constructor).
  split; [exact Hne|]. split; [exact Hmiss|]. split; [exact Hreply|].
  split; [exact Hwf|]. split; [vm_compute; reflexivity|].
  exact (get_company_name_prefers_exact_match (lit " aapl ") ticker_service_up
           apple_response _ apple_results Hne Hmiss Hreply eq_refl eq_refl
           eq_refl Hitems Hwf).
Defined.

(** X8 without network. *)
Lemma HTML_fetch_data_failed_page_witness :
  status_is_200 (fst (http_get HTML_base_url 15 (world offline))) = false
  /\ HTML_fetch_data offline
     = (Returns [],
        with_world (snd (http_get HTML_base_url 15 (world offline))) offline,
        [HttpGet HTML_base_url 15]).
Proof.
  assert (Hbad : status_is_200 (fst (http_get HTML_base_url 15 (world offline)))
                 = false) by reflexivity.
  split; [exact Hbad|].
  exact (HTML_fetch_data_failed_page offline Hbad).
Defined.

(** X10 on a page whose text has six tokens of each kind. *)
Lemma HTML_fetch_data_drops_embedded_data_witness :
  let p1 := with_world (snd (scripted_get HTML_base_url 15 (world embedded_page)))
              embedded_page in
  fst (scripted_get HTML_base_url 15 (world embedded_page))
    = Returns embedded_response
  /\ pattern_rows (text embedded_response) = 6%nat
  /\ fst (fst (extract_embedded_data (RT:=embedded_runtime)
                 [None; Some embedded_script] p1))
     = Returns (Some embedded_value)
  /\ truthy embedded_value = true
  /\ HTML_fetch_data (RT:=embedded_runtime) embedded_page
     = (Returns [], p1, [HttpGet HTML_base_url 15]).
Proof.
  intros p1.
  assert (Hfound : fst (fst (extract_embedded_data (RT:=embedded_runtime)
                               [None; Some embedded_script] p1))
                   = Returns (Some embedded_value))
    by (vm_compute; reflexivity).
  split; [reflexivity|]. split; [vm_compute; reflexivity|].
  split; [exact Hfound|]. split; [reflexivity|].
  exact (HTML_fetch_data_drops_embedded_data (RT:=embedded_runtime)
           embedded_page embedded_response [None; Some embedded_script]
           embedded_value eq_refl eq_refl eq_refl Hfound eq_refl).
Defined.

(** X21 on the selection of one politician in a date range. *)
Lemma apply_filters_keeps_passing_rows_witness :
  apply_filters every_date two_rows pelosi_in_december = Returns [sample_row]
  /\ [sample_row] `sublist_of` two_rows
  /\ Forall (fun r => passes pelosi_in_december r = true) [sample_row].
Proof.
  assert (Hrun : apply_filters every_date two_rows pelosi_in_december
                 = Returns [sample_row]) by (vm_compute; reflexivity).
  split; [exact Hrun|].
  exact (apply_filters_keeps_passing_rows every_date two_rows
           pelosi_in_december [sample_row] Hrun).
Defined.

(** X22 on the selection of one politician with every trade size
    deselected: the row of that politician stays. *)
Lemma apply_filters_without_dates_witness :
  (f_start_date pelosi_only = None \/ f_end_date pelosi_only = None)
  /\ List.filter (passes pelosi_only) two_rows = [sample_row]
  /\ apply_filters no_date two_rows pelosi_only
     = Returns (List.filter (passes pelosi_only) two_rows).
Proof.
  assert (Hdates : f_start_date pelosi_only = None
                   \/ f_end_date pelosi_only = None) by (left; reflexivity).
  split; [exact Hdates|]. split; [vm_compute; reflexivity|].
  exact (apply_filters_without_dates no_date two_rows pelosi_only Hdates).
Defined.

(** X23 on a date conversion that fails. *)
Lemma apply_filters_raises_only_from_dates_witness :
  apply_filters no_date two_rows pelosi_in_december
    = Raises (Exception "ValueError")
  /\ two_rows <> []
  /\ exists start_date end_date,
       f_start_date pelosi_in_december = Some start_date
       /\ f_end_date pelosi_in_december = Some end_date
       /\ no_date (map trade_date
                     (List.filter (selected pelosi_in_december) two_rows))
            start_date end_date = Raises (Exception "ValueError").
Proof.
  assert (Hrun : apply_filters no_date two_rows pelosi_in_december
                 = Raises (Exception "ValueError")) by (vm_compute; reflexivity).
  split; [exact Hrun|].
  exact (apply_filters_raises_only_from_dates no_date two_rows
           pelosi_in_december (Exception "ValueError") Hrun).
Defined.

(** X25 on the first call of the dashboard. *)
Lemma get_congressional_data_request_budget_witness :
  fetchers data_manager = fetchers data_manager
  /\ requests (trace_of first_call) = 8%nat
  /\ (requests (trace_of (get_congressional_data false data_manager online))
      <= 12)%nat.
Proof.
  split; [reflexivity|]. split; [vm_compute; reflexivity|].
  exact (get_congressional_data_request_budget false data_manager online eq_refl).
Defined.

(** X26 on the manager the first call left. *)
Lemma reachable_manager_invariant_witness :
  reachable (on_world wall_clock) (fetchers data_manager) warm_manager
  /\ fetchers warm_manager = fetchers data_manager
  /\ cache_duration warm_manager = Datetime.timedelta_minutes 30
  /\ ((last_fetch_time warm_manager = None /\ cached_data warm_manager = None)
      \/ exists t d, last_fetch_time warm_manager = Some t
                     /\ cached_data warm_manager = Some d /\ d <> []).
Proof.
  split; [exact warm_manager_reachable|].
  exact (reachable_manager_invariant (on_world wall_clock)
           (fetchers data_manager) warm_manager warm_manager_reachable).
Defined.

(** X27 on a word in the middle of a sentence. *)
Lemma stock_pattern_finds_every_capital_word_witness :
  (3 <= length (lit "AAPL") <= 5)%nat
  /\ Forall (fun c => (65 <= c <= 90)%N) (lit "AAPL")
  /\ whole_word_of (lit "Bought AAPL, sold it.") (lit "AAPL")
  /\ In (lit "AAPL") (re_findall match_stock (lit "Bought AAPL, sold it.")).
Proof.
  assert (Hlen : (3 <= length (lit "AAPL") <= 5)%nat) by (cbn; lia).
  assert (Hcaps : Forall (fun c => (65 <= c <= 90)%N) (lit "AAPL"))
    by (change (lit "AAPL") with [65; 65; 80; 76]%N;
        repeat (constructor; [lia|]); constructor).
  assert (Hword : whole_word_of (lit "Bought AAPL, sold it.") (lit "AAPL")).
  { exists (lit "Bought "), (lit ", sold it."). repeat split; reflexivity. }
  repeat (split; [assumption|]).
  exact (stock_pattern_finds_every_capital_word _ _ Hlen Hcaps Hword).
Defined.


(** ** Worked examples *)

(** The patterns on small texts, as [re.findall] answers them. *)
Example findall_money_example :
  re_findall match_money (lit "$1,2.345 $ 5K-6 7K-8K9K-10K $.50 x$5.5.55")
  = map lit ["$1,2.34"; "7K-8K"; "9K-10K"; "$5"]%string.
Proof. vm_compute. reflexivity. Qed.

Example findall_money_en_dash :
  re_findall match_money (lit "size " ++ default_trade_size ++ lit ".")
  = [default_trade_size].
Proof. vm_compute. reflexivity. Qed.

Example findall_stock_example :
  re_findall match_stock (lit "ABC ABCD-ABCDE,ABCDEF AB abC ABC1 _ABC ABC")
  = map lit ["ABC"; "ABCD"; "ABCDE"; "ABC"]%string.
Proof. vm_compute. reflexivity. Qed.

Example str_of_noon : Datetime.to_str noon = lit "2025-01-01 12:00:00".
Proof. vm_compute. reflexivity. Qed.

Example str_with_microseconds :
  Datetime.to_str (noon + 42) = lit "2025-01-01 12:00:00.000042".
Proof. vm_compute. reflexivity. Qed.

Example leap_day :
  Datetime.strftime_ymd (noon - Datetime.timedelta_days 307) = lit "2024-02-29".
Proof. vm_compute. reflexivity. Qed.

(** A lookup in lower case with blanks around it: one GET for the
    normalized ticker, the exact match is returned. *)
Example get_company_name_exact_match :
  let run := get_company_name (Some (lit " aapl ")) ticker_service_up in
  value_of run = Some (PStr (lit "Apple Inc."))
  /\ trace_of run = [HttpGet (lookup_url (lit "AAPL")) 5].
Proof. vm_compute. auto. Qed.

(** Without network the placeholder is returned, after a pause. *)
Example get_company_name_fallback :
  let run := get_company_name (Some (lit "msft")) offline in
  value_of run = Some (PStr (lit "Company for MSFT"))
  /\ trace_of run = [HttpGet (lookup_url (lit "MSFT")) 5; Sleep 100].
Proof. vm_compute. auto. Qed.

(** The first call of the dashboard fetches six rows from the HTML source;
    the second, at the same time of day, is served from the cache without a
    single event. *)
Example first_call_fetches :
  option_map (fun r => (length (fst (fst r)), snd (fst r))) (value_of first_call)
  = Some (6%nat, HTML_name)
  /\ examined (trace_of first_call) = [0%nat].
Proof. vm_compute. auto. Qed.

Example second_call_is_served_from_cache :
  let run := get_congressional_data false warm_manager warm_process in
  trace_of run = []
  /\ option_map (fun r => (length (fst (fst r)), snd (fst r))) (value_of run)
     = Some (6%nat, lit "Cached data (last updated: 2025-01-01 12:00:00)").
Proof. vm_compute. auto. Qed.

(** A listing page with five tokens of each kind: the HTML source is
    available and gives no row, the API source is unreachable, and the
    dashboard gets the empty frame. *)
Example five_tokens_page_yields_no_source :
  let run := get_congressional_data false data_manager five_tokens in
  option_map (fun r => (fst (fst r), snd (fst r))) (value_of run)
  = Some ([], lit "No source available")
  /\ examined (trace_of run) = [0; 1]%nat.
Proof. vm_compute. auto. Qed.

(** After the first call the status has the five keys of the code. *)
Example get_cache_status_after_fetch :
  option_map (fun r => keys (fst r)) (value_of (get_cache_info warm_manager warm_process))
  = Some (map lit ["last_updated"; "cache_age_minutes"; "cache_valid";
                   "cache_remaining_minutes"; "total_records"]%string).
Proof. vm_compute. reflexivity. Qed.
